(** * MovieLens 100K ETL and reporting script (ml-100k.py)

    A shallow embedding of the script: the document store, the flat files,
    the output stream and the chart files are an explicit [world]; every
    function of the script is a computation in a state-and-exception monad
    over that world.  The aggregation pipelines that the script hands to the
    document store are embedded stage by stage.

    Conventions of the embedding.
    - A document is an ordered list of (field, value) pairs.  The
      server-generated [_id] is not represented: every stage of the script
      that could expose it projects it away.
    - Doubles are idealised as exact rationals: [$avg] and [$round] are
      computed without the rounding of IEEE arithmetic.
    - [estimated_document_count] and [find] are taken to succeed, and the
      estimated count to be the number of documents; [insert_many] and
      [aggregate], the calls the script wraps in try/except, may raise as
      the world's [write_fault] dictates for the collection they write.
    - [read_csv], which the script calls outside its try blocks, is
      embedded on rectangular files only: every row has exactly the named
      cells, or at least the cells [usecols] keeps.  On any other file
      pandas shifts the names, fills cells in or raises; there the
      embedding stops with [Unsupported].
    - [output_notebook()], called when the module is loaded, and the
      styling of the figures (sizes, label orientation, axis start) are
      left out. *)

From Stdlib Require Import ZArith QArith Qabs List String Ascii Bool Lia DecimalString.
From Stdlib Require DecimalPos DecimalZ Sorted.
Import ListNotations.
Open Scope string_scope.
Open Scope Z_scope.

(** ** Python helpers *)

Module Py.

(** [str(n)] for an int. *)
Definition str (z : Z) : string := NilZero.string_of_int (Z.to_int z).

(** [range(n)] *)
Definition range (n : Z) : list Z := map Z.of_nat (seq 0 (Z.to_nat n)).

(** [l[i]] with Python's negative indices; [None] stands for IndexError. *)
Definition index {A} (l : list A) (i : Z) : option A :=
  let n := Z.of_nat (List.length l) in
  if 0 <=? i then nth_error l (Z.to_nat i)
  else if - n <=? i then nth_error l (Z.to_nat (n + i))
  else None.

Definition upper (c : ascii) : ascii :=
  let n := nat_of_ascii c in
  if ((97 <=? n) && (n <=? 122))%nat then ascii_of_nat (n - 32) else c.

Definition lower (c : ascii) : ascii :=
  let n := nat_of_ascii c in
  if ((65 <=? n) && (n <=? 90))%nat then ascii_of_nat (n + 32) else c.

Fixpoint lower_all (s : string) : string :=
  match s with
  | EmptyString => EmptyString
  | String c r => String (lower c) (lower_all r)
  end.

(** [s.capitalize()] on ASCII text. *)
Definition capitalize (s : string) : string :=
  match s with
  | EmptyString => EmptyString
  | String c r => String (upper c) (lower_all r)
  end.

(** [Series.unique()]: first occurrences, in order of appearance. *)
Fixpoint unique (l : list string) : list string :=
  match l with
  | [] => []
  | x :: r => x :: filter (fun y => negb (String.eqb y x)) (unique r)
  end.

Fixpoint insert_sorted (x : string) (l : list string) : list string :=
  match l with
  | [] => [x]
  | y :: r => if String.leb x y then x :: l else y :: insert_sorted x r
  end.

(** [sorted(l)] on strings (code-point order). *)
Definition sorted (l : list string) : list string :=
  fold_right insert_sorted [] l.

End Py.

(** ** Documents *)

Inductive value : Type :=
| VNull
| VInt (z : Z)
| VDbl (q : Q)
| VStr (s : string).

Definition doc : Type := list (string * value).

Fixpoint doc_get (k : string) (d : doc) : option value :=
  match d with
  | [] => None
  | (k', v) :: r => if String.eqb k' k then Some v else doc_get k r
  end.

(** Keeps the fields that have a value: a projection of a missing field
    yields no field. *)
Fixpoint present (l : list (string * option value)) : doc :=
  match l with
  | [] => []
  | (k, Some v) :: r => (k, v) :: present r
  | (_, None) :: r => present r
  end.

Definition numeric (v : value) : option Q :=
  match v with
  | VInt z => Some (inject_Z z)
  | VDbl q => Some q
  | _ => None
  end.

(** Equality as the document store compares values: numbers by their
    numeric value across int and double, strings and null structurally. *)
Definition value_eqb (a b : value) : bool :=
  match a, b with
  | VNull, VNull => true
  | VStr s, VStr t => String.eqb s t
  | VInt x, VInt y => Z.eqb x y
  | VInt x, VDbl q => Qeq_bool (inject_Z x) q
  | VDbl q, VInt y => Qeq_bool q (inject_Z y)
  | VDbl p, VDbl q => Qeq_bool p q
  | _, _ => false
  end.

(** A field that may be missing: missing equals only missing. *)
Definition key_eqb (a b : option value) : bool :=
  match a, b with
  | None, None => true
  | Some x, Some y => value_eqb x y
  | _, _ => false
  end.

(** ** The world *)

Record csv_request : Type := {
  path : string;
  sep : string;
  encoding : option string
}.

(** How a failing write fails: [partial] documents of an ordered
    [insert_many] are stored before the error is raised. *)
Record fault : Type := {
  partial : nat;
  message : string
}.

Record figure : Type := {
  title : string;
  x_range : list string;
  y_axis_label : string;
  bars : list (string * value)   (* x = genre label, top = plotted value *)
}.

Inductive event : Type :=
| EPrint (s : string)
| ECount (col : string)
| EFind (col : string)
| EReadCsv (req : csv_request) (usecols : option nat) (names : list string)
| EInsertMany (col : string) (docs : list doc)
| EAggregate (col : string) (out : string)
| EOutputFile (file : string)
| EShow (grid : list (list figure)).

(** [Unsupported] is not a Python exception: it marks the inputs the
    embedding does not cover.  These are the flat files that are not
    rectangular, and the statistics documents on which pandas would coerce
    column types (a missing or non-integer cell). *)
Inductive exn : Type :=
| PyMongoError (msg : string)
| TypeError (msg : string)
| KeyError (msg : string)
| IndexError (msg : string)
| Unsupported (what : string).

(** [str(e)] *)
Definition exn_str (e : exn) : string :=
  match e with
  | PyMongoError m | TypeError m | KeyError m | IndexError m | Unsupported m => m
  end.

Record world : Type := {
  csv_tables : csv_request -> list (list value);   (* the parsed flat files *)
  write_fault : string -> option fault;            (* writes that will fail *)
  db : string -> list doc;                         (* collection name -> documents *)
  trace : list event                               (* what the script did, oldest first *)
}.

Definition log (e : event) (w : world) : world :=
  {| csv_tables := csv_tables w; write_fault := write_fault w;
     db := db w; trace := trace w ++ [e] |}.

Definition store (col : string) (docs : list doc) (w : world) : world :=
  {| csv_tables := csv_tables w; write_fault := write_fault w;
     db := fun c => if String.eqb c col then docs else db w c;
     trace := trace w |}.

(** ** State and exceptions *)

Inductive result (A : Type) : Type :=
| Ok (a : A) (w : world)
| Raise (e : exn) (w : world).
Arguments Ok {A} a w.
Arguments Raise {A} e w.

Definition M (A : Type) : Type := world -> result A.

Definition ret {A} (a : A) : M A := fun w => Ok a w.

Definition bind {A B} (m : M A) (k : A -> M B) : M B :=
  fun w => match m w with
           | Ok a w' => k a w'
           | Raise e w' => Raise e w'
           end.

Definition raise {A} (e : exn) : M A := fun w => Raise e w.

(** [try: body except Exception as e: handler(e)] *)
Definition try_except {A} (body : M A) (handler : exn -> M A) : M A :=
  fun w => match body w with
           | Ok a w' => Ok a w'
           | Raise e w' => handler e w'
           end.

Definition final {A} (r : result A) : world :=
  match r with Ok _ w | Raise _ w => w end.

Declare Scope py_scope.
Delimit Scope py_scope with py.
Notation "x <- m ;; k" := (bind m (fun x => k))
  (at level 100, m at next level, right associativity) : py_scope.
Notation "m ;; k" := (bind m (fun _ => k))
  (at level 100, right associativity) : py_scope.
Open Scope py_scope.

Definition print (s : string) : M unit := fun w => Ok tt (log (EPrint s) w).

(** ** The document store (pymongo) *)

Module Mongo.

Definition estimated_document_count (col : string) : M Z :=
  fun w => Ok (Z.of_nat (List.length (db w col))) (log (ECount col) w).

(** [list(col.find({}, {"_id": 0}))] *)
Definition find (col : string) : M (list doc) :=
  fun w => Ok (db w col) (log (EFind col) w).

(** Ordered bulk insert.  An empty list is refused by the driver. *)
Definition insert_many (col : string) (docs : list doc) : M unit :=
  fun w =>
    let w1 := log (EInsertMany col docs) w in
    match docs with
    | [] => Raise (TypeError "documents must be a non-empty list") w1
    | _ :: _ =>
        match write_fault w col with
        | Some f =>
            Raise (PyMongoError (message f))
                  (store col (db w col ++ firstn (partial f) docs) w1)
        | None => Ok tt (store col (db w col ++ docs) w1)
        end
    end.

(** [col.aggregate(stages + [{"$out": out}])]: the stages are run over
    the documents of [col] and the result replaces collection [out]. *)
Definition aggregate (col : string)
           (stages : (string -> list doc) -> list doc -> list doc)
           (out : string) : M unit :=
  fun w =>
    let w1 := log (EAggregate col out) w in
    match write_fault w out with
    | Some f => Raise (PyMongoError (message f)) w1
    | None => Ok tt (store out (stages (db w) (db w col)) w1)
    end.

(** [$lookup]: a missing field matches as null. *)
Definition lookup_key (k : string) (d : doc) : value :=
  match doc_get k d with Some v => v | None => VNull end.

Definition lookup {A} (from : list doc) (localField : A -> value)
           (foreignField : string) (l : list A) : list (A * list doc) :=
  map (fun a =>
         (a, filter (fun f => value_eqb (lookup_key foreignField f) (localField a)) from))
      l.

(** [$unwind] of the array a [$lookup] added. *)
Definition unwind {A B} (l : list (A * list B)) : list (A * B) :=
  flat_map (fun ab => map (pair (fst ab)) (snd ab)) l.

(** [$round] to [places] decimals, ties to even, on exact rationals. *)
Definition round_half_even (q : Q) : Z :=
  let n := Qnum q in
  let d := Z.pos (Qden q) in
  let fl := n / d in
  let r := n mod d in
  if 2 * r <? d then fl
  else if d <? 2 * r then fl + 1
  else if Z.even fl then fl else fl + 1.

Definition round (q : Q) (places : Z) : Q :=
  let scale := 10 ^ places in
  Qred (Qmake (round_half_even (q * inject_Z scale)) (Z.to_pos scale)).

End Mongo.

(** ** Data frames (pandas) *)

Module Pandas.

Record DataFrame : Type := {
  columns : list string;
  rows : list (list value)
}.

Definition select (usecols : option nat) (row : list value) : list value :=
  match usecols with
  | Some n => firstn n row
  | None => row
  end.

(** The rows on which the cells kept are named one by one, in order: a
    row of exactly as many cells as there are names or, under
    [usecols=range(n)], of at least [n] cells. *)
Definition well_formed (usecols : option nat) (names : list string) (row : list value)
  : bool :=
  match usecols with
  | Some n => (n <=? List.length row)%nat
  | None => (List.length row =? List.length names)%nat
  end.

(** [pd.read_csv(path, sep=, encoding=, usecols=range(n), names=)] *)
Definition read_csv (path sep : string) (encoding : option string)
           (usecols : option nat) (names : list string) : M DataFrame :=
  fun w =>
    let req := {| path := path; sep := sep; encoding := encoding |} in
    let w1 := log (EReadCsv req usecols names) w in
    if forallb (well_formed usecols names) (csv_tables w req)
    then Ok {| columns := names; rows := map (select usecols) (csv_tables w req) |} w1
    else Raise (Unsupported path) w1.

(** [df.to_dict("records")] *)
Definition to_dict_records (df : DataFrame) : list doc :=
  map (fun row => combine (columns df) row) (rows df).

End Pandas.

(** ** The script *)

Definition genre_field (i : Z) : string := "genre_" ++ Py.str i.

(** Lines 10-41. *)
Definition populate_data_if_needed (users_col movies_col ratings_col : string) : M unit :=
  populated <-
    (nu <- Mongo.estimated_document_count users_col ;;
     if 0 <? nu then
       nm <- Mongo.estimated_document_count movies_col ;;
       if 0 <? nm then
         nr <- Mongo.estimated_document_count ratings_col ;;
         ret (0 <? nr)
       else ret false
     else ret false) ;;
  if populated : bool then
    print "Data already exists in MongoDB collections. Skipping data load."
  else
    users_df <- Pandas.read_csv "ml-100k/u.user" "|" None None
                  ["user_id"; "age"; "gender"; "occupation"; "zip_code"] ;;
    try_except
      (Mongo.insert_many users_col (Pandas.to_dict_records users_df))
      (fun e => print ("Warning: could not insert into users collection: " ++ exn_str e)) ;;
    let movies_cols :=
      (["movie_id"; "title"; "release_date"; "video_release_date"; "IMDb_URL"]
         ++ map genre_field (Py.range 19))%list in
    movies_df <- Pandas.read_csv "ml-100k/u.item" "|" (Some "latin-1") (Some 24%nat)
                   movies_cols ;;
    try_except
      (Mongo.insert_many movies_col (Pandas.to_dict_records movies_df))
      (fun e => print ("Warning: could not insert into movies collection: " ++ exn_str e)) ;;
    ratings_df <- Pandas.read_csv "ml-100k/u.data" (String (ascii_of_nat 9) "") None None
                    ["user_id"; "movie_id"; "rating"; "timestamp"] ;;
    try_except
      (Mongo.insert_many ratings_col (Pandas.to_dict_records ratings_df))
      (fun e => print ("Warning: could not insert into ratings collection: " ++ exn_str e)) ;;
    print "Data population complete.".

(** The final [$project] of the join (lines 72-84): the rating's own three
    fields, three fields of the user, nineteen flags of the movie. *)
Definition project_join (r u m : doc) : doc :=
  present
    ([("user_id", doc_get "user_id" r);
      ("movie_id", doc_get "movie_id" r);
      ("rating", doc_get "rating" r);
      ("age", doc_get "age" u);
      ("gender", doc_get "gender" u);
      ("occupation", doc_get "occupation" u)]
       ++ map (fun i => (genre_field i, doc_get (genre_field i) m)) (Py.range 19))%list.

(** The stages of lines 53-84, before [$out]. *)
Definition join_stages (d : string -> list doc) (ratings : list doc) : list doc :=
  let with_users :=
    Mongo.unwind (Mongo.lookup (d "users") (Mongo.lookup_key "user_id") "user_id" ratings) in
  let with_movies :=
    Mongo.unwind (Mongo.lookup (d "movies")
                               (fun ru => Mongo.lookup_key "movie_id" (fst ru))
                               "movie_id" with_users) in
  map (fun rum => project_join (fst (fst rum)) (snd (fst rum)) (snd rum)) with_movies.

(** Lines 44-95. *)
Definition populate_user_movie_info_if_needed (userinfo_genres_col ratings_col : string)
  : M unit :=
  n <- Mongo.estimated_document_count userinfo_genres_col ;;
  if 0 <? n then
    print "ratings_userinfo_genres already has data. Skipping join step."
  else
    done <-
      try_except
        (Mongo.aggregate ratings_col join_stages "ratings_userinfo_genres" ;; ret true)
        (fun e =>
           print ("Error during aggregation into ratings_userinfo_genres: " ++ exn_str e) ;;
           ret false) ;;
    if done : bool then print "ratings_userinfo_genres has been created and populated."
    else ret tt.

(** *** Statistics (lines 98-156) *)

(** First [$project] and [$unwind]: one entry per document and genre index,
    carrying the group value, the rating, the index and the flag. *)
Definition genre_flags (genre_count : Z) (d : doc) : list (Z * option value) :=
  map (fun i => (i, doc_get (genre_field i) d)) (Py.range genre_count).

Definition flagged : Type := (option value * option value) * (Z * option value).

Definition unwind_flags (group_field : string) (genre_count : Z) (src : list doc)
  : list flagged :=
  Mongo.unwind
    (map (fun d => ((doc_get group_field d, doc_get "rating" d), genre_flags genre_count d))
         src).

(** [{"$match": {"genre_flags.flag": 1}}] *)
Definition flag_is_one (f : option value) : bool :=
  match f with
  | Some v => value_eqb v (VInt 1)
  | None => false
  end.

(** The accumulators of one [$group] bucket: [$avg] keeps the sum and the
    number of numeric ratings, [{"$sum": 1}] the number of documents. *)
Record group_acc : Type := {
  g_key : option value;
  g_index : Z;
  g_sum : Q;
  g_numeric : Z;
  g_count : Z
}.

Definition same_group (g : group_acc) (k : option value) (i : Z) : bool :=
  key_eqb (g_key g) k && (g_index g =? i).

Definition add_rating (g : group_acc) (r : option value) : group_acc :=
  match r with
  | Some v =>
      match numeric v with
      | Some q =>
          {| g_key := g_key g; g_index := g_index g;
             g_sum := g_sum g + q; g_numeric := g_numeric g + 1;
             g_count := g_count g + 1 |}
      | None =>
          {| g_key := g_key g; g_index := g_index g;
             g_sum := g_sum g; g_numeric := g_numeric g;
             g_count := g_count g + 1 |}
      end
  | None =>
      {| g_key := g_key g; g_index := g_index g;
         g_sum := g_sum g; g_numeric := g_numeric g;
         g_count := g_count g + 1 |}
  end.

Definition new_group (k : option value) (i : Z) : group_acc :=
  {| g_key := k; g_index := i; g_sum := 0; g_numeric := 0; g_count := 0 |}.

Fixpoint accumulate (x : flagged) (groups : list group_acc) : list group_acc :=
  match groups with
  | [] => [add_rating (new_group (fst (fst x)) (fst (snd x))) (snd (fst x))]
  | g :: rest =>
      if same_group g (fst (fst x)) (fst (snd x))
      then add_rating g (snd (fst x)) :: rest
      else g :: accumulate x rest
  end.

Definition group_stage (l : list flagged) : list group_acc :=
  fold_left (fun groups x => accumulate x groups) l [].

(** [$avg] is null when no rating of the bucket is numeric.  The quotient
    is the exact one; the server stores the double nearest to it. *)
Definition avg_value (g : group_acc) : value :=
  if g_numeric g =? 0 then VNull
  else VDbl (g_sum g / inject_Z (g_numeric g)).

Definition round_value (v : value) (places : Z) : value :=
  match v with
  | VDbl q => VDbl (Mongo.round q places)
  | other => other
  end.

(** The final [$project] (lines 130-139). *)
Definition reshape (group_field : string) (g : group_acc) : doc :=
  present
    [(group_field, g_key g);
     ("genre_index", Some (VInt (g_index g)));
     ("avg_rating", Some (round_value (avg_value g) 3));
     ("count", Some (VInt (g_count g)))].

Definition stat_groups (group_field : string) (genre_count : Z) (src : list doc)
  : list group_acc :=
  group_stage (filter (fun x => flag_is_one (snd (snd x)))
                      (unwind_flags group_field genre_count src)).

(** The stages of lines 110-139, before [$out].  [group_field] is a field
    of the joined documents that the pipeline does not itself introduce
    (not [genre_flags], [genre_index], [avg_rating] or [count]). *)
Definition stats_stages (group_field : string) (genre_count : Z)
           (_ : string -> list doc) (src : list doc) : list doc :=
  map (reshape group_field) (stat_groups group_field genre_count src).

Definition build_and_insert_stats (source_col target_col group_field : string)
           (genre_count : Z) : M unit :=
  n <- Mongo.estimated_document_count target_col ;;
  if 0 <? n then
    print (target_col ++ " already has data. Skipping stats aggregation.")
  else
    try_except
      (Mongo.aggregate source_col (stats_stages group_field genre_count) target_col ;;
       print ("Statistics for " ++ group_field ++ " inserted into " ++ target_col ++ "."))
      (fun e => print ("Error creating stats for " ++ group_field ++ ": " ++ exn_str e)).

Definition populate_statistics_if_needed
           (userinfo_genres_col age_stats_col gender_stats_col occupation_stats_col : string)
  : M unit :=
  build_and_insert_stats userinfo_genres_col age_stats_col "age" 19 ;;
  build_and_insert_stats userinfo_genres_col gender_stats_col "gender" 19 ;;
  build_and_insert_stats userinfo_genres_col occupation_stats_col "occupation" 19.

(** *** Charts (lines 159-236) *)

Definition age_to_group (age : Z) : string :=
  if age <? 10 then "0-9"
  else
    let lower := (age / 10) * 10 in
    Py.str lower ++ "-" ++ Py.str (lower + 9).

(** A row of the data frame handed to [make_bokeh_charts]: columns
    [group], [genre_index], [avg_rating], [count]. *)
Record stat_row : Type := {
  group : string;
  genre_index : Z;
  avg_rating : value;
  count : value
}.

Definition stat_row_of (field : string) (to_group : value -> option string) (d : doc)
  : option stat_row :=
  match doc_get field d, doc_get "genre_index" d,
        doc_get "avg_rating" d, doc_get "count" d with
  | Some g, Some (VInt i), Some a, Some c =>
      match to_group g with
      | Some s => Some {| group := s; genre_index := i; avg_rating := a; count := c |}
      | None => None
      end
  | _, _, _, _ => None
  end.

Fixpoint frame_rows (field : string) (to_group : value -> option string) (docs : list doc)
  : option (list stat_row) :=
  match docs with
  | [] => Some []
  | d :: rest =>
      match stat_row_of field to_group d, frame_rows field to_group rest with
      | Some r, Some rs => Some (r :: rs)
      | _, _ => None
      end
  end.

(** [pd.DataFrame(docs)], the group column computed from column [field],
    the four columns selected and the group column renamed to [group]. *)
Definition frame (field : string) (to_group : value -> option string) (docs : list doc)
  : M (list stat_row) :=
  match frame_rows field to_group docs with
  | Some rs => ret rs
  | None => raise (Unsupported field)
  end.

(** [df_age["age"].apply(age_to_group)] *)
Definition age_group_of (v : value) : option string :=
  match v with
  | VInt a => Some (age_to_group a)
  | _ => None
  end.

(** [df_gender["gender"].astype(str)] *)
Definition gender_of (v : value) : option string :=
  match v with
  | VStr s => Some s
  | VInt z => Some (Py.str z)
  | _ => None
  end.

Definition occupation_of (v : value) : option string :=
  match v with
  | VStr s => Some s
  | _ => None
  end.

(** [subset["genre"] = subset["genre_index"].apply(lambda idx: genre_labels[idx])] *)
Fixpoint with_genre (genre_labels : list string) (subset : list stat_row)
  : option (list (string * stat_row)) :=
  match subset with
  | [] => Some []
  | r :: rest =>
      match Py.index genre_labels (genre_index r), with_genre genre_labels rest with
      | Some g, Some l => Some ((g, r) :: l)
      | _, _ => None
      end
  end.

Definition vbar_figure (group_field val metric : string) (genre_labels : list string)
           (column : stat_row -> value) (subset : list (string * stat_row)) : figure :=
  {| title := Py.capitalize group_field ++ ": " ++ val ++ " — " ++ metric;
     x_range := genre_labels;
     y_axis_label := metric;
     bars := map (fun gr => (fst gr, column (snd gr))) subset |}.

(** The body of the loop of lines 176-200 for one group value. *)
Definition chart_pair (doc_df : list stat_row) (group_field : string)
           (genre_labels : list string) (plots : list (list figure)) (val : string)
  : M (list (list figure)) :=
  if negb (String.eqb group_field "group") then raise (KeyError group_field)
  else
    let subset := filter (fun r => String.eqb (group r) val) doc_df in
    match subset with
    | [] => ret plots
    | _ :: _ =>
        match with_genre genre_labels subset with
        | None => raise (IndexError "list index out of range")
        | Some labelled =>
            let p1 := vbar_figure group_field val "Avg Rating" genre_labels avg_rating labelled in
            let p2 := vbar_figure group_field val "Count" genre_labels count labelled in
            ret (plots ++ [[p1; p2]])%list
        end
    end.

Fixpoint chart_loop (doc_df : list stat_row) (group_field : string)
         (genre_labels : list string) (group_values : list string)
         (plots : list (list figure)) : M (list (list figure)) :=
  match group_values with
  | [] => ret plots
  | val :: rest =>
      plots' <- chart_pair doc_df group_field genre_labels plots val ;;
      chart_loop doc_df group_field genre_labels rest plots'
  end.

Definition output_file (file : string) : M unit := fun w => Ok tt (log (EOutputFile file) w).

(** [show(gridplot(plots))] *)
Definition show (grid : list (list figure)) : M unit := fun w => Ok tt (log (EShow grid) w).

Definition make_bokeh_charts (doc_df : list stat_row) (group_field : string)
           (group_values genre_labels : list string) (output_html : string) : M unit :=
  plots <- chart_loop doc_df group_field genre_labels group_values [] ;;
  match plots with
  | [] => ret tt
  | _ :: _ => output_file output_html ;; show plots
  end.

(** One of the three blocks of [plot_statistics]. *)
Definition plot_category (stats_col field : string) (to_group : value -> option string)
           (genre_labels : list string) (output_html : string) : M unit :=
  docs <- Mongo.find stats_col ;;
  match docs with
  | [] => ret tt
  | _ :: _ =>
      df <- frame field to_group docs ;;
      let all_groups := Py.sorted (Py.unique (map group df)) in
      make_bokeh_charts df "group" all_groups genre_labels output_html
  end.

Definition plot_statistics (age_stats_col gender_stats_col occupation_stats_col : string)
           (genre_labels : list string) : M unit :=
  plot_category age_stats_col "age" age_group_of genre_labels "age_group_charts.html" ;;
  plot_category gender_stats_col "gender" gender_of genre_labels "gender_charts.html" ;;
  plot_category occupation_stats_col "occupation" occupation_of genre_labels
                "occupation_charts.html".

(** *** The main program (lines 239-270) *)

Definition genre_labels : list string :=
  ["unknown"; "Action"; "Adventure"; "Animation"; "Children's"; "Comedy"; "Crime";
   "Documentary"; "Drama"; "Fantasy"; "Film-Noir"; "Horror"; "Musical"; "Mystery";
   "Romance"; "Sci-Fi"; "Thriller"; "War"; "Western"].

Definition main : M unit :=
  populate_data_if_needed "users" "movies" "ratings" ;;
  populate_user_movie_info_if_needed "ratings_userinfo_genres" "ratings" ;;
  populate_statistics_if_needed "ratings_userinfo_genres" "age_genre_rating_stats"
                                "gender_genre_rating_stats"
                                "occupation_genre_rating_stats" ;;
  plot_statistics "age_genre_rating_stats" "gender_genre_rating_stats"
                  "occupation_genre_rating_stats" genre_labels ;;
  print "All tasks completed successfully.".

(** ** Vocabulary of the statements *)

(** The records the three flat files give rise to (lines 20, 27-28, 35). *)
Definition users_request : csv_request :=
  {| path := "ml-100k/u.user"; sep := "|"; encoding := None |}.

Definition movies_request : csv_request :=
  {| path := "ml-100k/u.item"; sep := "|"; encoding := Some "latin-1" |}.

Definition ratings_request : csv_request :=
  {| path := "ml-100k/u.data"; sep := String (ascii_of_nat 9) ""; encoding := None |}.

Definition users_names : list string :=
  ["user_id"; "age"; "gender"; "occupation"; "zip_code"].

Definition movies_names : list string :=
  ["movie_id"; "title"; "release_date"; "video_release_date"; "IMDb_URL";
   "genre_0"; "genre_1"; "genre_2"; "genre_3"; "genre_4"; "genre_5"; "genre_6";
   "genre_7"; "genre_8"; "genre_9"; "genre_10"; "genre_11"; "genre_12"; "genre_13";
   "genre_14"; "genre_15"; "genre_16"; "genre_17"; "genre_18"].

Definition ratings_names : list string :=
  ["user_id"; "movie_id"; "rating"; "timestamp"].

Definition tables : Type := csv_request -> list (list value).
Definition faults : Type := string -> option fault.
Definition store_state : Type := string -> list doc.

Definition users_records (files : tables) : list doc :=
  map (combine users_names) (files users_request).

Definition movies_records (files : tables) : list doc :=
  map (fun row => combine movies_names (firstn 24 row)) (files movies_request).

Definition ratings_records (files : tables) : list doc :=
  map (combine ratings_names) (files ratings_request).

(** The three flat files are rectangular: every row of u.user has the five
    cells named on line 20, every row of u.item at least the 24 cells that
    [usecols] keeps, every row of u.data the four cells named on line 35. *)
Definition well_shaped (files : tables) : bool :=
  forallb (Pandas.well_formed None users_names) (files users_request)
  && forallb (Pandas.well_formed (Some 24%nat) movies_names) (files movies_request)
  && forallb (Pandas.well_formed None ratings_names) (files ratings_request).

(** The exception an [insert_many] of [docs] into [col] raises, if any. *)
Definition insert_error (wf : faults) (col : string) (docs : list doc) : option exn :=
  match docs with
  | [] => Some (TypeError "documents must be a non-empty list")
  | _ :: _ =>
      match wf col with
      | Some f => Some (PyMongoError (message f))
      | None => None
      end
  end.

(** What an except clause prints: its prefix, then [str(e)]. *)
Definition warning (prefix : string) (err : option exn) : list event :=
  match err with
  | Some e => [EPrint (prefix ++ exn_str e)]
  | None => []
  end.

Definition is_write (e : event) : bool :=
  match e with
  | EInsertMany _ _ | EAggregate _ _ => true
  | _ => false
  end.

Definition nonempty {A} (l : list A) : bool :=
  match l with [] => false | _ :: _ => true end.

(** Every collection the pipeline fills holds at least one document. *)
Definition populated (w : world) : Prop :=
  forall c, In c ["users"; "movies"; "ratings"; "ratings_userinfo_genres";
                  "age_genre_rating_stats"; "gender_genre_rating_stats";
                  "occupation_genre_rating_stats"] ->
            db w c <> [].

(** The steps of the main program, each recognised by the first access it
    makes to the store. *)
Inductive step : Type :=
| RawLoad | Join | StatsAge | StatsGender | StatsOccupation | Charts.

Definition entry_step (e : event) : option step :=
  match e with
  | ECount c =>
      if String.eqb c "users" then Some RawLoad
      else if String.eqb c "ratings_userinfo_genres" then Some Join
      else if String.eqb c "age_genre_rating_stats" then Some StatsAge
      else if String.eqb c "gender_genre_rating_stats" then Some StatsGender
      else if String.eqb c "occupation_genre_rating_stats" then Some StatsOccupation
      else None
  | EFind c => if String.eqb c "age_genre_rating_stats" then Some Charts else None
  | _ => None
  end.

Fixpoint steps_of (t : list event) : list step :=
  match t with
  | [] => []
  | e :: r => match entry_step e with
              | Some s => s :: steps_of r
              | None => steps_of r
              end
  end.

(** The store after an [insert_many] of [docs] into [col], started from
    store [d]: nothing on an empty list, the stored prefix on a fault. *)
Definition after_insert (wf : faults) (col : string) (docs : list doc)
           (d : store_state) : store_state :=
  match docs with
  | [] => d
  | _ :: _ =>
      match wf col with
      | Some f => fun c => if String.eqb c col then (d col ++ firstn (partial f) docs)%list else d c
      | None => fun c => if String.eqb c col then (d col ++ docs)%list else d c
      end
  end.

Definition all_populated (d : store_state) (u m r : string) : bool :=
  nonempty (d u) && nonempty (d m) && nonempty (d r).

(** The counts the guard of [populate_data_if_needed] takes: [and] stops at
    the first empty collection. *)
Definition guard_probes (d : store_state) (u m r : string) : list event :=
  ECount u ::
  (if nonempty (d u)
   then ECount m :: (if nonempty (d m) then [ECount r] else [])
   else []).

(** What a load that is not skipped does, in order. *)
Definition load_events (files : tables) (wf : faults) (u m r : string) : list event :=
  ([EReadCsv users_request None users_names; EInsertMany u (users_records files)]
     ++ warning "Warning: could not insert into users collection: "
                (insert_error wf u (users_records files))
     ++ [EReadCsv movies_request (Some 24%nat) movies_names;
         EInsertMany m (movies_records files)]
     ++ warning "Warning: could not insert into movies collection: "
                (insert_error wf m (movies_records files))
     ++ [EReadCsv ratings_request None ratings_names;
         EInsertMany r (ratings_records files)]
     ++ warning "Warning: could not insert into ratings collection: "
                (insert_error wf r (ratings_records files))
     ++ [EPrint "Data population complete."])%list.

Definition load_store (files : tables) (wf : faults) (u m r : string) (d : store_state)
  : store_state :=
  after_insert wf r (ratings_records files)
    (after_insert wf m (movies_records files)
       (after_insert wf u (users_records files) d)).

(** What a load that is not skipped comes to, the counts of the guard
    included: it stops at the first file that is not rectangular, with the
    inserts made until then, and otherwise goes through the three files. *)
Definition load_outcome (u m r : string) (w : world) : result unit :=
  let files := csv_tables w in
  let wf := write_fault w in
  let world_at d t :=
    {| csv_tables := files; write_fault := wf; db := d;
       trace := (trace w ++ guard_probes (db w) u m r ++ t)%list |} in
  let d1 := after_insert wf u (users_records files) (db w) in
  let d2 := after_insert wf m (movies_records files) d1 in
  let e1 := [EReadCsv users_request None users_names] in
  let e2 :=
    (e1 ++ [EInsertMany u (users_records files)]
        ++ warning "Warning: could not insert into users collection: "
                   (insert_error wf u (users_records files))
        ++ [EReadCsv movies_request (Some 24%nat) movies_names])%list in
  let e3 :=
    (e2 ++ [EInsertMany m (movies_records files)]
        ++ warning "Warning: could not insert into movies collection: "
                   (insert_error wf m (movies_records files))
        ++ [EReadCsv ratings_request None ratings_names])%list in
  if negb (forallb (Pandas.well_formed None users_names) (files users_request))
  then Raise (Unsupported "ml-100k/u.user") (world_at (db w) e1)
  else if negb (forallb (Pandas.well_formed (Some 24%nat) movies_names)
                        (files movies_request))
  then Raise (Unsupported "ml-100k/u.item") (world_at d1 e2)
  else if negb (forallb (Pandas.well_formed None ratings_names) (files ratings_request))
  then Raise (Unsupported "ml-100k/u.data") (world_at d2 e3)
  else Ok tt (world_at (load_store files wf u m r (db w)) (load_events files wf u m r)).

(** The store after [$out] replaced collection [out] by [docs]. *)
Definition after_out (out : string) (docs : list doc) (d : store_state) : store_state :=
  fun c => if String.eqb c out then docs else d c.

(** [doc_df[doc_df[group_field] == val]] *)
Definition subset_of (doc_df : list stat_row) (val : string) : list stat_row :=
  filter (fun r => String.eqb (group r) val) doc_df.

(** The store, the faults and the flat files are those of [w]. *)
Definition same_store (w w' : world) : Prop :=
  db w' = db w /\ write_fault w' = write_fault w /\ csv_tables w' = csv_tables w.

Definition no_writes (t : list event) : Prop :=
  forallb (fun e => negb (is_write e)) t = true.

(** What one block of [plot_statistics] can leave in the trace: the query
    alone, or the query and one chart file with a non-empty grid. *)
Definition category_trace (d : store_state) (col html : string) (t : list event) : Prop :=
  t = [EFind col]
  \/ (d col <> [] /\ exists grid, grid <> [] /\ t = [EFind col; EOutputFile html; EShow grid]).

Definition is_read (e : event) : bool :=
  match e with
  | EReadCsv _ _ _ => true
  | _ => false
  end.

(** What a run of the main program logs before the charts when every
    collection is already populated. *)
Definition skip_trace : list event :=
  [ECount "users"; ECount "movies"; ECount "ratings";
   EPrint "Data already exists in MongoDB collections. Skipping data load.";
   ECount "ratings_userinfo_genres";
   EPrint "ratings_userinfo_genres already has data. Skipping join step.";
   ECount "age_genre_rating_stats";
   EPrint "age_genre_rating_stats already has data. Skipping stats aggregation.";
   ECount "gender_genre_rating_stats";
   EPrint "gender_genre_rating_stats already has data. Skipping stats aggregation.";
   ECount "occupation_genre_rating_stats";
   EPrint "occupation_genre_rating_stats already has data. Skipping stats aggregation."].

(** The documents of [from] whose [field] equals [key], as [$lookup]
    selects them. *)
Definition matching (field : string) (key : value) (from : list doc) : list doc :=
  filter (fun f => value_eqb (Mongo.lookup_key field f) key) from.

(** The joined documents one rating gives rise to: one per matching user
    and matching movie. *)
Definition joined_for (d : store_state) (rt : doc) : list doc :=
  flat_map
    (fun u => map (fun m => project_join rt u m)
                  (matching "movie_id" (Mongo.lookup_key "movie_id" rt) (d "movies")))
    (matching "user_id" (Mongo.lookup_key "user_id" rt) (d "users")).

(** The value a projection list gives field [k]: the first entry for [k]
    that has a value. *)
Fixpoint projected (k : string) (l : list (string * option value)) : option value :=
  match l with
  | [] => None
  | (k', o) :: r =>
      if String.eqb k' k
      then match o with Some v => Some v | None => projected k r end
      else projected k r
  end.

Definition joined_fields : list string :=
  ["user_id"; "movie_id"; "rating"; "age"; "gender"; "occupation";
   "genre_0"; "genre_1"; "genre_2"; "genre_3"; "genre_4"; "genre_5"; "genre_6";
   "genre_7"; "genre_8"; "genre_9"; "genre_10"; "genre_11"; "genre_12"; "genre_13";
   "genre_14"; "genre_15"; "genre_16"; "genre_17"; "genre_18"].

(** *** Vocabulary for the statistics *)

(** The source documents that fall in the bucket of group value [k] and
    genre index [i]. *)
Definition members (group_field : string) (k : option value) (i : Z) (src : list doc)
  : list doc :=
  filter (fun d => key_eqb k (doc_get group_field d)
                   && flag_is_one (doc_get (genre_field i) d)) src.

Definition rating_number (r : option value) : list Q :=
  match r with
  | Some v => match numeric v with Some q => [q] | None => [] end
  | None => []
  end.

(** The numeric ratings of some documents, in order. *)
Definition numeric_ratings (ds : list doc) : list Q :=
  flat_map (fun d => rating_number (doc_get "rating" d)) ds.

Definition Qsum (qs : list Q) : Q := fold_left Qplus qs 0%Q.

(** The arithmetic mean. *)
Definition mean (qs : list Q) : Q := (Qsum qs / inject_Z (Z.of_nat (List.length qs)))%Q.

Definition rounded_mean (qs : list Q) : value :=
  match qs with
  | [] => VNull
  | _ :: _ => VDbl (Mongo.round (mean qs) 3)
  end.

(** The entries of an unwound list that a bucket takes. *)
Definition hits (g : group_acc) (l : list flagged) : list flagged :=
  filter (fun x => same_group g (fst (fst x)) (fst (snd x))) l.

Definition entry_numbers (l : list flagged) : list Q :=
  flat_map (fun x => rating_number (snd (fst x))) l.

Definition acc_ok (g : group_acc) (l : list flagged) : Prop :=
  g_count g = Z.of_nat (List.length (hits g l))
  /\ g_sum g = Qsum (entry_numbers (hits g l))
  /\ g_numeric g = Z.of_nat (List.length (entry_numbers (hits g l))).

(** The buckets a [$group] holds after consuming [l]. *)
Definition grouped (l : list flagged) (groups : list group_acc) : Prop :=
  (forall g, In g groups -> acc_ok g l)
  /\ (forall k i, (List.length (filter (fun g => same_group g k i) groups) <= 1)%nat)
  /\ (forall x, In x l ->
                exists g, In g groups /\ same_group g (fst (fst x)) (fst (snd x)) = true)
  /\ (forall g, In g groups ->
                exists x, In x l /\ fst (fst x) = g_key g /\ fst (snd x) = g_index g).

(** The entry the first two stages make of one document and one index. *)
Definition entry_of (kd rd : option value) (fl : Z -> option value) (j : Z) : flagged :=
  ((kd, rd), (j, fl j)).

(** *** Vocabulary for the charts *)

(** The genre label of a row ([""] where the index is out of range). *)
Definition label_of (genre_labels : list string) (r : stat_row) : string :=
  match Py.index genre_labels (genre_index r) with
  | Some g => g
  | None => ""
  end.

Definition labelled (genre_labels : list string) (subset : list stat_row)
  : list (string * stat_row) :=
  map (fun r => (label_of genre_labels r, r)) subset.

(** The two figures of one group value: average rating and count. *)
Definition chart_pair_of (genre_labels : list string) (doc_df : list stat_row)
           (val : string) : list figure :=
  [vbar_figure "group" val "Avg Rating" genre_labels avg_rating
               (labelled genre_labels (subset_of doc_df val));
   vbar_figure "group" val "Count" genre_labels count
               (labelled genre_labels (subset_of doc_df val))].


(** *** What the populate steps are to achieve *)

(** [target] holds the statistics of [src]: one document per bucket, each
    bucket a (group value, genre index) pair that some source document
    falls in, carrying that pair's count and rounded mean rating; and every
    source document has exactly one bucket for each genre it is flagged
    for. *)
Definition stats_written (group_field : string) (genre_count : Z) (src target : list doc)
  : Prop :=
  exists rows,
    target = map (reshape group_field) rows
    /\ (forall row, In row rows ->
          0 <= g_index row < genre_count
          /\ members group_field (g_key row) (g_index row) src <> []
          /\ reshape group_field row =
             present
               [(group_field, g_key row);
                ("genre_index", Some (VInt (g_index row)));
                ("avg_rating",
                 Some (rounded_mean
                         (numeric_ratings
                            (members group_field (g_key row) (g_index row) src))));
                ("count",
                 Some (VInt (Z.of_nat
                               (List.length
                                  (members group_field (g_key row) (g_index row) src)))))])
    /\ (forall d i,
          In d src -> 0 <= i < genre_count ->
          flag_is_one (doc_get (genre_field i) d) = true ->
          List.length (filter (fun row => same_group row (doc_get group_field d) i) rows)
          = 1%nat).

(** [target] holds the join of [ratings] with the users and movies of
    [d]. *)
Definition join_written (d : store_state) (ratings target : list doc) : Prop :=
  target = flat_map (joined_for d) ratings.

(** Between [w] and [w'] the three flat files were read and their records
    handed to [insert_many], in this order. *)
Definition three_files_loaded (w w' : world) : Prop :=
  exists t,
    trace w' = (trace w ++ t)%list
    /\ filter is_read t =
       [EReadCsv {| path := "ml-100k/u.user"; sep := "|"; encoding := None |} None
                 ["user_id"; "age"; "gender"; "occupation"; "zip_code"];
        EReadCsv {| path := "ml-100k/u.item"; sep := "|"; encoding := Some "latin-1" |}
                 (Some 24%nat)
                 (["movie_id"; "title"; "release_date"; "video_release_date"; "IMDb_URL"]
                    ++ map genre_field (Py.range 19))%list;
        EReadCsv {| path := "ml-100k/u.data"; sep := String (ascii_of_nat 9) "";
                    encoding := None |} None
                 ["user_id"; "movie_id"; "rating"; "timestamp"]]
    /\ filter is_write t =
       [EInsertMany "users" (users_records (csv_tables w));
        EInsertMany "movies" (movies_records (csv_tables w));
        EInsertMany "ratings" (ratings_records (csv_tables w))].

(** ** A small data set *)

Module Sample.

Definition movie_row (id : Z) (name : string) (flags : list Z) : list value :=
  ([VInt id; VStr name; VStr "01-Jan-1995"; VNull; VStr "http://us.imdb.com/"]
     ++ map VInt flags ++ [VStr "surplus"])%list.

Definition files : tables :=
  fun req =>
    if String.eqb (path req) "ml-100k/u.user" then
      [[VInt 1; VInt 24; VStr "M"; VStr "technician"; VStr "85711"];
       [VInt 2; VInt 53; VStr "F"; VStr "other"; VStr "94043"];
       [VInt 3; VInt 23; VStr "M"; VStr "writer"; VStr "32067"]]
    else if String.eqb (path req) "ml-100k/u.item" then
      [movie_row 10 "Toy Story (1995)" [0;0;0;1;1;1;0;0;0;0;0;0;0;0;0;0;0;0;0];
       movie_row 11 "GoldenEye (1995)" [0;1;1;0;0;0;0;0;0;0;0;0;0;0;0;0;1;0;0]]
    else if String.eqb (path req) "ml-100k/u.data" then
      [[VInt 1; VInt 10; VInt 5; VInt 874965758];
       [VInt 1; VInt 11; VInt 3; VInt 876893171];
       [VInt 2; VInt 10; VInt 4; VInt 888550871];
       [VInt 3; VInt 10; VInt 4; VInt 889237455];
       [VInt 3; VInt 12; VInt 2; VInt 889237004];
       [VInt 4; VInt 10; VInt 1; VInt 889237269]]
    else [].

Definition no_fault : faults := fun _ => None.

(** An empty store. *)
Definition fresh : world :=
  {| csv_tables := files; write_fault := no_fault; db := fun _ => []; trace := [] |}.

Definition loaded : world :=
  final (populate_data_if_needed "users" "movies" "ratings" fresh).

Definition joined : world :=
  final (populate_user_movie_info_if_needed "ratings_userinfo_genres" "ratings" loaded).

Definition with_stats : world :=
  final (populate_statistics_if_needed
           "ratings_userinfo_genres" "age_genre_rating_stats"
           "gender_genre_rating_stats" "occupation_genre_rating_stats" joined).

(** The world a first complete run leaves. *)
Definition finished : world := final (main fresh).

(** The same store before a second run. *)
Definition before_rerun : world :=
  {| csv_tables := files; write_fault := no_fault; db := db finished; trace := [] |}.

(** Only the users are there. *)
Definition only_users : world :=
  {| csv_tables := files; write_fault := no_fault;
     db := fun c => if String.eqb c "users" then users_records files else [];
     trace := [] |}.

(** Every write fails. *)
Definition failing : world :=
  {| csv_tables := files;
     write_fault := fun _ => Some {| partial := 1; message := "not authorized" |};
     db := fun _ => []; trace := [] |}.

Definition stale_stat : doc :=
  [("age", VInt 30); ("genre_index", VInt 1); ("avg_rating", VDbl 2); ("count", VInt 7)].

(** Joined ratings are there, and so is a statistics document left by an
    earlier run over other data. *)
Definition stale_stats : world :=
  {| csv_tables := files; write_fault := no_fault;
     db := fun c => if String.eqb c "age_genre_rating_stats" then [stale_stat]
                    else db joined c;
     trace := [] |}.

(** Joined ratings are there and the statistics are not, but writing
    them fails. *)
Definition stats_fail : world :=
  {| csv_tables := files;
     write_fault := fun _ => Some {| partial := 0; message := "not authorized" |};
     db := db joined; trace := [] |}.

Definition stale_joined : doc := [("user_id", VInt 99); ("movie_id", VInt 98)].

(** The raw collections are there, and so is a joined document left by an
    earlier run. *)
Definition stale_join : world :=
  {| csv_tables := files; write_fault := no_fault;
     db := fun c => if String.eqb c "ratings_userinfo_genres" then [stale_joined]
                    else db loaded c;
     trace := [] |}.

Definition join_fail : world :=
  {| csv_tables := files;
     write_fault := fun _ => Some {| partial := 0; message := "not authorized" |};
     db := db loaded; trace := [] |}.

Definition rows_of (field : string) (to_group : value -> option string) (col : string)
  : list stat_row :=
  match frame_rows field to_group (db with_stats col) with
  | Some rows => rows
  | None => []
  end.

Definition age_rows : list stat_row := rows_of "age" age_group_of "age_genre_rating_stats".

End Sample.

(** The first joined document of the sample: user 1 rating Toy Story. *)
Definition toy_story_by_user_1 : doc :=
  [("user_id", VInt 1); ("movie_id", VInt 10); ("rating", VInt 5); ("age", VInt 24);
   ("gender", VStr "M"); ("occupation", VStr "technician"); ("genre_0", VInt 0);
   ("genre_1", VInt 0); ("genre_2", VInt 0); ("genre_3", VInt 1); ("genre_4", VInt 1);
   ("genre_5", VInt 1); ("genre_6", VInt 0); ("genre_7", VInt 0); ("genre_8", VInt 0);
   ("genre_9", VInt 0); ("genre_10", VInt 0); ("genre_11", VInt 0);
   ("genre_12", VInt 0); ("genre_13", VInt 0); ("genre_14", VInt 0);
   ("genre_15", VInt 0); ("genre_16", VInt 0); ("genre_17", VInt 0);
   ("genre_18", VInt 0)].

(** ** Vocabulary for the further properties *)

(** Store [d'] keeps every document of [d] in place: each collection of
    [d'] starts with the documents it holds in [d]. *)
Definition extends (d d' : store_state) : Prop :=
  forall c, exists extra, d' c = (d c ++ extra)%list.

(** No two documents of [docs] agree on [field], as [$lookup] compares. *)
Fixpoint distinct_keys (field : string) (docs : list doc) : bool :=
  match docs with
  | [] => true
  | d :: rest =>
      forallb (fun d' => negb (value_eqb (Mongo.lookup_key field d')
                                         (Mongo.lookup_key field d))) rest
      && distinct_keys field rest
  end.

(** The genre indices below [genre_count] whose flag equals 1 in [d]. *)
Definition flagged_indices (genre_count : Z) (d : doc) : list Z :=
  filter (fun i => flag_is_one (doc_get (genre_field i) d)) (Py.range genre_count).

(** The sum of the [count] fields of some buckets. *)
Definition total_count (rows : list group_acc) : Z :=
  fold_right (fun g n => g_count g + n) 0 rows.

(** The decade an age is charted under; ages below 10, negative ones
    included, share decade 0. *)
Definition decade (age : Z) : Z := if age <? 10 then 0 else age / 10.

(** What one statistics build leaves in its target, seen from world [w]:
    the documents already there, or the statistics of the source. *)
Definition built (w : world) (source target field : string) : list doc :=
  if nonempty (db w target) then db w target
  else match write_fault w target with
       | Some _ => db w target
       | None => stats_stages field 19 (db w) (db w source)
       end.

(** No character of [s] is a minus sign. *)
Fixpoint dash_free (s : string) : bool :=
  match s with
  | EmptyString => true
  | String c r => negb (Ascii.eqb c "-") && dash_free r
  end.

(** Ascending in code-point order, neighbour by neighbour. *)
Definition ascending (l : list string) : Prop :=
  Sorted.Sorted (fun x y => String.leb x y = true) l.

(** The statistics documents whose age is charted under group [val]. *)
Definition in_age_group (val : string) (d : doc) : bool :=
  match doc_get "age" d with
  | Some (VInt a) => String.eqb (age_to_group a) val
  | _ => false
  end.

(** ** More small worlds *)

Module Cases.

(** The ratings file has no row. *)
Definition no_ratings_file : world :=
  {| csv_tables := fun req => if String.eqb (path req) "ml-100k/u.data" then []
                              else Sample.files req;
     write_fault := Sample.no_fault; db := fun _ => []; trace := [] |}.

(** The users are stored twice. *)
Definition users_twice : store_state :=
  fun c => if String.eqb c "users"
           then (db Sample.loaded "users" ++ db Sample.loaded "users")%list
           else db Sample.loaded c.

(** One joined document, flagged for no genre. *)
Definition unflagged : world :=
  {| csv_tables := Sample.files; write_fault := Sample.no_fault;
     db := fun c => if String.eqb c "ratings_userinfo_genres"
                    then [[("user_id", VInt 1); ("movie_id", VInt 10); ("rating", VInt 4);
                           ("age", VInt 30); ("genre_0", VInt 0); ("genre_1", VInt 0)]]
                    else [];
     trace := [] |}.

Definition bad_stat : doc :=
  [("age", VInt 30); ("genre_index", VInt 19); ("avg_rating", VDbl 2); ("count", VInt 7)].

(** Every collection is populated, and the age statistics hold a document
    whose genre index is past the last label. *)
Definition bad_index : world :=
  {| csv_tables := Sample.files; write_fault := Sample.no_fault;
     db := fun c => if String.eqb c "age_genre_rating_stats" then [bad_stat]
                    else db Sample.finished c;
     trace := [] |}.

Definition bad_row : stat_row :=
  {| group := "30-39"; genre_index := 19; avg_rating := VDbl 2; count := VInt 7 |}.

End Cases.

(** The order in which the main program starts its steps. *)
Definition step_order : list step :=
  [RawLoad; Join; StatsAge; StatsGender; StatsOccupation; Charts].





(** * Verification *)

Open Scope list_scope.

(** ** Running the monad *)

Lemma bind_run {A B} (m : M A) (k : A -> M B) (w : world) :
  bind m k w = match m w with Ok a w' => k a w' | Raise e w' => Raise e w' end.
Proof. reflexivity. Qed.

Lemma ret_run {A} (a : A) (w : world) : ret a w = Ok a w.
Proof. reflexivity. Qed.

Lemma print_run (s : string) (w : world) : print s w = Ok tt (log (EPrint s) w).
Proof. reflexivity. Qed.

Lemma count_run (c : string) (w : world) :
  Mongo.estimated_document_count c w
  = Ok (Z.of_nat (List.length (db w c))) (log (ECount c) w).
Proof. reflexivity. Qed.

Lemma find_run (c : string) (w : world) :
  Mongo.find c w = Ok (db w c) (log (EFind c) w).
Proof. reflexivity. Qed.

Lemma pos_length {A} (l : list A) : (0 <? Z.of_nat (List.length l)) = nonempty l.
Proof. destruct l; [reflexivity |]. simpl. apply Z.ltb_lt. lia. Qed.

Lemma read_csv_run path sep enc usecols names w :
  Pandas.read_csv path sep enc usecols names w =
  if forallb (Pandas.well_formed usecols names)
             (csv_tables w {| path := path; sep := sep; encoding := enc |})
  then Ok {| Pandas.columns := names;
             Pandas.rows := map (Pandas.select usecols)
                                (csv_tables w {| path := path; sep := sep; encoding := enc |}) |}
          (log (EReadCsv {| path := path; sep := sep; encoding := enc |} usecols names) w)
  else Raise (Unsupported path)
             (log (EReadCsv {| path := path; sep := sep; encoding := enc |} usecols names) w).
Proof. reflexivity. Qed.

Lemma to_dict_records_run names usecols (table : list (list value)) :
  Pandas.to_dict_records
    {| Pandas.columns := names; Pandas.rows := map (Pandas.select usecols) table |}
  = map (fun row => combine names (Pandas.select usecols row)) table.
Proof. unfold Pandas.to_dict_records. simpl. now rewrite map_map. Qed.

(** A caught [insert_many]: the attempt is logged, the store is as
    [after_insert] says, the except clause prints when there was an error. *)
Lemma insert_many_caught (prefix col : string) (docs : list doc) (w : world) :
  try_except (Mongo.insert_many col docs)
             (fun e => print (prefix ++ exn_str e)) w
  = Ok tt {| csv_tables := csv_tables w; write_fault := write_fault w;
             db := after_insert (write_fault w) col docs (db w);
             trace := trace w ++ [EInsertMany col docs]
                        ++ warning prefix (insert_error (write_fault w) col docs) |}.
Proof.
  unfold try_except, Mongo.insert_many, after_insert, insert_error, warning, print, log, store.
  destruct docs as [| d0 docs]; simpl.
  - now rewrite <- app_assoc.
  - destruct (write_fault w col) as [f |]; simpl.
    + now rewrite <- app_assoc.
    + reflexivity.
Qed.

Ltac run :=
  repeat first
    [ rewrite bind_run
    | rewrite count_run
    | rewrite find_run
    | rewrite insert_many_caught
    | rewrite print_run
    | rewrite ret_run
    | rewrite pos_length
    | progress cbn [csv_tables write_fault db trace log store] ].

Lemma movies_names_as_built :
  ["movie_id"; "title"; "release_date"; "video_release_date"; "IMDb_URL"]
    ++ map genre_field (Py.range 19) = movies_names.
Proof. reflexivity. Qed.

Lemma extends_refl d : extends d d.
Proof. intros c. exists []. now rewrite app_nil_r. Qed.

Lemma extends_trans d1 d2 d3 : extends d1 d2 -> extends d2 d3 -> extends d1 d3.
Proof.
  intros H12 H23 c. destruct (H12 c) as [e1 E1]. destruct (H23 c) as [e2 E2].
  exists (e1 ++ e2). now rewrite E2, E1, app_assoc.
Qed.

Lemma after_insert_extends wf col docs d : extends d (after_insert wf col docs d).
Proof.
  intros c. unfold after_insert. destruct docs as [| x docs].
  - exists []. now rewrite app_nil_r.
  - destruct (wf col) as [f |]; destruct (String.eqb_spec c col) as [-> | _];
      first [ now eexists | exists []; now rewrite app_nil_r ].
Qed.

Lemma after_out_extends out docs d : d out = [] -> extends d (after_out out docs d).
Proof.
  intros He c. unfold after_out. destruct (String.eqb_spec c out) as [-> | _].
  - exists docs. now rewrite He.
  - exists []. now rewrite app_nil_r.
Qed.

(** The raw load in closed form. *)
Lemma populate_data_cases (u m r : string) (w : world) :
  populate_data_if_needed u m r w =
  if all_populated (db w) u m r
  then Ok tt {| csv_tables := csv_tables w; write_fault := write_fault w; db := db w;
                trace := trace w ++ [ECount u; ECount m; ECount r;
                   EPrint "Data already exists in MongoDB collections. Skipping data load."] |}
  else load_outcome u m r w.
Proof.
  unfold populate_data_if_needed, all_populated.
  match goal with
  | |- context [bind (Pandas.read_csv ?a ?b ?c ?d ?e) ?k] =>
      set (load := bind (Pandas.read_csv a b c d e) k) in *
  end.
  assert (Hload :
    load {| csv_tables := csv_tables w; write_fault := write_fault w; db := db w;
            trace := trace w ++ guard_probes (db w) u m r |}
    = load_outcome u m r w).
  { subst load. unfold load_outcome. cbv zeta.
    rewrite movies_names_as_built.
    fold users_request movies_request ratings_request users_names ratings_names.
    rewrite bind_run, read_csv_run.
    cbn [csv_tables]. fold users_request.
    destruct (forallb (Pandas.well_formed None users_names) (csv_tables w users_request));
      cbn [negb]; [| unfold log; cbn [csv_tables write_fault db trace];
                     now rewrite <- ?app_assoc].
    run. rewrite read_csv_run. run. fold movies_request.
    destruct (forallb (Pandas.well_formed (Some 24%nat) movies_names)
                      (csv_tables w movies_request));
      cbn [negb].
    2:{ unfold log. cbn [csv_tables write_fault db trace].
        rewrite !to_dict_records_run. cbn [Pandas.select].
        change (map (fun row => combine users_names row) (csv_tables w users_request))
          with (users_records (csv_tables w)).
        now rewrite <- ?app_assoc. }
    run. rewrite read_csv_run. run. fold ratings_request.
    rewrite !to_dict_records_run. cbn [Pandas.select].
    change (map (fun row => combine users_names row) (csv_tables w users_request))
      with (users_records (csv_tables w)).
    change (map (fun row => combine movies_names (firstn 24 row)) (csv_tables w movies_request))
      with (movies_records (csv_tables w)).
    destruct (forallb (Pandas.well_formed None ratings_names)
                      (csv_tables w ratings_request));
      cbn [negb].
    2:{ unfold log. cbn [csv_tables write_fault db trace]. now rewrite <- ?app_assoc. }
    run. rewrite !to_dict_records_run. cbn [Pandas.select].
    change (map (fun row => combine ratings_names row) (csv_tables w ratings_request))
      with (ratings_records (csv_tables w)).
    unfold load_store, load_events, log. cbn [csv_tables write_fault db trace].
    repeat rewrite <- app_assoc. reflexivity. }
  unfold guard_probes in Hload.
  run.
  destruct (nonempty (db w u)); cbn [andb]; run.
  2:{ unfold log. exact Hload. }
  destruct (nonempty (db w m)); cbn [andb]; run.
  2:{ unfold log. cbn [csv_tables write_fault db trace].
      rewrite <- Hload. now rewrite <- ?app_assoc. }
  destruct (nonempty (db w r)); run.
  - unfold log. cbn [csv_tables write_fault db trace]. now rewrite <- ?app_assoc.
  - unfold log. cbn [csv_tables write_fault db trace].
    rewrite <- Hload. now rewrite <- ?app_assoc.
Qed.

Lemma well_shaped_parts files :
  well_shaped files = true ->
  forallb (Pandas.well_formed None users_names) (files users_request) = true
  /\ forallb (Pandas.well_formed (Some 24%nat) movies_names) (files movies_request) = true
  /\ forallb (Pandas.well_formed None ratings_names) (files ratings_request) = true.
Proof.
  unfold well_shaped. intros H. apply andb_prop in H as [H H3].
  apply andb_prop in H as [H1 H2]. auto.
Qed.

Lemma load_outcome_well_shaped u m r w :
  well_shaped (csv_tables w) = true ->
  load_outcome u m r w
  = Ok tt {| csv_tables := csv_tables w; write_fault := write_fault w;
             db := load_store (csv_tables w) (write_fault w) u m r (db w);
             trace := trace w ++ guard_probes (db w) u m r
                        ++ load_events (csv_tables w) (write_fault w) u m r |}.
Proof.
  intros H. destruct (well_shaped_parts _ H) as (H1 & H2 & H3).
  unfold load_outcome. cbv zeta. now rewrite H1, H2, H3.
Qed.

(** On rectangular files the raw load returns. *)
Lemma populate_data_run (u m r : string) (w : world) :
  well_shaped (csv_tables w) = true ->
  populate_data_if_needed u m r w =
  Ok tt
     (if all_populated (db w) u m r
      then {| csv_tables := csv_tables w; write_fault := write_fault w; db := db w;
              trace := trace w ++ [ECount u; ECount m; ECount r;
                 EPrint "Data already exists in MongoDB collections. Skipping data load."] |}
      else {| csv_tables := csv_tables w; write_fault := write_fault w;
              db := load_store (csv_tables w) (write_fault w) u m r (db w);
              trace := trace w ++ guard_probes (db w) u m r
                         ++ load_events (csv_tables w) (write_fault w) u m r |}).
Proof.
  intros H. rewrite populate_data_cases, load_outcome_well_shaped by assumption.
  now destruct (all_populated (db w) u m r).
Qed.

(** A populated store is not loaded, whatever the files hold. *)
Lemma populate_data_skip (u m r : string) (w : world) :
  all_populated (db w) u m r = true ->
  populate_data_if_needed u m r w =
  Ok tt {| csv_tables := csv_tables w; write_fault := write_fault w; db := db w;
           trace := trace w ++ [ECount u; ECount m; ECount r;
              EPrint "Data already exists in MongoDB collections. Skipping data load."] |}.
Proof. intros H. now rewrite populate_data_cases, H. Qed.

Lemma aggregate_run col stages out w :
  Mongo.aggregate col stages out w =
  match write_fault w out with
  | Some f => Raise (PyMongoError (message f)) (log (EAggregate col out) w)
  | None =>
      Ok tt {| csv_tables := csv_tables w; write_fault := write_fault w;
               db := after_out out (stages (db w) (db w col)) (db w);
               trace := trace w ++ [EAggregate col out] |}
  end.
Proof. reflexivity. Qed.

Lemma populate_join_run (c r : string) (w : world) :
  populate_user_movie_info_if_needed c r w =
  Ok tt
     (if nonempty (db w c)
      then {| csv_tables := csv_tables w; write_fault := write_fault w; db := db w;
              trace := trace w ++ [ECount c;
                 EPrint "ratings_userinfo_genres already has data. Skipping join step."] |}
      else
        match write_fault w "ratings_userinfo_genres" with
        | Some f =>
            {| csv_tables := csv_tables w; write_fault := write_fault w; db := db w;
               trace := trace w ++ [ECount c; EAggregate r "ratings_userinfo_genres";
                  EPrint ("Error during aggregation into ratings_userinfo_genres: "
                            ++ message f)] |}
        | None =>
            {| csv_tables := csv_tables w; write_fault := write_fault w;
               db := after_out "ratings_userinfo_genres" (join_stages (db w) (db w r)) (db w);
               trace := trace w ++ [ECount c; EAggregate r "ratings_userinfo_genres";
                  EPrint "ratings_userinfo_genres has been created and populated."] |}
        end).
Proof.
  unfold populate_user_movie_info_if_needed. run.
  destruct (nonempty (db w c)); run.
  - unfold log; cbn [csv_tables write_fault db trace]. now rewrite <- ?app_assoc.
  - unfold try_except. run. rewrite aggregate_run. run.
    destruct (write_fault w "ratings_userinfo_genres") as [f |]; run;
      unfold log; cbn [csv_tables write_fault db trace exn_str]; now rewrite <- ?app_assoc.
Qed.

Lemma build_stats_run (s t g : string) (n : Z) (w : world) :
  build_and_insert_stats s t g n w =
  Ok tt
     (if nonempty (db w t)
      then {| csv_tables := csv_tables w; write_fault := write_fault w; db := db w;
              trace := trace w ++ [ECount t;
                 EPrint (t ++ " already has data. Skipping stats aggregation.")] |}
      else
        match write_fault w t with
        | Some f =>
            {| csv_tables := csv_tables w; write_fault := write_fault w; db := db w;
               trace := trace w ++ [ECount t; EAggregate s t;
                  EPrint ("Error creating stats for " ++ g ++ ": " ++ message f)] |}
        | None =>
            {| csv_tables := csv_tables w; write_fault := write_fault w;
               db := after_out t (stats_stages g n (db w) (db w s)) (db w);
               trace := trace w ++ [ECount t; EAggregate s t;
                  EPrint ("Statistics for " ++ g ++ " inserted into " ++ t ++ ".")] |}
        end).
Proof.
  unfold build_and_insert_stats. run.
  destruct (nonempty (db w t)); run.
  - unfold log; cbn [csv_tables write_fault db trace]. now rewrite <- ?app_assoc.
  - unfold try_except. run. rewrite aggregate_run. run.
    destruct (write_fault w t) as [f |]; run;
      unfold log; cbn [csv_tables write_fault db trace exn_str]; now rewrite <- ?app_assoc.
Qed.

(** ** The chart phase touches nothing but the trace *)

Lemma chart_pair_run df gf labels plots val w :
  chart_pair df gf labels plots val w =
  if negb (String.eqb gf "group") then Raise (KeyError gf) w
  else match subset_of df val with
       | [] => Ok plots w
       | _ :: _ =>
           match with_genre labels (subset_of df val) with
           | None => Raise (IndexError "list index out of range") w
           | Some labelled =>
               Ok (plots ++ [[vbar_figure gf val "Avg Rating" labels avg_rating labelled;
                              vbar_figure gf val "Count" labels count labelled]]) w
           end
       end.
Proof.
  unfold chart_pair, subset_of.
  destruct (negb (String.eqb gf "group")); [reflexivity |].
  destruct (filter _ df); [reflexivity |].
  destruct (with_genre labels _); reflexivity.
Qed.

(** The loop only computes: it ends in the world it started in, and the
    plots it returns extend the ones it was given, by something exactly
    when some group value selects a row. *)
Lemma chart_loop_spec df gf labels vals :
  forall plots w,
    (exists e, chart_loop df gf labels vals plots w = Raise e w)
    \/ (exists extra,
          chart_loop df gf labels vals plots w = Ok (plots ++ extra) w
          /\ (extra <> [] <-> exists val, In val vals /\ subset_of df val <> [])).
Proof.
  induction vals as [| val vals IH]; intros plots w; cbn [chart_loop].
  - right. exists []. rewrite app_nil_r. split; [reflexivity |].
    split; [congruence | intros (v & [] & _)].
  - rewrite bind_run, chart_pair_run.
    destruct (negb (String.eqb gf "group")); [left; eauto |].
    destruct (subset_of df val) as [| r0 sub] eqn:Hsub.
    + destruct (IH plots w) as [[e He] | (extra & He & Hx)]; [left; eauto |].
      right. exists extra. split; [exact He |].
      rewrite Hx. split.
      * intros (v & Hv & Hn). exists v. split; [now right | exact Hn].
      * intros (v & [<- | Hv] & Hn); [congruence | eauto].
    + destruct (with_genre labels (r0 :: sub)) as [labelled |]; [| left; eauto].
      match goal with |- context [chart_loop _ _ _ _ ?p w] =>
        destruct (IH p w) as [[e He] | (extra & He & Hx)] end; [left; eauto |].
      right. eexists (_ :: extra). rewrite He, <- app_assoc. split; [reflexivity |].
      split; [| congruence].
      intros _. exists val. split; [now left | congruence].
Qed.

Lemma make_bokeh_charts_spec df gf vals labels html w :
  (exists e, make_bokeh_charts df gf vals labels html w = Raise e w)
  \/ (make_bokeh_charts df gf vals labels html w = Ok tt w
      /\ forall val, In val vals -> subset_of df val = [])
  \/ (exists grid,
        grid <> []
        /\ make_bokeh_charts df gf vals labels html w
           = Ok tt {| csv_tables := csv_tables w; write_fault := write_fault w; db := db w;
                      trace := trace w ++ [EOutputFile html; EShow grid] |}
        /\ exists val, In val vals /\ subset_of df val <> []).
Proof.
  unfold make_bokeh_charts. rewrite bind_run.
  destruct (chart_loop_spec df gf labels vals [] w) as [[e He] | (extra & He & Hx)].
  - left. exists e. now rewrite He.
  - rewrite He. cbn [app]. destruct extra as [| p extra].
    + right; left. split; [reflexivity |].
      intros val Hv. destruct (subset_of df val) eqn:Hs; [reflexivity |].
      exfalso. apply (proj2 Hx); [| reflexivity]. exists val. split; [exact Hv | congruence].
    + right; right. exists (p :: extra). split; [discriminate |]. split.
      * unfold output_file, show. run. unfold log. cbn [csv_tables write_fault db trace].
        now rewrite <- app_assoc.
      * apply Hx. discriminate.
Qed.

Lemma same_store_trans w1 w2 w3 : same_store w1 w2 -> same_store w2 w3 -> same_store w1 w3.
Proof. unfold same_store. intros (-> & -> & ->) (-> & -> & ->). auto. Qed.

Ltac same_store_now :=
  cbn [final]; unfold same_store; cbn [db write_fault csv_tables log]; auto.

Lemma plot_category_frame col field tg labels html w :
  same_store w (final (plot_category col field tg labels html w))
  /\ exists t, trace (final (plot_category col field tg labels html w)) = trace w ++ t
               /\ category_trace (db w) col html t.
Proof.
  unfold plot_category. run.
  destruct (db w col) as [| d0 docs] eqn:Hcol.
  - run. split; [same_store_now |]. exists [EFind col]. split; [reflexivity | now left].
  - unfold frame. destruct (frame_rows field tg (d0 :: docs)) as [rs |].
    2:{ cbn. split; [same_store_now |]. exists [EFind col]. split; [reflexivity | now left]. }
    run.
    destruct (make_bokeh_charts_spec rs "group" (Py.sorted (Py.unique (map group rs)))
                labels html (log (EFind col) w))
      as [[e He] | [[He _] | (grid & Hg & He & _)]]; rewrite He; cbn [final].
    + split; [same_store_now |]. exists [EFind col]. split; [reflexivity | now left].
    + split; [same_store_now |]. exists [EFind col]. split; [reflexivity | now left].
    + split; [same_store_now |]. exists [EFind col; EOutputFile html; EShow grid].
      cbn [trace log]. split; [now rewrite <- app_assoc |].
      right. split; [congruence |]. exists grid. auto.
Qed.

Lemma final_bind {A B} (m : M A) (k : A -> M B) (w : world) :
  final (bind m k w) = match m w with
                       | Ok a w' => final (k a w')
                       | Raise _ w' => w'
                       end.
Proof. unfold bind. now destruct (m w). Qed.

Lemma plot_statistics_frame a g o labels w :
  same_store w (final (plot_statistics a g o labels w))
  /\ exists t1 t2 t3,
       trace (final (plot_statistics a g o labels w)) = trace w ++ t1 ++ t2 ++ t3
       /\ category_trace (db w) a "age_group_charts.html" t1
       /\ (t2 = [] \/ category_trace (db w) g "gender_charts.html" t2)
       /\ (t3 = [] \/ category_trace (db w) o "occupation_charts.html" t3).
Proof.
  unfold plot_statistics. rewrite final_bind.
  destruct (plot_category_frame a "age" age_group_of labels "age_group_charts.html" w)
    as (S1 & t1 & T1 & C1).
  destruct (plot_category a "age" age_group_of labels "age_group_charts.html" w)
    as [[] w1 | e w1]; cbn [final] in S1, T1.
  2:{ split; [exact S1 |]. exists t1, [], []. rewrite !app_nil_r. auto. }
  rewrite final_bind.
  destruct (plot_category_frame g "gender" gender_of labels "gender_charts.html" w1)
    as (S2 & t2 & T2 & C2).
  assert (D1 : db w1 = db w) by apply S1. rewrite D1 in C2.
  destruct (plot_category g "gender" gender_of labels "gender_charts.html" w1)
    as [[] w2 | e w2]; cbn [final] in S2, T2.
  2:{ split; [eapply same_store_trans; eauto |]. exists t1, t2, [].
      rewrite T2, T1, app_nil_r, <- app_assoc. auto. }
  destruct (plot_category_frame o "occupation" occupation_of labels "occupation_charts.html" w2)
    as (S3 & t3 & T3 & C3).
  assert (D2 : db w2 = db w) by (rewrite <- D1; apply S2). rewrite D2 in C3.
  split; [eapply same_store_trans; [| exact S3]; eapply same_store_trans; eauto |].
  exists t1, t2, t3. rewrite T3, T2, T1, <- !app_assoc. auto.
Qed.

Lemma category_trace_no_writes d col html t : category_trace d col html t -> no_writes t.
Proof. intros [-> | (_ & grid & _ & ->)]; reflexivity. Qed.

Lemma category_trace_file d col html t f :
  category_trace d col html t -> In (EOutputFile f) t -> f = html /\ d col <> [].
Proof.
  intros [-> | (Hd & grid & _ & ->)] Hin; cbn in Hin.
  - destruct Hin as [H | []]; discriminate.
  - destruct Hin as [H | [H | [H | []]]]; try discriminate. now inversion H.
Qed.

Lemma no_writes_app t1 t2 : no_writes t1 -> no_writes t2 -> no_writes (t1 ++ t2).
Proof. unfold no_writes. intros H1 H2. now rewrite forallb_app, H1, H2. Qed.

(** Claim C10.  [plot_statistics] leaves the store unchanged and performs
    no write; it writes no chart file for a category whose statistics
    collection is empty; [make_bokeh_charts] calls [output_file] and [show]
    only when some group value selects a row, and not at all when none
    does. *)
Theorem charts_never_write (a g o : string) (labels : list string) (w : world) :
  db (final (plot_statistics a g o labels w)) = db w
  /\ (exists t,
        trace (final (plot_statistics a g o labels w)) = trace w ++ t
        /\ no_writes t
        /\ (db w a = [] -> ~ In (EOutputFile "age_group_charts.html") t)
        /\ (db w g = [] -> ~ In (EOutputFile "gender_charts.html") t)
        /\ (db w o = [] -> ~ In (EOutputFile "occupation_charts.html") t))
  /\ (forall df gf vals html,
        db (final (make_bokeh_charts df gf vals labels html w)) = db w
        /\ exists t,
             trace (final (make_bokeh_charts df gf vals labels html w)) = trace w ++ t
             /\ ((forall val, In val vals -> subset_of df val = []) -> t = [])
             /\ (t <> [] -> exists val, In val vals /\ subset_of df val <> [])
             /\ (forall e, In e t -> e = EOutputFile html \/ exists grid, e = EShow grid)).
Proof.
  destruct (plot_statistics_frame a g o labels w) as (S & t1 & t2 & t3 & T & C1 & C2 & C3).
  split; [apply S |]. split.
  - exists (t1 ++ t2 ++ t3). split; [exact T |].
    assert (N2 : no_writes t2)
      by (destruct C2 as [-> | C2]; [reflexivity | eapply category_trace_no_writes; eauto]).
    assert (N3 : no_writes t3)
      by (destruct C3 as [-> | C3]; [reflexivity | eapply category_trace_no_writes; eauto]).
    split; [repeat apply no_writes_app; eauto using category_trace_no_writes |].
    assert (F : forall f, In (EOutputFile f) (t1 ++ t2 ++ t3) ->
                (f = "age_group_charts.html" /\ db w a <> [])
                \/ (f = "gender_charts.html" /\ db w g <> [])
                \/ (f = "occupation_charts.html" /\ db w o <> [])).
    { intros f Hin. rewrite !in_app_iff in Hin. destruct Hin as [H | [H | H]].
      - left. eapply category_trace_file; eauto.
      - destruct C2 as [-> | C2]; [destruct H |]. right; left.
        eapply category_trace_file; eauto.
      - destruct C3 as [-> | C3]; [destruct H |]. right; right.
        eapply category_trace_file; eauto. }
    repeat split; intros He Hin; apply F in Hin;
      destruct Hin as [[E D] | [[E D] | [E D]]]; try discriminate E; auto.
  - intros df gf vals html.
    destruct (make_bokeh_charts_spec df gf vals labels html w)
      as [[e He] | [[He Hn] | (grid & Hg & He & Hv)]]; rewrite He; cbn [final db trace].
    + split; [reflexivity |]. exists []. rewrite app_nil_r.
      repeat split; try congruence. intros e0 [].
    + split; [reflexivity |]. exists []. rewrite app_nil_r.
      repeat split; try congruence. intros e0 [].
    + split; [reflexivity |]. exists [EOutputFile html; EShow grid].
      split; [reflexivity |]. split; [| split].
      * intros Hall. destruct Hv as (val & Hin & Hne). now apply Hall in Hin.
      * intros _. exact Hv.
      * intros e0 [<- | [<- | []]]; [now left | right; eauto].
Qed.

(** ** Skipping what is already there *)

Lemma nonempty_true {A} (l : list A) : l <> [] -> nonempty l = true.
Proof. destruct l; [congruence | reflexivity]. Qed.

Lemma main_when_populated (w : world) :
  populated w ->
  main w =
  (plot_statistics "age_genre_rating_stats" "gender_genre_rating_stats"
                   "occupation_genre_rating_stats" genre_labels ;;
   print "All tasks completed successfully.")
    {| csv_tables := csv_tables w; write_fault := write_fault w; db := db w;
       trace := trace w ++ skip_trace |}.
Proof.
  intros P. unfold main, populate_statistics_if_needed.
  rewrite bind_run, populate_data_skip
    by (unfold all_populated; rewrite !nonempty_true by (apply P; cbn; tauto); reflexivity).
  rewrite bind_run, populate_join_run. cbn [db].
  rewrite !nonempty_true by (apply P; cbn; tauto).
  rewrite bind_run, bind_run, build_stats_run. cbn [db].
  rewrite !nonempty_true by (apply P; cbn; tauto).
  rewrite bind_run, build_stats_run. cbn [db].
  rewrite !nonempty_true by (apply P; cbn; tauto).
  rewrite build_stats_run. cbn [db].
  rewrite !nonempty_true by (apply P; cbn; tauto).
  cbn [csv_tables write_fault db trace]. rewrite <- !app_assoc. reflexivity.
Qed.


(** ** The raw load *)

Lemma after_insert_same wf col docs d :
  wf col = None -> after_insert wf col docs d col = d col ++ docs.
Proof.
  intros H. unfold after_insert. destruct docs; [now rewrite app_nil_r |].
  now rewrite H, String.eqb_refl.
Qed.

Lemma after_insert_other wf col docs d c :
  c <> col -> after_insert wf col docs d c = d c.
Proof.
  intros H. apply String.eqb_neq in H. unfold after_insert.
  destruct docs; [reflexivity |]. destruct (wf col); now rewrite H.
Qed.

Lemma filter_warning (p : event -> bool) prefix err :
  (forall s, p (EPrint s) = false) -> filter p (warning prefix err) = [].
Proof. intros H. destruct err; cbn; [now rewrite H | reflexivity]. Qed.

Lemma filter_guard_probes (p : event -> bool) d u m r :
  (forall c, p (ECount c) = false) -> filter p (guard_probes d u m r) = [].
Proof.
  intros H. unfold guard_probes.
  destruct (nonempty (d u)), (nonempty (d m)); cbn; now rewrite ?H.
Qed.

Lemma reads_of_load files wf d u m r :
  filter is_read (guard_probes d u m r ++ load_events files wf u m r)
  = [EReadCsv users_request None users_names;
     EReadCsv movies_request (Some 24%nat) movies_names;
     EReadCsv ratings_request None ratings_names].
Proof.
  unfold load_events. rewrite !filter_app, filter_guard_probes, !filter_warning by reflexivity.
  reflexivity.
Qed.

Lemma writes_of_load files wf d u m r :
  filter is_write (guard_probes d u m r ++ load_events files wf u m r)
  = [EInsertMany u (users_records files);
     EInsertMany m (movies_records files);
     EInsertMany r (ratings_records files)].
Proof.
  unfold load_events. rewrite !filter_app, filter_guard_probes, !filter_warning by reflexivity.
  reflexivity.
Qed.

Lemma load_store_main files wf d :
  (wf "users" = None ->
   load_store files wf "users" "movies" "ratings" d "users" = d "users" ++ users_records files)
  /\ (wf "movies" = None ->
      load_store files wf "users" "movies" "ratings" d "movies"
      = d "movies" ++ movies_records files)
  /\ (wf "ratings" = None ->
      load_store files wf "users" "movies" "ratings" d "ratings"
      = d "ratings" ++ ratings_records files)
  /\ (forall c, c <> "users" -> c <> "movies" -> c <> "ratings" ->
                load_store files wf "users" "movies" "ratings" d c = d c).
Proof.
  unfold load_store. repeat split.
  - intros H. rewrite !after_insert_other by discriminate. now apply after_insert_same.
  - intros H. rewrite after_insert_other by discriminate.
    rewrite after_insert_same by assumption. now rewrite after_insert_other by discriminate.
  - intros H. rewrite after_insert_same by assumption.
    now rewrite !after_insert_other by discriminate.
  - intros c Hu Hm Hr. now rewrite !after_insert_other by assumption.
Qed.

(** Claim C4.  Whatever [insert_many] or [aggregate] raises inside
    [populate_data_if_needed], [populate_user_movie_info_if_needed] or
    [build_and_insert_stats], the function returns normally and the except
    clause prints its message.  In [populate_data_if_needed], on flat files
    that are rectangular (so that [read_csv], which is outside the try
    blocks, returns), a failed insert does not stop the later loads: all
    three files are read and handed to [insert_many], and
    "Data population complete." is printed last. *)
Theorem write_errors_are_caught (w : world) :
  (forall u m r,
      well_shaped (csv_tables w) = true ->
      exists w',
        populate_data_if_needed u m r w = Ok tt w'
        /\ (all_populated (db w) u m r = false ->
            trace w' =
            trace w ++ guard_probes (db w) u m r
              ++ [EReadCsv users_request None users_names;
                  EInsertMany u (users_records (csv_tables w))]
              ++ warning "Warning: could not insert into users collection: "
                         (insert_error (write_fault w) u (users_records (csv_tables w)))
              ++ [EReadCsv movies_request (Some 24%nat) movies_names;
                  EInsertMany m (movies_records (csv_tables w))]
              ++ warning "Warning: could not insert into movies collection: "
                         (insert_error (write_fault w) m (movies_records (csv_tables w)))
              ++ [EReadCsv ratings_request None ratings_names;
                  EInsertMany r (ratings_records (csv_tables w))]
              ++ warning "Warning: could not insert into ratings collection: "
                         (insert_error (write_fault w) r (ratings_records (csv_tables w)))
              ++ [EPrint "Data population complete."]))
  /\ (forall c r,
        exists w',
          populate_user_movie_info_if_needed c r w = Ok tt w'
          /\ forall f,
               db w c = [] -> write_fault w "ratings_userinfo_genres" = Some f ->
               db w' = db w
               /\ trace w' =
                  trace w ++ [ECount c; EAggregate r "ratings_userinfo_genres";
                              EPrint ("Error during aggregation into ratings_userinfo_genres: "
                                        ++ message f)])
  /\ (forall s t g n,
        exists w',
          build_and_insert_stats s t g n w = Ok tt w'
          /\ forall f,
               db w t = [] -> write_fault w t = Some f ->
               db w' = db w
               /\ trace w' =
                  trace w ++ [ECount t; EAggregate s t;
                              EPrint ("Error creating stats for " ++ g ++ ": " ++ message f)]).
Proof.
  repeat split.
  - intros u m r Hs. eexists. split; [now apply populate_data_run |].
    intros ->. reflexivity.
  - intros c r. eexists. split; [apply populate_join_run |].
    intros f Hc Hf. rewrite Hc, Hf. cbn [nonempty db trace]. auto.
  - intros s t g n. eexists. split; [apply build_stats_run |].
    intros f Ht Hf. rewrite Ht, Hf. cbn [nonempty db trace]. auto.
Qed.

Lemma map_fst_combine {A B} (names : list A) (row : list B) :
  (List.length names <= List.length row)%nat -> map fst (combine names row) = names.
Proof.
  revert row. induction names as [| n names IH]; intros [| c row] H; cbn in *;
    [reflexivity | reflexivity | lia | f_equal; apply IH; lia].
Qed.

(** Claim C5, as amended.  Unless users, movies and ratings are all
    already non-empty, [populate_data_if_needed], given flat files that are
    rectangular (five cells a row in u.user, at least 24 in u.item, four in
    u.data), reads exactly three flat files: ml-100k/u.user (separator |,
    names user_id, age, gender, occupation, zip_code), ml-100k/u.item
    (separator |, latin-1, first 24 columns, names movie_id, title,
    release_date, video_release_date, IMDb_URL, genre_0..genre_18) and
    ml-100k/u.data (tab-separated, names user_id, movie_id, rating,
    timestamp), and hands one document per row to [insert_many] on users,
    movies and ratings respectively, its fields exactly the names, in
    order; each insert that does not fail appends those documents to its
    collection. *)
Theorem raw_load_reads_three_files (w : world) :
  well_shaped (csv_tables w) = true ->
  all_populated (db w) "users" "movies" "ratings" = false ->
  exists w',
    populate_data_if_needed "users" "movies" "ratings" w = Ok tt w'
    /\ three_files_loaded w w'
    /\ users_records (csv_tables w)
       = map (combine ["user_id"; "age"; "gender"; "occupation"; "zip_code"])
             (csv_tables w users_request)
    /\ movies_records (csv_tables w)
       = map (fun row => combine movies_names (firstn 24 row)) (csv_tables w movies_request)
    /\ ratings_records (csv_tables w)
       = map (combine ["user_id"; "movie_id"; "rating"; "timestamp"])
             (csv_tables w ratings_request)
    /\ List.length (users_records (csv_tables w))
       = List.length (csv_tables w users_request)
    /\ List.length (movies_records (csv_tables w))
       = List.length (csv_tables w movies_request)
    /\ List.length (ratings_records (csv_tables w))
       = List.length (csv_tables w ratings_request)
    /\ (forall d, In d (movies_records (csv_tables w)) -> (List.length d <= 24)%nat)
    /\ (write_fault w "users" = None ->
        db w' "users" = db w "users" ++ users_records (csv_tables w))
    /\ (write_fault w "movies" = None ->
        db w' "movies" = db w "movies" ++ movies_records (csv_tables w))
    /\ (write_fault w "ratings" = None ->
        db w' "ratings" = db w "ratings" ++ ratings_records (csv_tables w))
    /\ (forall c, c <> "users" -> c <> "movies" -> c <> "ratings" -> db w' c = db w c)
    /\ (forall d, In d (users_records (csv_tables w)) -> map fst d = users_names)
    /\ (forall d, In d (movies_records (csv_tables w)) -> map fst d = movies_names)
    /\ (forall d, In d (ratings_records (csv_tables w)) -> map fst d = ratings_names).
Proof.
  intros Hs Hnot. eexists. rewrite populate_data_run, Hnot by assumption.
  split; [reflexivity |]. split.
  { eexists. cbn [trace]. split; [reflexivity |].
    split; [apply reads_of_load | apply writes_of_load]. }
  do 3 (split; [reflexivity |]). cbn [db].
  unfold users_records, movies_records, ratings_records. rewrite !length_map.
  do 3 (split; [reflexivity |]).
  split.
  { intros d Hd. apply in_map_iff in Hd. destruct Hd as (row & <- & _).
    rewrite length_combine. apply Nat.le_min_l. }
  destruct (load_store_main (csv_tables w) (write_fault w) (db w)) as (Lu & Lm & Lr & Lo).
  do 4 (split; [assumption |]).
  destruct (well_shaped_parts _ Hs) as (Su & Sm & Sr).
  rewrite forallb_forall in Su, Sm, Sr.
  split; [| split]; intros d Hd; apply in_map_iff in Hd; destruct Hd as (row & <- & Hrow);
    apply map_fst_combine.
  - specialize (Su row Hrow). cbn in Su. apply Nat.eqb_eq in Su. now rewrite Su.
  - specialize (Sm row Hrow). cbn [Pandas.well_formed] in Sm. apply Nat.leb_le in Sm.
    rewrite length_firstn. cbn [movies_names List.length]. lia.
  - specialize (Sr row Hrow). cbn in Sr. apply Nat.eqb_eq in Sr. now rewrite Sr.
Qed.

(** Claim C8.  If at least one but not all of users, movies and ratings
    hold documents, [populate_data_if_needed] does not skip: given flat
    files that are rectangular, it reads all three files and hands every
    row to [insert_many] again, so that, where the inserts succeed, every
    collection, the non-empty ones included, receives all its rows once
    more. *)
Theorem partial_population_reloads (w : world) :
  well_shaped (csv_tables w) = true ->
  (db w "users" <> [] \/ db w "movies" <> [] \/ db w "ratings" <> []) ->
  (db w "users" = [] \/ db w "movies" = [] \/ db w "ratings" = []) ->
  exists w' t,
    populate_data_if_needed "users" "movies" "ratings" w = Ok tt w'
    /\ trace w' = trace w ++ t
    /\ ~ In (EPrint "Data already exists in MongoDB collections. Skipping data load.") t
    /\ filter is_read t =
       [EReadCsv users_request None users_names;
        EReadCsv movies_request (Some 24%nat) movies_names;
        EReadCsv ratings_request None ratings_names]
    /\ filter is_write t =
       [EInsertMany "users" (users_records (csv_tables w));
        EInsertMany "movies" (movies_records (csv_tables w));
        EInsertMany "ratings" (ratings_records (csv_tables w))]
    /\ (write_fault w "users" = None -> write_fault w "movies" = None ->
        write_fault w "ratings" = None ->
        db w' "users" = db w "users" ++ users_records (csv_tables w)
        /\ db w' "movies" = db w "movies" ++ movies_records (csv_tables w)
        /\ db w' "ratings" = db w "ratings" ++ ratings_records (csv_tables w)
        /\ exists c old,
             In (c, old) [("users", users_records (csv_tables w));
                          ("movies", movies_records (csv_tables w));
                          ("ratings", ratings_records (csv_tables w))]
             /\ db w c <> [] /\ db w' c = db w c ++ old).
Proof.
  intros Hs Hsome Hnot.
  assert (Hall : all_populated (db w) "users" "movies" "ratings" = false).
  { unfold all_populated. destruct Hnot as [-> | [-> | ->]]; cbn;
      rewrite ?andb_false_r; reflexivity. }
  eexists. eexists. rewrite populate_data_run, Hall by assumption.
  split; [reflexivity |]. cbn [trace db]. split; [reflexivity |].
  split.
  { unfold guard_probes, load_events, warning.
    destruct (nonempty (db w "users")), (nonempty (db w "movies"));
      destruct (insert_error _ "users" _), (insert_error _ "movies" _),
        (insert_error _ "ratings" _);
      cbn; intuition discriminate. }
  split; [apply reads_of_load |]. split; [apply writes_of_load |].
  intros Fu Fm Fr.
  destruct (load_store_main (csv_tables w) (write_fault w) (db w)) as (Lu & Lm & Lr & _).
  specialize (Lu Fu). specialize (Lm Fm). specialize (Lr Fr).
  repeat (split; [assumption |]).
  destruct Hsome as [H | [H | H]].
  - exists "users", (users_records (csv_tables w)). cbn. auto.
  - exists "movies", (movies_records (csv_tables w)). cbn. auto.
  - exists "ratings", (ratings_records (csv_tables w)). cbn. auto 6.
Qed.

(** ** The order of the steps *)

Lemma steps_of_app t1 t2 : steps_of (t1 ++ t2) = steps_of t1 ++ steps_of t2.
Proof.
  induction t1 as [| e t1 IH]; [reflexivity |]. cbn.
  destruct (entry_step e); cbn; now rewrite IH.
Qed.

Lemma steps_of_warning prefix err : steps_of (warning prefix err) = [].
Proof. now destruct err. Qed.

Lemma raw_load_step (w : world) :
  all_populated (db w) "users" "movies" "ratings" = true
  \/ well_shaped (csv_tables w) = true ->
  exists w' t, populate_data_if_needed "users" "movies" "ratings" w = Ok tt w'
               /\ trace w' = trace w ++ t /\ steps_of t = [RawLoad].
Proof.
  intros H. rewrite populate_data_cases.
  destruct (all_populated (db w) "users" "movies" "ratings") eqn:Ha.
  - eexists. eexists. split; [reflexivity |]. split; reflexivity.
  - destruct H as [H | H]; [discriminate |].
    rewrite load_outcome_well_shaped by assumption.
    eexists. eexists. split; [reflexivity |]. cbn [trace].
    split; [reflexivity |]. unfold guard_probes, load_events.
    rewrite !steps_of_app, !steps_of_warning.
    destruct (nonempty (db w "users")), (nonempty (db w "movies")); reflexivity.
Qed.

(** Whatever the files hold, the raw load is one step, and it only adds to
    the store. *)
Lemma raw_load_any (w : world) :
  exists t,
    trace (final (populate_data_if_needed "users" "movies" "ratings" w)) = trace w ++ t
    /\ steps_of t = [RawLoad]
    /\ extends (db w) (db (final (populate_data_if_needed "users" "movies" "ratings" w))).
Proof.
  rewrite populate_data_cases.
  destruct (all_populated (db w) "users" "movies" "ratings") eqn:Ha.
  - eexists. split; [reflexivity |]. split; [reflexivity | apply extends_refl].
  - unfold load_outcome. cbv zeta.
    destruct (forallb _ (csv_tables w users_request)); cbn [negb];
      [destruct (forallb _ (csv_tables w movies_request)); cbn [negb];
       [destruct (forallb _ (csv_tables w ratings_request)); cbn [negb] | ] | ];
      cbn [final trace db]; eexists; (split; [reflexivity |]); split.
    all: try (unfold guard_probes, load_events;
              rewrite ?steps_of_app, ?steps_of_warning;
              destruct (nonempty (db w "users")), (nonempty (db w "movies")); reflexivity).
    + unfold load_store. eauto using extends_trans, after_insert_extends.
    + eauto using extends_trans, after_insert_extends.
    + apply after_insert_extends.
    + apply extends_refl.
Qed.

Lemma join_step (w : world) :
  exists w' t,
    populate_user_movie_info_if_needed "ratings_userinfo_genres" "ratings" w = Ok tt w'
    /\ trace w' = trace w ++ t /\ steps_of t = [Join].
Proof.
  rewrite populate_join_run.
  destruct (nonempty (db w "ratings_userinfo_genres"));
    [| destruct (write_fault w "ratings_userinfo_genres")];
    eexists; eexists; (split; [reflexivity |]); cbn [trace]; split; reflexivity.
Qed.

Lemma stats_step (s t g : string) (n : Z) (st : step) (w : world) :
  entry_step (ECount t) = Some st ->
  exists w' tr,
    build_and_insert_stats s t g n w = Ok tt w'
    /\ trace w' = trace w ++ tr /\ steps_of tr = [st].
Proof.
  intros Hst. rewrite build_stats_run.
  destruct (nonempty (db w t)); [| destruct (write_fault w t)];
    eexists; eexists; (split; [reflexivity |]); cbn [trace];
    (split; [reflexivity |]); cbn [steps_of]; now rewrite Hst.
Qed.

Lemma category_trace_steps d col html t :
  category_trace d col html t -> steps_of t = steps_of [EFind col].
Proof. intros [-> | (_ & grid & _ & ->)]; cbn; destruct (String.eqb col _); reflexivity. Qed.

Lemma charts_step (labels : list string) (w : world) :
  exists t,
    trace (final (plot_statistics "age_genre_rating_stats" "gender_genre_rating_stats"
                                  "occupation_genre_rating_stats" labels w))
    = trace w ++ t
    /\ steps_of t = [Charts].
Proof.
  destruct (plot_statistics_frame "age_genre_rating_stats" "gender_genre_rating_stats"
              "occupation_genre_rating_stats" labels w)
    as (_ & t1 & t2 & t3 & T & C1 & C2 & C3).
  exists (t1 ++ t2 ++ t3). split; [exact T |].
  rewrite !steps_of_app, (category_trace_steps _ _ _ _ C1).
  destruct C2 as [-> | C2], C3 as [-> | C3];
    rewrite ?(category_trace_steps _ _ _ _ C2), ?(category_trace_steps _ _ _ _ C3);
    reflexivity.
Qed.

Lemma steps_after_load (w w1 : world) (t1 : list event) :
  populate_data_if_needed "users" "movies" "ratings" w = Ok tt w1 ->
  trace w1 = trace w ++ t1 -> steps_of t1 = [RawLoad] ->
  steps_of (trace (final (main w))) = steps_of (trace w) ++ step_order
  /\ exists w2 w3 w4 w5,
       populate_user_movie_info_if_needed "ratings_userinfo_genres" "ratings" w1 = Ok tt w2
       /\ build_and_insert_stats "ratings_userinfo_genres" "age_genre_rating_stats"
                                 "age" 19 w2 = Ok tt w3
       /\ build_and_insert_stats "ratings_userinfo_genres" "gender_genre_rating_stats"
                                 "gender" 19 w3 = Ok tt w4
       /\ build_and_insert_stats "ratings_userinfo_genres" "occupation_genre_rating_stats"
                                 "occupation" 19 w4 = Ok tt w5
       /\ main w =
          (plot_statistics "age_genre_rating_stats" "gender_genre_rating_stats"
                           "occupation_genre_rating_stats" genre_labels ;;
           print "All tasks completed successfully.") w5.
Proof.
  intros R1 T1 S1.
  destruct (join_step w1) as (w2 & t2 & R2 & T2 & S2).
  destruct (stats_step "ratings_userinfo_genres" "age_genre_rating_stats" "age" 19
              StatsAge w2 eq_refl) as (w3 & t3 & R3 & T3 & S3).
  destruct (stats_step "ratings_userinfo_genres" "gender_genre_rating_stats" "gender" 19
              StatsGender w3 eq_refl) as (w4 & t4 & R4 & T4 & S4).
  destruct (stats_step "ratings_userinfo_genres" "occupation_genre_rating_stats"
              "occupation" 19 StatsOccupation w4 eq_refl) as (w5 & t5 & R5 & T5 & S5).
  assert (Hmain : main w =
          (plot_statistics "age_genre_rating_stats" "gender_genre_rating_stats"
                           "occupation_genre_rating_stats" genre_labels ;;
           print "All tasks completed successfully.") w5).
  { unfold main, populate_statistics_if_needed.
    rewrite bind_run, R1, bind_run, R2, bind_run, bind_run, R3, bind_run, R4, R5.
    reflexivity. }
  split.
  2:{ exists w2, w3, w4, w5. auto 10. }
  rewrite Hmain, final_bind.
  destruct (charts_step genre_labels w5) as (t6 & T6 & S6).
  destruct (plot_statistics _ _ _ genre_labels w5) as [[] w6 | e w6];
    rewrite ?print_run; cbn [final trace log] in *;
    rewrite T6, T5, T4, T3, T2, T1, !steps_of_app, S1, S2, S3, S4, S5, S6;
    cbn; now rewrite <- ?app_assoc, ?app_nil_r.
Qed.

(** Claim C6.  The main program starts its steps in this order, none of
    them twice: raw load, join, statistics for age, for gender, for
    occupation, charts.  Whatever the world, the steps it starts are an
    initial part of that list; when the raw collections are populated or the
    flat files are rectangular, so that the raw load returns, it starts all
    six, each in the world its predecessor returned. *)
Theorem main_runs_steps_in_order (w : world) :
  (exists n,
      (1 <= n)%nat
      /\ steps_of (trace (final (main w))) = steps_of (trace w) ++ firstn n step_order)
  /\ (all_populated (db w) "users" "movies" "ratings" = true
      \/ well_shaped (csv_tables w) = true ->
      steps_of (trace (final (main w)))
      = steps_of (trace w)
          ++ [RawLoad; Join; StatsAge; StatsGender; StatsOccupation; Charts]
      /\ exists w1 w2 w3 w4 w5,
           populate_data_if_needed "users" "movies" "ratings" w = Ok tt w1
           /\ populate_user_movie_info_if_needed "ratings_userinfo_genres" "ratings" w1
              = Ok tt w2
           /\ build_and_insert_stats "ratings_userinfo_genres" "age_genre_rating_stats"
                                     "age" 19 w2 = Ok tt w3
           /\ build_and_insert_stats "ratings_userinfo_genres" "gender_genre_rating_stats"
                                     "gender" 19 w3 = Ok tt w4
           /\ build_and_insert_stats "ratings_userinfo_genres"
                                     "occupation_genre_rating_stats" "occupation" 19 w4
              = Ok tt w5
           /\ main w =
              (plot_statistics "age_genre_rating_stats" "gender_genre_rating_stats"
                               "occupation_genre_rating_stats" genre_labels ;;
               print "All tasks completed successfully.") w5).
Proof.
  split.
  - destruct (raw_load_any w) as (t1 & T1 & S1 & _).
    destruct (populate_data_if_needed "users" "movies" "ratings" w) as [[] w1 | e w1] eqn:R1;
      cbn [final] in T1.
    + exists 6%nat. split; [lia |]. now apply (steps_after_load w w1 t1).
    + exists 1%nat. split; [lia |]. unfold main. rewrite bind_run, R1. cbn [final].
      rewrite T1, steps_of_app, S1. reflexivity.
  - intros H. destruct (raw_load_step w H) as (w1 & t1 & R1 & T1 & S1).
    destruct (steps_after_load w w1 t1 R1 T1 S1) as (Hs & w2 & w3 & w4 & w5 & Hr).
    split; [exact Hs |]. exists w1, w2, w3, w4, w5. tauto.
Qed.

(** ** The join *)

Lemma doc_get_present k l : doc_get k (present l) = projected k l.
Proof.
  induction l as [| [k' [v |]] l IH]; cbn; [reflexivity | |].
  - destruct (String.eqb k' k); [reflexivity | exact IH].
  - rewrite IH. now destruct (String.eqb k' k).
Qed.

Lemma projected_in k l v : projected k l = Some v -> In k (map fst l).
Proof.
  induction l as [| [k' o] l IH]; cbn; [discriminate |].
  destruct (String.eqb_spec k' k) as [-> | _]; [auto |]. auto.
Qed.

Lemma unwind_cons {A B} (a : A) (bs : list B) l :
  Mongo.unwind ((a, bs) :: l) = map (pair a) bs ++ Mongo.unwind l.
Proof. reflexivity. Qed.

Lemma unwind_app {A B} (l1 l2 : list (A * list B)) :
  Mongo.unwind (l1 ++ l2) = Mongo.unwind l1 ++ Mongo.unwind l2.
Proof. unfold Mongo.unwind. apply flat_map_app. Qed.

Lemma join_stages_flat (d : store_state) (rs : list doc) :
  join_stages d rs = flat_map (joined_for d) rs.
Proof.
  unfold join_stages.
  induction rs as [| rt rs IH]; [reflexivity |].
  cbn [Mongo.lookup map flat_map]. rewrite unwind_cons.
  unfold Mongo.lookup at 1. rewrite map_app, unwind_app, map_app.
  unfold Mongo.lookup in IH. rewrite IH. f_equal.
  unfold joined_for, matching.
  induction (filter _ (d "users")) as [| u us IHu]; [reflexivity |].
  cbn [map flat_map]. rewrite unwind_cons, map_app, IHu. f_equal.
  cbn [fst snd]. now rewrite map_map.
Qed.

Ltac field_of_present :=
  cbn; match goal with |- match ?x with _ => _ end = _ => now destruct x end.

Lemma project_join_explicit rt u m :
  project_join rt u m =
  present
    [("user_id", doc_get "user_id" rt); ("movie_id", doc_get "movie_id" rt);
     ("rating", doc_get "rating" rt); ("age", doc_get "age" u);
     ("gender", doc_get "gender" u); ("occupation", doc_get "occupation" u);
     ("genre_0", doc_get "genre_0" m); ("genre_1", doc_get "genre_1" m);
     ("genre_2", doc_get "genre_2" m); ("genre_3", doc_get "genre_3" m);
     ("genre_4", doc_get "genre_4" m); ("genre_5", doc_get "genre_5" m);
     ("genre_6", doc_get "genre_6" m); ("genre_7", doc_get "genre_7" m);
     ("genre_8", doc_get "genre_8" m); ("genre_9", doc_get "genre_9" m);
     ("genre_10", doc_get "genre_10" m); ("genre_11", doc_get "genre_11" m);
     ("genre_12", doc_get "genre_12" m); ("genre_13", doc_get "genre_13" m);
     ("genre_14", doc_get "genre_14" m); ("genre_15", doc_get "genre_15" m);
     ("genre_16", doc_get "genre_16" m); ("genre_17", doc_get "genre_17" m);
     ("genre_18", doc_get "genre_18" m)].
Proof. reflexivity. Qed.

Lemma project_join_fields rt u m :
  doc_get "user_id" (project_join rt u m) = doc_get "user_id" rt
  /\ doc_get "movie_id" (project_join rt u m) = doc_get "movie_id" rt
  /\ doc_get "rating" (project_join rt u m) = doc_get "rating" rt
  /\ doc_get "age" (project_join rt u m) = doc_get "age" u
  /\ doc_get "gender" (project_join rt u m) = doc_get "gender" u
  /\ doc_get "occupation" (project_join rt u m) = doc_get "occupation" u
  /\ (forall i, 0 <= i < 19 ->
                doc_get (genre_field i) (project_join rt u m) = doc_get (genre_field i) m)
  /\ (forall k v, doc_get k (project_join rt u m) = Some v -> In k joined_fields).
Proof.
  rewrite project_join_explicit.
  repeat split; try (rewrite doc_get_present; field_of_present).
  - intros i Hi. rewrite doc_get_present.
    assert (Hc : i = 0 \/ i = 1 \/ i = 2 \/ i = 3 \/ i = 4 \/ i = 5 \/ i = 6 \/ i = 7
                 \/ i = 8 \/ i = 9 \/ i = 10 \/ i = 11 \/ i = 12 \/ i = 13 \/ i = 14
                 \/ i = 15 \/ i = 16 \/ i = 17 \/ i = 18) by lia.
    repeat (destruct Hc as [-> | Hc]; [field_of_present |]).
    subst i. field_of_present.
  - intros k v H. rewrite doc_get_present in H. apply projected_in in H. exact H.
Qed.

Lemma matching_none field key from :
  (forall f, In f from -> value_eqb (Mongo.lookup_key field f) key = false) ->
  matching field key from = [].
Proof.
  intros H. unfold matching. induction from as [| f from IH]; [reflexivity |].
  cbn. rewrite H by now left. apply IH. intros g Hg. apply H. now right.
Qed.

Lemma in_join_stages (d : store_state) (rs : list doc) (o : doc) :
  In o (join_stages d rs) <->
  exists rt u m,
    In rt rs /\ In u (d "users") /\ In m (d "movies")
    /\ value_eqb (Mongo.lookup_key "user_id" u) (Mongo.lookup_key "user_id" rt) = true
    /\ value_eqb (Mongo.lookup_key "movie_id" m) (Mongo.lookup_key "movie_id" rt) = true
    /\ o = project_join rt u m.
Proof.
  rewrite join_stages_flat, in_flat_map. unfold joined_for, matching. split.
  - intros (rt & Hrt & Ho). apply in_flat_map in Ho. destruct Ho as (u & Hu & Ho).
    apply in_map_iff in Ho. destruct Ho as (m & <- & Hm).
    apply filter_In in Hu, Hm. exists rt, u, m. tauto.
  - intros (rt & u & m & Hrt & Hu & Hm & Eu & Em & ->).
    exists rt. split; [exact Hrt |]. apply in_flat_map. exists u.
    split; [apply filter_In; auto |]. apply in_map_iff. exists m.
    split; [reflexivity | apply filter_In; auto].
Qed.

Lemma after_out_same out docs d : after_out out docs d out = docs.
Proof. unfold after_out. now rewrite String.eqb_refl. Qed.

Lemma after_out_other out docs d c : c <> out -> after_out out docs d c = d c.
Proof. intros H. apply String.eqb_neq in H. unfold after_out. now rewrite H. Qed.

(** Claim C2, as amended.  When the collection its guard probes is empty
    and the aggregation does not fail, [populate_user_movie_info_if_needed]
    leaves in [ratings_userinfo_genres] exactly the documents that pair one
    rating (user_id, movie_id, rating) with age, gender and occupation of a
    user whose user_id matches it and with the 19 flags genre_0..genre_18
    of a movie whose movie_id matches it; a rating with no matching user or
    no matching movie yields no document; no other collection changes. *)
Theorem join_pairs_rating_user_movie (w : world) (c r : string) :
  db w c = [] ->
  write_fault w "ratings_userinfo_genres" = None ->
  exists w',
    populate_user_movie_info_if_needed c r w = Ok tt w'
    /\ join_written (db w) (db w r) (db w' "ratings_userinfo_genres")
    /\ (forall o,
           In o (db w' "ratings_userinfo_genres") <->
           exists rt u m,
             In rt (db w r) /\ In u (db w "users") /\ In m (db w "movies")
             /\ value_eqb (Mongo.lookup_key "user_id" u) (Mongo.lookup_key "user_id" rt) = true
             /\ value_eqb (Mongo.lookup_key "movie_id" m) (Mongo.lookup_key "movie_id" rt)
                = true
             /\ o = project_join rt u m)
    /\ (forall rt u m,
           doc_get "user_id" (project_join rt u m) = doc_get "user_id" rt
           /\ doc_get "movie_id" (project_join rt u m) = doc_get "movie_id" rt
           /\ doc_get "rating" (project_join rt u m) = doc_get "rating" rt
           /\ doc_get "age" (project_join rt u m) = doc_get "age" u
           /\ doc_get "gender" (project_join rt u m) = doc_get "gender" u
           /\ doc_get "occupation" (project_join rt u m) = doc_get "occupation" u
           /\ (forall i, 0 <= i < 19 ->
                         doc_get (genre_field i) (project_join rt u m)
                         = doc_get (genre_field i) m)
           /\ (forall k v, doc_get k (project_join rt u m) = Some v -> In k joined_fields))
    /\ (forall rt,
           (forall u, In u (db w "users") ->
                      value_eqb (Mongo.lookup_key "user_id" u) (Mongo.lookup_key "user_id" rt)
                      = false)
           \/ (forall m, In m (db w "movies") ->
                         value_eqb (Mongo.lookup_key "movie_id" m)
                                   (Mongo.lookup_key "movie_id" rt) = false) ->
           joined_for (db w) rt = [])
    /\ (forall c', c' <> "ratings_userinfo_genres" -> db w' c' = db w c').
Proof.
  intros Hc Hf. eexists. rewrite populate_join_run, Hc, Hf. cbn [nonempty db].
  split; [reflexivity |]. cbn [db]. rewrite after_out_same.
  split; [apply join_stages_flat |]. split; [apply in_join_stages |].
  split; [apply project_join_fields |]. split.
  - intros rt [Hu | Hm]; unfold joined_for.
    + now rewrite (matching_none _ _ _ Hu).
    + rewrite (matching_none _ _ _ Hm).
      induction (matching "user_id" _ _) as [| u us IH]; [reflexivity | exact IH].
  - intros c' Hne. now apply after_out_other.
Qed.


(** ** Rounding *)

Lemma round_half_even_near (q : Q) :
  let z := Mongo.round_half_even q in
  - Z.pos (Qden q) <= 2 * (z * Z.pos (Qden q) - Qnum q) <= Z.pos (Qden q).
Proof.
  unfold Mongo.round_half_even. cbv zeta.
  pose proof (Z.div_mod (Qnum q) (Z.pos (Qden q)) ltac:(lia)) as Hdm.
  pose proof (Z.mod_pos_bound (Qnum q) (Z.pos (Qden q)) ltac:(lia)) as Hb.
  set (d := Z.pos (Qden q)) in *. set (fl := Qnum q / d) in *.
  set (r := Qnum q mod d) in *.
  destruct (Z.ltb_spec (2 * r) d); [nia |].
  destruct (Z.ltb_spec d (2 * r)); [nia |].
  destruct (Z.even fl); nia.
Qed.

(** [$round] to three places yields a multiple of 1/1000 within 1/2000 of
    its argument. *)
Lemma round_3_near (q : Q) :
  (Qabs (Mongo.round q 3 - q) <= 1 # 2000)%Q
  /\ exists z : Z, (Mongo.round q 3 == z # 1000)%Q.
Proof.
  unfold Mongo.round.
  change (10 ^ 3) with 1000. change (Z.to_pos 1000) with 1000%positive.
  set (z := Mongo.round_half_even (q * inject_Z 1000)).
  split; [| exists z; apply Qred_correct].
  rewrite Qred_correct.
  pose proof (round_half_even_near (q * inject_Z 1000)) as H. cbv zeta in H. fold z in H.
  destruct q as [a b]. cbn [Qnum Qden Qmult inject_Z] in H.
  apply Qabs_Qle_condition. unfold Qle, Qminus, Qplus, Qopp. cbn [Qnum Qden].
  split; nia.
Qed.


(** ** Grouping *)

Lemma value_eqb_refl a : value_eqb a a = true.
Proof.
  destruct a; cbn; [reflexivity | apply Z.eqb_refl | apply Qeq_bool_refl | apply String.eqb_refl].
Qed.

Lemma value_eqb_sym a b : value_eqb a b = value_eqb b a.
Proof.
  destruct a, b; cbn; try reflexivity.
  - apply Z.eqb_sym.
  - apply eq_true_iff_eq. rewrite !Qeq_bool_iff. split; intros H; now symmetry.
  - apply eq_true_iff_eq. rewrite !Qeq_bool_iff. split; intros H; now symmetry.
  - apply eq_true_iff_eq. rewrite !Qeq_bool_iff. split; intros H; now symmetry.
  - apply String.eqb_sym.
Qed.

Lemma value_eqb_trans a b c :
  value_eqb a b = true -> value_eqb b c = true -> value_eqb a c = true.
Proof.
  destruct a, b, c; cbn; try discriminate; try reflexivity;
    rewrite ?Z.eqb_eq, ?Qeq_bool_iff, ?String.eqb_eq; intros H1 H2;
    first [ congruence
          | apply inject_Z_injective; etransitivity; eassumption
          | subst; assumption
          | etransitivity; eassumption ].
Qed.

Lemma key_eqb_refl k : key_eqb k k = true.
Proof. destruct k; [apply value_eqb_refl | reflexivity]. Qed.

Lemma key_eqb_sym a b : key_eqb a b = key_eqb b a.
Proof. destruct a, b; cbn; auto using value_eqb_sym. Qed.

Lemma key_eqb_trans a b c : key_eqb a b = true -> key_eqb b c = true -> key_eqb a c = true.
Proof. destruct a, b, c; cbn; try discriminate; eauto using value_eqb_trans. Qed.

(** Two keys a bucket both accepts are accepted together by any bucket. *)
Lemma same_group_trans g g' k i :
  same_group g k i = true -> same_group g' k i = true ->
  same_group g (g_key g') (g_index g') = true.
Proof.
  unfold same_group. rewrite !andb_true_iff, !Z.eqb_eq. intros [K1 I1] [K2 I2].
  split; [| congruence]. eapply key_eqb_trans; [exact K1 |]. now rewrite key_eqb_sym.
Qed.

Lemma same_group_add_rating g r k i : same_group (add_rating g r) k i = same_group g k i.
Proof. unfold add_rating. destruct r as [v |]; [destruct (numeric v) |]; reflexivity. Qed.

Lemma same_group_new k i : same_group (new_group k i) k i = true.
Proof. unfold same_group. cbn. now rewrite key_eqb_refl, Z.eqb_refl. Qed.

Lemma hits_add_rating g r l : hits (add_rating g r) l = hits g l.
Proof.
  unfold hits. apply filter_ext. intros x. apply same_group_add_rating.
Qed.

Lemma Qsum_snoc qs q : Qsum (qs ++ [q]) = (Qsum qs + q)%Q.
Proof. unfold Qsum. now rewrite fold_left_app. Qed.

Lemma entry_numbers_app l1 l2 :
  entry_numbers (l1 ++ l2) = entry_numbers l1 ++ entry_numbers l2.
Proof. unfold entry_numbers. apply flat_map_app. Qed.

Lemma hits_snoc g l x :
  hits g (l ++ [x]) =
  hits g l ++ (if same_group g (fst (fst x)) (fst (snd x)) then [x] else []).
Proof. unfold hits. rewrite filter_app. reflexivity. Qed.

Lemma acc_ok_miss g l x :
  acc_ok g l -> same_group g (fst (fst x)) (fst (snd x)) = false -> acc_ok g (l ++ [x]).
Proof. unfold acc_ok. intros H Hm. now rewrite hits_snoc, Hm, app_nil_r. Qed.

Lemma acc_ok_hit g l x :
  acc_ok g l -> same_group g (fst (fst x)) (fst (snd x)) = true ->
  acc_ok (add_rating g (snd (fst x))) (l ++ [x]).
Proof.
  unfold acc_ok. intros (Hc & Hs & Hn) Hm.
  rewrite hits_add_rating, hits_snoc, Hm, entry_numbers_app, !length_app.
  unfold entry_numbers at 2 4. cbn [flat_map]. rewrite app_nil_r.
  unfold add_rating, rating_number.
  destruct (snd (fst x)) as [v |]; [destruct (numeric v) as [q |] |];
    cbn [g_count g_sum g_numeric List.length];
    rewrite ?app_nil_r, ?Qsum_snoc, ?length_app; cbn [List.length];
    repeat split; try congruence; lia.
Qed.

(** [accumulate] either updates the first bucket that accepts the entry or
    opens a new bucket at the end. *)
Lemma accumulate_cases (x : flagged) (G : list group_acc) :
  (exists G1 g G2,
      G = G1 ++ g :: G2
      /\ (forall g', In g' G1 -> same_group g' (fst (fst x)) (fst (snd x)) = false)
      /\ same_group g (fst (fst x)) (fst (snd x)) = true
      /\ accumulate x G = G1 ++ add_rating g (snd (fst x)) :: G2)
  \/ ((forall g', In g' G -> same_group g' (fst (fst x)) (fst (snd x)) = false)
      /\ accumulate x G
         = G ++ [add_rating (new_group (fst (fst x)) (fst (snd x))) (snd (fst x))]).
Proof.
  induction G as [| g G IH]; cbn [accumulate].
  - right. split; [intros g' [] | reflexivity].
  - destruct (same_group g (fst (fst x)) (fst (snd x))) eqn:Hg.
    + left. exists [], g, G. repeat split; auto. intros g' [].
    + destruct IH as [(G1 & g0 & G2 & -> & H1 & H0 & ->) | (Hn & ->)].
      * left. exists (g :: G1), g0, G2. repeat split; auto.
        intros g' [<- | Hin]; auto.
      * right. split; [| reflexivity]. intros g' [<- | Hin]; auto.
Qed.

Lemma filter_nil_iff {A} (p : A -> bool) l :
  filter p l = [] <-> forall a, In a l -> p a = false.
Proof.
  induction l as [| a l IH]; cbn; [tauto |].
  destruct (p a) eqn:Hp.
  - split; [discriminate |]. intros H. specialize (H a (or_introl eq_refl)). congruence.
  - rewrite IH. split; [intros H b [<- | Hb]; auto | intros H b Hb; auto].
Qed.

Lemma length_le_1_nil {A} (l1 l2 : list A) a :
  (List.length (l1 ++ a :: l2) <= 1)%nat -> l1 = [] /\ l2 = [].
Proof.
  rewrite length_app. cbn. destruct l1, l2; cbn; intros H; auto; lia.
Qed.

Lemma grouped_nil : grouped [] [].
Proof.
  unfold grouped. split; [intros g [] |]. split; [intros k i; cbn; lia |].
  split; [intros x [] | intros g []].
Qed.

Lemma grouped_step l G x :
  grouped l G -> grouped (l ++ [x]) (accumulate x G).
Proof.
  intros (Hok & Huniq & Hcov & Hkey).
  destruct x as [[k r] [i f]]. set (x := ((k, r), (i, f))).
  destruct (accumulate_cases x G) as [(G1 & g & G2 & -> & H1 & Hg & ->) | (Hn & ->)];
    cbn [fst snd x] in *.
  - (* an existing bucket takes the entry *)
    assert (H2 : forall g', In g' G2 -> same_group g' k i = false).
    { intros g' Hin. specialize (Huniq k i). rewrite filter_app in Huniq.
      cbn [filter] in Huniq. rewrite Hg in Huniq.
      apply length_le_1_nil in Huniq. destruct Huniq as [_ Hnil].
      now apply (proj1 (filter_nil_iff _ _) Hnil). }
    unfold grouped. split; [| split; [| split]].
    + intros g' Hin. apply in_app_iff in Hin. destruct Hin as [Hin | [<- | Hin]].
      * apply (acc_ok_miss g' l x); [apply Hok; apply in_app_iff; auto | now apply H1].
      * apply (acc_ok_hit g l x); [apply Hok; apply in_app_iff; cbn; auto | exact Hg].
      * apply (acc_ok_miss g' l x); [apply Hok; apply in_app_iff; cbn; auto | now apply H2].
    + intros k' i'. specialize (Huniq k' i'). rewrite filter_app in *. cbn [filter] in *.
      rewrite same_group_add_rating. rewrite length_app in *.
      destruct (same_group g k' i'); cbn [List.length] in *; exact Huniq.
    + intros y Hy. apply in_app_iff in Hy. destruct Hy as [Hy | [<- | []]].
      * destruct (Hcov y Hy) as (g' & Hin & Hm).
        apply in_app_iff in Hin. destruct Hin as [Hin | [<- | Hin]].
        -- exists g'. split; [apply in_app_iff; auto | exact Hm].
        -- exists (add_rating g r). split; [apply in_app_iff; cbn; auto |].
           now rewrite same_group_add_rating.
        -- exists g'. split; [apply in_app_iff; cbn; auto | exact Hm].
      * exists (add_rating g r). split; [apply in_app_iff; cbn; auto |].
        now rewrite same_group_add_rating.
    + intros g' Hin.
      assert (Hold : forall g0, In g0 (G1 ++ g :: G2) ->
                exists y, In y (l ++ [x]) /\ fst (fst y) = g_key g0 /\ fst (snd y) = g_index g0).
      { intros g0 H0. destruct (Hkey g0 H0) as (y & Hy & E). exists y.
        split; [apply in_app_iff; auto | exact E]. }
      apply in_app_iff in Hin. destruct Hin as [Hin | [<- | Hin]].
      * apply Hold. apply in_app_iff; auto.
      * destruct (Hold g) as (y & Hy & E1 & E2); [apply in_app_iff; cbn; auto |].
        exists y. split; [exact Hy |].
        unfold add_rating. destruct r as [v |]; [destruct (numeric v) |]; cbn; auto.
      * apply Hold. apply in_app_iff; cbn; auto.
  - (* a new bucket is opened *)
    set (new := add_rating (new_group k i) r).
    assert (Hnew : same_group new k i = true).
    { unfold new. rewrite same_group_add_rating. apply same_group_new. }
    assert (Hnewkey : g_key new = k /\ g_index new = i).
    { unfold new, add_rating. destruct r as [v |]; [destruct (numeric v) |]; cbn; auto. }
    assert (Hfresh : hits new l = []).
    { apply filter_nil_iff. intros y Hy.
      destruct (same_group new (fst (fst y)) (fst (snd y))) eqn:Hm; [| reflexivity].
      destruct (Hcov y Hy) as (g' & Hin & Hg').
      rewrite <- (Hn g' Hin).
      destruct Hnewkey as [Ek Ei].
      pose proof (same_group_trans g' new _ _ Hg' Hm) as Ht.
      rewrite Ek, Ei in Ht. now rewrite Ht. }
    unfold grouped. split; [| split; [| split]].
    + intros g' Hin. apply in_app_iff in Hin. destruct Hin as [Hin | [<- | []]].
      * apply (acc_ok_miss g' l x); [now apply Hok | now apply Hn].
      * unfold new. apply (acc_ok_hit (new_group k i) l x); [| apply same_group_new].
        unfold new, hits in Hfresh.
        rewrite (filter_ext _ _ (fun y => same_group_add_rating (new_group k i) r _ _))
          in Hfresh.
        unfold acc_ok, hits. now rewrite Hfresh.
    + intros k' i'. rewrite filter_app, length_app. cbn [filter].
      destruct (same_group new k' i') eqn:Hm; cbn [List.length]; [| specialize (Huniq k' i'); lia].
      assert (Hnil : filter (fun g => same_group g k' i') G = []).
      { apply filter_nil_iff. intros g' Hin.
        destruct (same_group g' k' i') eqn:Hg'; [| reflexivity].
        rewrite <- (Hn g' Hin). destruct Hnewkey as [Ek Ei].
        pose proof (same_group_trans g' new _ _ Hg' Hm) as Ht.
        rewrite Ek, Ei in Ht. now rewrite Ht. }
      rewrite Hnil. cbn. lia.
    + intros y Hy. apply in_app_iff in Hy. destruct Hy as [Hy | [<- | []]].
      * destruct (Hcov y Hy) as (g' & Hin & Hm). exists g'.
        split; [apply in_app_iff; auto | exact Hm].
      * exists new. split; [apply in_app_iff; cbn; auto | exact Hnew].
    + intros g' Hin. apply in_app_iff in Hin. destruct Hin as [Hin | [<- | []]].
      * destruct (Hkey g' Hin) as (y & Hy & E). exists y.
        split; [apply in_app_iff; auto | exact E].
      * exists x. split; [apply in_app_iff; cbn; auto |]. destruct Hnewkey. auto.
Qed.

Lemma group_stage_snoc l x : group_stage (l ++ [x]) = accumulate x (group_stage l).
Proof. unfold group_stage. now rewrite fold_left_app. Qed.

Lemma group_stage_grouped l : grouped l (group_stage l).
Proof.
  induction l as [| x l IH] using rev_ind; [apply grouped_nil |].
  rewrite group_stage_snoc. now apply grouped_step.
Qed.

(** ** From the unwound entries back to the source documents *)

Lemma NoDup_map_of_nat (l : list nat) : NoDup l -> NoDup (map Z.of_nat l).
Proof.
  induction 1 as [| a l Hnotin Hnd IH]; cbn; constructor; [| exact IH].
  intros Hin. apply in_map_iff in Hin. destruct Hin as (b & E & Hb).
  apply Nat2Z.inj in E. now subst.
Qed.

Lemma range_NoDup n : NoDup (Py.range n).
Proof. unfold Py.range. apply NoDup_map_of_nat, seq_NoDup. Qed.

Lemma in_range n i : In i (Py.range n) <-> 0 <= i < n.
Proof.
  unfold Py.range. rewrite in_map_iff. split.
  - intros (k & <- & Hk). apply in_seq in Hk. lia.
  - intros H. exists (Z.to_nat i). split; [lia | apply in_seq; lia].
Qed.

Lemma entries_of_doc (js : list Z) kd rd fl k i :
  NoDup js ->
  map (fun x : flagged => snd (fst x))
      (filter (fun x : flagged => key_eqb k (fst (fst x)) && (i =? fst (snd x)))
              (filter (fun x : flagged => flag_is_one (snd (snd x)))
                      (map (entry_of kd rd fl) js)))
  = if existsb (Z.eqb i) js && (key_eqb k kd && flag_is_one (fl i)) then [rd] else [].
Proof.
  induction js as [| j js IH]; intros Hnd; [reflexivity |].
  inversion Hnd as [| ? ? Hnotin Hnd']; subst. specialize (IH Hnd').
  cbn [map]. set (rest := map (entry_of kd rd fl) js) in *.
  cbn [filter existsb]. change (snd (snd (entry_of kd rd fl j))) with (fl j).
  destruct (Z.eqb_spec i j) as [-> | Hne].
  - assert (Hex : existsb (Z.eqb j) js = false).
    { apply not_true_is_false. intros H. apply existsb_exists in H.
      destruct H as (j' & Hin & E). apply Z.eqb_eq in E. now subst. }
    rewrite Hex in IH. cbn [orb andb] in *.
    destruct (flag_is_one (fl j)).
    + cbn [filter]. change (fst (snd (entry_of kd rd fl j))) with j.
      change (fst (fst (entry_of kd rd fl j))) with kd.
      rewrite Z.eqb_refl. destruct (key_eqb k kd); cbn [andb map]; now rewrite IH.
    + rewrite andb_false_r. exact IH.
  - cbn [orb]. destruct (flag_is_one (fl j)); [| exact IH].
    cbn [filter]. change (fst (snd (entry_of kd rd fl j))) with j.
    apply Z.eqb_neq in Hne. rewrite Hne, andb_false_r. exact IH.
Qed.

Lemma unwind_flags_cons gf n d src :
  unwind_flags gf n (d :: src)
  = map (entry_of (doc_get gf d) (doc_get "rating" d) (fun j => doc_get (genre_field j) d))
        (Py.range n)
      ++ unwind_flags gf n src.
Proof.
  unfold unwind_flags, Mongo.unwind, genre_flags. cbn [map flat_map fst snd].
  now rewrite map_map.
Qed.

Lemma hit_ratings gf n src k i :
  0 <= i < n ->
  map (fun x : flagged => snd (fst x))
      (filter (fun x : flagged => key_eqb k (fst (fst x)) && (i =? fst (snd x)))
              (filter (fun x : flagged => flag_is_one (snd (snd x)))
                      (unwind_flags gf n src)))
  = map (doc_get "rating") (members gf k i src).
Proof.
  intros Hi. induction src as [| d src IH]; [reflexivity |].
  rewrite unwind_flags_cons, !filter_app, map_app, IH.
  rewrite entries_of_doc by apply range_NoDup.
  assert (Hex : existsb (Z.eqb i) (Py.range n) = true).
  { apply existsb_exists. exists i. split; [now apply in_range | apply Z.eqb_refl]. }
  rewrite Hex. cbn [andb]. unfold members. cbn [filter].
  now destruct (key_eqb k (doc_get gf d) && flag_is_one (doc_get (genre_field i) d)).
Qed.

Lemma in_flagged gf n src (x : flagged) :
  In x (filter (fun x : flagged => flag_is_one (snd (snd x))) (unwind_flags gf n src)) <->
  exists d i,
    In d src /\ 0 <= i < n /\ flag_is_one (doc_get (genre_field i) d) = true
    /\ x = ((doc_get gf d, doc_get "rating" d), (i, doc_get (genre_field i) d)).
Proof.
  rewrite filter_In. unfold unwind_flags, Mongo.unwind, genre_flags.
  rewrite in_flat_map. split.
  - intros [(ab & Hab & Hx) Hf]. apply in_map_iff in Hab. destruct Hab as (d & <- & Hd).
    cbn [fst snd] in Hx. apply in_map_iff in Hx. destruct Hx as (p & <- & Hp).
    apply in_map_iff in Hp. destruct Hp as (i & <- & Hi). apply in_range in Hi.
    exists d, i. cbn in Hf. auto.
  - intros (d & i & Hd & Hi & Hf & ->). split; [| exact Hf].
    eexists. split; [apply in_map_iff; exists d; split; [reflexivity | exact Hd] |].
    cbn [fst snd]. apply in_map_iff. eexists. split; [reflexivity |].
    apply in_map_iff. exists i. split; [reflexivity | now apply in_range].
Qed.

Lemma flat_map_map {A B C} (f : B -> list C) (g : A -> B) l :
  flat_map f (map g l) = flat_map (fun a => f (g a)) l.
Proof. induction l; cbn; congruence. Qed.

(** What the buckets of the statistics pipeline hold, told on the source
    documents. *)
Lemma stat_groups_spec gf n src :
  let rows := stat_groups gf n src in
  (forall row, In row rows ->
     0 <= g_index row < n
     /\ members gf (g_key row) (g_index row) src <> []
     /\ g_count row = Z.of_nat (List.length (members gf (g_key row) (g_index row) src))
     /\ avg_value row
        = match numeric_ratings (members gf (g_key row) (g_index row) src) with
          | [] => VNull
          | _ :: _ => VDbl (mean (numeric_ratings (members gf (g_key row) (g_index row) src)))
          end)
  /\ (forall d i, In d src -> 0 <= i < n ->
        flag_is_one (doc_get (genre_field i) d) = true ->
        List.length (filter (fun row => same_group row (doc_get gf d) i) rows) = 1%nat).
Proof.
  cbv zeta.
  pose (L := filter (fun x : flagged => flag_is_one (snd (snd x))) (unwind_flags gf n src)).
  change (stat_groups gf n src) with (group_stage L).
  destruct (group_stage_grouped L) as (Hok & Huniq & Hcov & Hkey).
  split.
  - intros row Hrow.
    destruct (Hkey row Hrow) as (x & Hx & Ek & Ei).
    apply in_flagged in Hx. destruct Hx as (d & i & Hd & Hi & Hf & ->).
    cbn [fst snd] in Ek, Ei. subst i.
    assert (Hr : map (fun x : flagged => snd (fst x)) (hits row L)
                 = map (doc_get "rating") (members gf (g_key row) (g_index row) src)).
    { unfold hits, same_group, L.
      rewrite (filter_ext _ (fun x : flagged =>
                 key_eqb (g_key row) (fst (fst x)) && (g_index row =? fst (snd x))))
        by reflexivity.
      now apply hit_ratings. }
    assert (Hlen : List.length (hits row L)
                   = List.length (members gf (g_key row) (g_index row) src)).
    { rewrite <- (length_map (fun x : flagged => snd (fst x))), Hr. apply length_map. }
    assert (Hnum : entry_numbers (hits row L)
                   = numeric_ratings (members gf (g_key row) (g_index row) src)).
    { unfold entry_numbers, numeric_ratings.
      rewrite <- (flat_map_map rating_number (fun x : flagged => snd (fst x))), Hr.
      apply flat_map_map. }
    destruct (Hok row Hrow) as (Hc & Hs & Hn). rewrite Hlen in Hc. rewrite Hnum in Hs, Hn.
    split; [exact Hi |]. split.
    { intros Hnil. assert (Hin : In d (members gf (g_key row) (g_index row) src)).
      { apply filter_In. split; [exact Hd |]. now rewrite <- Ek, key_eqb_refl, Hf. }
      rewrite Hnil in Hin. destruct Hin. }
    split; [exact Hc |].
    unfold avg_value, mean. rewrite Hn, Hs.
    destruct (numeric_ratings _) as [| q qs]; [reflexivity |].
    cbn [List.length]. destruct (Z.eqb_spec (Z.of_nat (S (List.length qs))) 0); [lia | reflexivity].
  - intros d i Hd Hi Hf.
    specialize (Huniq (doc_get gf d) i).
    destruct (Hcov ((doc_get gf d, doc_get "rating" d), (i, doc_get (genre_field i) d)))
      as (g & Hg & Hm).
    { apply in_flagged. exists d, i. auto. }
    cbn [fst snd] in Hm.
    assert (Hin : In g (filter (fun row => same_group row (doc_get gf d) i)
                               (group_stage L))) by (apply filter_In; auto).
    destruct (filter _ (group_stage L)) as [| a [| b rest]];
      cbn [List.length In] in *; [tauto | reflexivity | lia].
Qed.

(** Claim C1, as amended.  When the target collection is empty and the
    aggregation does not fail, [build_and_insert_stats] leaves in the target
    exactly one document per pair (value of the group field, genre index
    below [genre_count] whose flag equals 1) that some source document falls
    in: its [count] is the number of source documents with that group value
    and that flag equal to 1, its [avg_rating] the arithmetic mean of their
    numeric ratings rounded to 3 decimals (a multiple of 1/1000 within
    1/2000 of the mean).  A document is a member only of the buckets of the
    genres it is flagged for, of exactly one bucket for each such genre, and
    no other collection changes. *)
Theorem stats_per_group_and_genre (w : world) (s t g : string) (n : Z) :
  db w t = [] ->
  write_fault w t = None ->
  exists w',
    build_and_insert_stats s t g n w = Ok tt w'
    /\ stats_written g n (db w s) (db w' t)
    /\ (forall k i d,
          In d (members g k i (db w s)) ->
          In d (db w s) /\ key_eqb k (doc_get g d) = true
          /\ flag_is_one (doc_get (genre_field i) d) = true)
    /\ (forall q, (Qabs (Mongo.round q 3 - q) <= 1 # 2000)%Q
                  /\ exists z : Z, (Mongo.round q 3 == z # 1000)%Q)
    /\ (forall c, c <> t -> db w' c = db w c).
Proof.
  intros Ht Hf. eexists.
  rewrite build_stats_run, Ht, Hf. cbn [nonempty].
  split; [reflexivity |]. cbn [db]. rewrite after_out_same.
  split.
  { exists (stat_groups g n (db w s)). split; [reflexivity |].
    destruct (stat_groups_spec g n (db w s)) as [Hrows Hone].
    split; [| exact Hone].
    intros row Hrow. destruct (Hrows row Hrow) as (Hi & Hne & Hc & Ha).
    split; [exact Hi |]. split; [exact Hne |].
    unfold reshape, rounded_mean. rewrite Ha, Hc.
    now destruct (numeric_ratings _). }
  split.
  { intros k i d Hd. apply filter_In in Hd. destruct Hd as [Hd Hb].
    apply andb_true_iff in Hb. tauto. }
  split; [apply round_3_near |].
  intros c Hc. now apply after_out_other.
Qed.

(** ** The charts *)

Lemma in_unique x l : In x (Py.unique l) <-> In x l.
Proof.
  induction l as [| y l IH]; cbn; [tauto |].
  rewrite filter_In, IH, negb_true_iff, String.eqb_neq.
  destruct (String.eqb_spec x y) as [-> | Hne]; [tauto |]. split.
  - intros [E | [H _]]; auto.
  - intros [E | H]; [now left | right; auto].
Qed.

Lemma in_insert_sorted x y l : In x (Py.insert_sorted y l) <-> x = y \/ In x l.
Proof.
  induction l as [| z l IH]; cbn; [intuition congruence |].
  destruct (String.leb y z); cbn; [intuition congruence |].
  rewrite IH. intuition congruence.
Qed.

Lemma in_sorted x l : In x (Py.sorted l) <-> In x l.
Proof.
  unfold Py.sorted. induction l as [| y l IH]; cbn; [tauto |].
  rewrite in_insert_sorted, IH. intuition congruence.
Qed.


Lemma in_subset_of df val r : In r (subset_of df val) <-> In r df /\ group r = val.
Proof. unfold subset_of. now rewrite filter_In, String.eqb_eq. Qed.


Lemma frame_rows_spec field tg docs rows :
  frame_rows field tg docs = Some rows ->
  List.length rows = List.length docs
  /\ forall d, In d docs -> exists r, In r rows /\ stat_row_of field tg d = Some r.
Proof.
  revert rows. induction docs as [| d docs IH]; intros rows H; cbn in H.
  - inversion H. split; [reflexivity | intros d []].
  - destruct (stat_row_of field tg d) as [r |] eqn:Er; [| discriminate].
    destruct (frame_rows field tg docs) as [rs |]; [| discriminate].
    inversion H; subst. destruct (IH rs eq_refl) as [Hl Hin].
    split; [cbn; congruence |].
    intros d' [<- | Hd'].
    + exists r. split; [now left | exact Er].
    + destruct (Hin d' Hd') as (r' & Hr' & E). exists r'. split; [now right | exact E].
Qed.

Lemma stat_row_of_spec field tg d r :
  stat_row_of field tg d = Some r ->
  exists v,
    doc_get field d = Some v /\ tg v = Some (group r)
    /\ doc_get "genre_index" d = Some (VInt (genre_index r))
    /\ doc_get "avg_rating" d = Some (avg_rating r)
    /\ doc_get "count" d = Some (count r).
Proof.
  unfold stat_row_of.
  destruct (doc_get field d) as [v |]; [| discriminate].
  destruct (doc_get "genre_index" d) as [[| i | |] |]; try discriminate.
  destruct (doc_get "avg_rating" d) as [a |]; [| discriminate].
  destruct (doc_get "count" d) as [c |]; [| discriminate].
  destruct (tg v) as [s |] eqn:Es; [| discriminate].
  intros H. inversion H; subst. cbn. exists v. auto.
Qed.






(** *** One bar per genre *)











(** ** The claims on the sample data *)

Lemma stats_per_group_and_genre_witness :
  exists w',
    build_and_insert_stats "ratings_userinfo_genres" "age_genre_rating_stats" "age" 19
                           Sample.joined = Ok tt w'
    /\ stats_written "age" 19 (db Sample.joined "ratings_userinfo_genres")
                     (db w' "age_genre_rating_stats").
Proof.
  destruct (stats_per_group_and_genre Sample.joined "ratings_userinfo_genres"
              "age_genre_rating_stats" "age" 19) as (w' & Hrun & Hstats & _).
  - reflexivity.
  - reflexivity.
  - exists w'. split; assumption.
Defined.

(** With a stale statistics document in the target the step is skipped,
    and when the write fails nothing is stored: in both cases the target
    does not hold the statistics of the source. *)
Lemma stats_not_written_when_skipped_or_failed :
  (exists w',
      build_and_insert_stats "ratings_userinfo_genres" "age_genre_rating_stats" "age" 19
                             Sample.stale_stats = Ok tt w'
      /\ db w' "age_genre_rating_stats" = [Sample.stale_stat]
      /\ ~ stats_written "age" 19 (db Sample.stale_stats "ratings_userinfo_genres")
                         (db w' "age_genre_rating_stats"))
  /\ (exists w',
        build_and_insert_stats "ratings_userinfo_genres" "age_genre_rating_stats" "age" 19
                               Sample.stats_fail = Ok tt w'
        /\ db w' "age_genre_rating_stats" = []
        /\ ~ stats_written "age" 19 (db Sample.stats_fail "ratings_userinfo_genres")
                           (db w' "age_genre_rating_stats")).
Proof.
  split.
  - eexists. split; [vm_compute; reflexivity |]. split; [reflexivity |].
    intros (rows & Hmap & _ & Hone).
    change (db _ "age_genre_rating_stats") with [Sample.stale_stat] in Hmap.
    destruct rows as [| row [| row' rows]]; try discriminate Hmap.
    cbn [map] in Hmap. injection Hmap as Hrow.
    assert (Hidx : g_index row = 1).
    { assert (H : doc_get "genre_index" (reshape "age" row) = Some (VInt 1))
        by (rewrite <- Hrow; reflexivity).
      unfold reshape in H. rewrite doc_get_present in H. cbn in H. congruence. }
    specialize (Hone toy_story_by_user_1 3).
    cbn [filter List.length] in Hone. unfold same_group in Hone at 1.
    rewrite Hidx, andb_false_r in Hone.
    assert (H01 : 0%nat = 1%nat); [apply Hone | discriminate H01].
    + vm_compute. auto.
    + lia.
    + reflexivity.
  - eexists. split; [vm_compute; reflexivity |]. split; [reflexivity |].
    intros (rows & Hmap & _ & Hone).
    change (db _ "age_genre_rating_stats") with (@nil doc) in Hmap.
    destruct rows; [| discriminate Hmap].
    specialize (Hone toy_story_by_user_1 3).
    assert (H01 : 0%nat = 1%nat); [apply Hone | discriminate H01].
    + vm_compute. auto.
    + lia.
    + reflexivity.
Qed.

Lemma join_pairs_rating_user_movie_witness :
  exists w',
    populate_user_movie_info_if_needed "ratings_userinfo_genres" "ratings" Sample.loaded
    = Ok tt w'
    /\ join_written (db Sample.loaded) (db Sample.loaded "ratings")
                    (db w' "ratings_userinfo_genres")
    /\ List.length (db w' "ratings_userinfo_genres") = 4%nat.
Proof.
  destruct (join_pairs_rating_user_movie Sample.loaded "ratings_userinfo_genres" "ratings")
    as (w' & Hrun & Hjoin & _).
  - reflexivity.
  - reflexivity.
  - exists w'. split; [exact Hrun |]. split; [exact Hjoin |].
    rewrite Hjoin. vm_compute. reflexivity.
Defined.

(** With a stale joined document in the target the join is skipped, and
    when the write fails nothing is stored: in both cases the target is not
    the join of the ratings. *)
Lemma join_not_written_when_skipped_or_failed :
  (exists w',
      populate_user_movie_info_if_needed "ratings_userinfo_genres" "ratings"
                                         Sample.stale_join = Ok tt w'
      /\ db w' "ratings_userinfo_genres" = [Sample.stale_joined]
      /\ ~ join_written (db Sample.stale_join) (db Sample.stale_join "ratings")
                        (db w' "ratings_userinfo_genres"))
  /\ (exists w',
        populate_user_movie_info_if_needed "ratings_userinfo_genres" "ratings"
                                           Sample.join_fail = Ok tt w'
        /\ db w' "ratings_userinfo_genres" = []
        /\ In toy_story_by_user_1
              (flat_map (joined_for (db Sample.join_fail)) (db Sample.join_fail "ratings"))
        /\ ~ join_written (db Sample.join_fail) (db Sample.join_fail "ratings")
                          (db w' "ratings_userinfo_genres")).
Proof.
  split.
  - eexists. split; [vm_compute; reflexivity |]. split; [reflexivity |].
    unfold join_written. intros H. vm_compute in H. discriminate H.
  - eexists. split; [vm_compute; reflexivity |]. split; [reflexivity |].
    split; [vm_compute; auto |].
    unfold join_written. intros H. vm_compute in H. discriminate H.
Qed.



Lemma write_errors_are_caught_witness :
  exists w',
    populate_data_if_needed "users" "movies" "ratings" Sample.failing = Ok tt w'
    /\ In (EPrint "Warning: could not insert into users collection: not authorized")
          (trace w')
    /\ In (EInsertMany "ratings" (ratings_records Sample.files)) (trace w')
    /\ In (EPrint "Data population complete.") (trace w').
Proof.
  destruct (proj1 (write_errors_are_caught Sample.failing) "users" "movies" "ratings")
    as (w' & Hrun & Htrace).
  - vm_compute. reflexivity.
  - exists w'. split; [exact Hrun |].
    rewrite (Htrace eq_refl). vm_compute. auto 20.
Defined.

Lemma raw_load_reads_three_files_witness :
  exists w',
    populate_data_if_needed "users" "movies" "ratings" Sample.fresh = Ok tt w'
    /\ three_files_loaded Sample.fresh w'
    /\ List.length (db w' "users") = 3%nat
    /\ List.length (db w' "movies") = 2%nat
    /\ List.length (db w' "ratings") = 6%nat.
Proof.
  destruct (raw_load_reads_three_files Sample.fresh)
    as (w' & Hrun & Hload & _ & _ & _ & _ & _ & _ & _ & Hu & Hm & Hr & _).
  - vm_compute. reflexivity.
  - reflexivity.
  - exists w'. split; [exact Hrun |]. split; [exact Hload |].
    rewrite (Hu eq_refl), (Hm eq_refl), (Hr eq_refl). vm_compute. auto.
Defined.

(** Once the three collections are populated the load is skipped: no file
    is read and nothing is inserted. *)
Lemma raw_load_skipped_when_populated :
  exists w',
    populate_data_if_needed "users" "movies" "ratings" Sample.before_rerun = Ok tt w'
    /\ db w' = db Sample.before_rerun
    /\ filter is_read (trace w') = []
    /\ ~ three_files_loaded Sample.before_rerun w'.
Proof.
  eexists. split; [vm_compute; reflexivity |]. split; [reflexivity |].
  split; [reflexivity |].
  intros (t & Ht & Hread & _). cbn [trace Sample.before_rerun app] in Ht.
  rewrite <- Ht in Hread. vm_compute in Hread. discriminate Hread.
Qed.


Lemma partial_population_reloads_witness :
  exists w',
    populate_data_if_needed "users" "movies" "ratings" Sample.only_users = Ok tt w'
    /\ db w' "users" = users_records Sample.files ++ users_records Sample.files
    /\ List.length (db w' "users") = 6%nat.
Proof.
  destruct (partial_population_reloads Sample.only_users)
    as (w' & t & Hrun & _ & _ & _ & _ & Hdb).
  - vm_compute. reflexivity.
  - left. vm_compute. discriminate.
  - right; left. reflexivity.
  - destruct (Hdb eq_refl eq_refl eq_refl) as (Hu & _).
    exists w'. split; [exact Hrun |]. split; [exact Hu |]. rewrite Hu. vm_compute. reflexivity.
Defined.

Lemma main_runs_steps_in_order_witness :
  steps_of (trace (final (main Sample.fresh)))
  = [RawLoad; Join; StatsAge; StatsGender; StatsOccupation; Charts].
Proof.
  destruct (main_runs_steps_in_order Sample.fresh) as [_ H].
  destruct H as [Hs _].
  - right. vm_compute. reflexivity.
  - exact Hs.
Defined.


(** Claim C9.  [age_to_group] is a total function on the integers; it
    returns "0-9" for every age below 10, negative ages included, and
    "L-(L+9)" with L = (age // 10) * 10 for every age from 10 on; for every
    non-negative age the range returned contains the age. *)
Theorem age_to_group_decade (age : Z) :
  (age < 10 -> age_to_group age = "0-9")
  /\ (10 <= age ->
      age_to_group age
      = (Py.str (age / 10 * 10) ++ "-" ++ Py.str (age / 10 * 10 + 9))%string)
  /\ (0 <= age ->
      exists lo, age_to_group age = (Py.str lo ++ "-" ++ Py.str (lo + 9))%string
                 /\ lo <= age <= lo + 9).
Proof.
  unfold age_to_group. repeat split.
  - intros H. apply Z.ltb_lt in H. now rewrite H.
  - intros H. destruct (Z.ltb_spec age 10); [lia | reflexivity].
  - intros H. destruct (Z.ltb_spec age 10).
    + exists 0. split; [reflexivity | lia].
    + exists (age / 10 * 10). split; [reflexivity |].
      pose proof (Z.div_mod age 10 ltac:(lia)).
      pose proof (Z.mod_pos_bound age 10 ltac:(lia)). lia.
Qed.

Lemma age_to_group_decade_witness :
  age_to_group (-3) = "0-9"
  /\ age_to_group 23 = "20-29"
  /\ exists lo, age_to_group 105 = (Py.str lo ++ "-" ++ Py.str (lo + 9))%string
                /\ lo <= 105 <= lo + 9.
Proof.
  split; [| split].
  - apply (proj1 (age_to_group_decade (-3))). lia.
  - apply (proj1 (proj2 (age_to_group_decade 23))). lia.
  - apply (proj2 (proj2 (age_to_group_decade 105))). lia.
Defined.

Lemma charts_never_write_witness :
  db (final (plot_statistics "age_genre_rating_stats" "gender_genre_rating_stats"
                             "occupation_genre_rating_stats" genre_labels Sample.joined))
  = db Sample.joined
  /\ exists t,
       trace (final (plot_statistics "age_genre_rating_stats" "gender_genre_rating_stats"
                                     "occupation_genre_rating_stats" genre_labels
                                     Sample.joined))
       = trace Sample.joined ++ t
       /\ ~ In (EOutputFile "age_group_charts.html") t.
Proof.
  destruct (charts_never_write "age_genre_rating_stats" "gender_genre_rating_stats"
              "occupation_genre_rating_stats" genre_labels Sample.joined)
    as (Hdb & (t & Ht & _ & Hage & _) & _).
  split; [exact Hdb |]. exists t. split; [exact Ht |]. apply Hage. reflexivity.
Defined.

(** ** Further properties of the code *)

(** *** The store only grows *)

Lemma nonempty_false {A} (l : list A) : nonempty l = false -> l = [].
Proof. now destruct l. Qed.

Lemma populate_join_extends r w :
  exists w', populate_user_movie_info_if_needed "ratings_userinfo_genres" r w = Ok tt w'
             /\ extends (db w) (db w') /\ write_fault w' = write_fault w.
Proof.
  rewrite populate_join_run. eexists. split; [reflexivity |].
  destruct (nonempty (db w "ratings_userinfo_genres")) eqn:Hn; cbn [db write_fault].
  - split; [apply extends_refl | reflexivity].
  - destruct (write_fault w "ratings_userinfo_genres"); cbn [db write_fault].
    + split; [apply extends_refl | reflexivity].
    + split; [| reflexivity]. apply after_out_extends. now apply nonempty_false.
Qed.

Lemma build_stats_extends s t g n w :
  exists w', build_and_insert_stats s t g n w = Ok tt w'
             /\ extends (db w) (db w') /\ write_fault w' = write_fault w.
Proof.
  rewrite build_stats_run. eexists. split; [reflexivity |].
  destruct (nonempty (db w t)) eqn:Hn; cbn [db write_fault].
  - split; [apply extends_refl | reflexivity].
  - destruct (write_fault w t); cbn [db write_fault].
    + split; [apply extends_refl | reflexivity].
    + split; [| reflexivity]. apply after_out_extends. now apply nonempty_false.
Qed.

Lemma db_final_then_print {A} (m : M A) (s : string) (w : world) :
  db (final ((m ;; print s) w)) = db (final (m w)).
Proof. rewrite final_bind. destruct (m w); reflexivity. Qed.

(** Property X1.  The main program never deletes or alters a stored document:
    whatever the store holds, whatever the files contain and whichever
    writes fail, every collection ends with the documents it started with,
    in place, followed by what the run added.  The inserts append, and each
    [$out] goes to a collection its guard has just found empty. *)
Theorem main_keeps_every_document (w : world) (c : string) :
  exists extra, db (final (main w)) c = db w c ++ extra.
Proof.
  revert c. change (extends (db w) (db (final (main w)))).
  unfold main, populate_statistics_if_needed.
  destruct (raw_load_any w) as (t1 & _ & _ & X1). revert X1. rewrite bind_run.
  destruct (populate_data_if_needed "users" "movies" "ratings" w) as [[] w1 | e w1];
    cbn [final]; intros X1; [| exact X1].
  destruct (populate_join_extends "ratings" w1) as (w2 & E2 & X2 & _).
  destruct (build_stats_extends "ratings_userinfo_genres" "age_genre_rating_stats"
                                "age" 19 w2) as (w3 & E3 & X3 & _).
  destruct (build_stats_extends "ratings_userinfo_genres" "gender_genre_rating_stats"
                                "gender" 19 w3) as (w4 & E4 & X4 & _).
  destruct (build_stats_extends "ratings_userinfo_genres" "occupation_genre_rating_stats"
                                "occupation" 19 w4) as (w5 & E5 & X5 & _).
  rewrite bind_run, E2.
  rewrite (bind_run (_ ;; _)), bind_run, E3, bind_run, E4, E5.
  rewrite db_final_then_print.
  destruct (plot_statistics_frame "age_genre_rating_stats" "gender_genre_rating_stats"
              "occupation_genre_rating_stats" genre_labels w5) as [(Hdb & _) _].
  rewrite Hdb.
  eauto using extends_trans.
Qed.

(** *** The raw load, run twice *)

Lemma nonempty_app {A} (l l' : list A) : nonempty l = true -> nonempty (l ++ l') = true.
Proof. now destruct l. Qed.

Lemma extends_nonempty d d' c : extends d d' -> nonempty (d c) = true -> nonempty (d' c) = true.
Proof. intros H Hn. destruct (H c) as [e ->]. now apply nonempty_app. Qed.

Lemma after_insert_nonempty wf col docs d :
  docs <> [] -> wf col = None -> nonempty (after_insert wf col docs d col) = true.
Proof.
  intros Hd Hf. rewrite after_insert_same by assumption.
  destruct (d col); [destruct docs; [contradiction | reflexivity] | reflexivity].
Qed.

Lemma load_store_populated files wf u m r d :
  files users_request <> [] -> files movies_request <> [] -> files ratings_request <> [] ->
  wf u = None -> wf m = None -> wf r = None ->
  all_populated (load_store files wf u m r d) u m r = true.
Proof.
  intros Hu Hm Hr Fu Fm Fr. unfold all_populated, load_store.
  assert (Ru : users_records files <> [])
    by (unfold users_records; destruct (files users_request); [contradiction | discriminate]).
  assert (Rm : movies_records files <> [])
    by (unfold movies_records; destruct (files movies_request); [contradiction | discriminate]).
  assert (Rr : ratings_records files <> [])
    by (unfold ratings_records; destruct (files ratings_request); [contradiction | discriminate]).
  rewrite (after_insert_nonempty wf r) by assumption.
  rewrite (extends_nonempty _ _ m (after_insert_extends wf r _ _)
             (after_insert_nonempty wf m _ _ Rm Fm)).
  rewrite (extends_nonempty _ _ u
             (extends_trans _ _ _ (after_insert_extends wf m _ _) (after_insert_extends wf r _ _))
             (after_insert_nonempty wf u _ _ Ru Fu)).
  reflexivity.
Qed.

Lemma all_populated_parts d u m r :
  all_populated d u m r = true -> d u <> [] /\ d m <> [] /\ d r <> [].
Proof.
  unfold all_populated. intros H. apply andb_prop in H as [H H3].
  apply andb_prop in H as [H1 H2].
  repeat split; intros E; rewrite E in *; discriminate.
Qed.

(** Property X2.  When the three flat files are rectangular, each has at
    least one row and no insert fails, [populate_data_if_needed] leaves users, movies and
    ratings non-empty, so that a second call right after it takes the three
    counts, prints the skip message and reads and inserts nothing. *)
Theorem load_of_nonempty_files_is_not_repeated (u m r : string) (w : world) :
  well_shaped (csv_tables w) = true ->
  csv_tables w users_request <> [] ->
  csv_tables w movies_request <> [] ->
  csv_tables w ratings_request <> [] ->
  write_fault w u = None -> write_fault w m = None -> write_fault w r = None ->
  exists w1,
    populate_data_if_needed u m r w = Ok tt w1
    /\ db w1 u <> [] /\ db w1 m <> [] /\ db w1 r <> []
    /\ populate_data_if_needed u m r w1
       = Ok tt {| csv_tables := csv_tables w1; write_fault := write_fault w1; db := db w1;
                  trace := trace w1 ++ [ECount u; ECount m; ECount r;
                    EPrint "Data already exists in MongoDB collections. Skipping data load."] |}.
Proof.
  intros Hs Hu Hm Hr Fu Fm Fr.
  rewrite populate_data_run by assumption. eexists. split; [reflexivity |].
  match goal with |- ?d u <> [] /\ _ => assert (Hall : all_populated d u m r = true) end.
  { destruct (all_populated (db w) u m r) eqn:Ha; cbn [db]; [assumption |].
    now apply load_store_populated. }
  destruct (all_populated_parts _ _ _ _ Hall) as (P1 & P2 & P3).
  repeat (split; [assumption |]).
  rewrite populate_data_skip by exact Hall. reflexivity.
Qed.

(** Property X3.  When u.user and u.item are rectangular and u.data has no
    row, the insert into ratings is refused
    (an empty list), the warning is printed and ratings stays empty; the
    guard therefore never holds, and a second call loads again: users and
    movies then hold every row of their files twice. *)
Theorem empty_ratings_file_repeats_the_load (w : world) :
  well_shaped (csv_tables w) = true ->
  csv_tables w ratings_request = [] ->
  db w "ratings" = [] ->
  write_fault w "users" = None -> write_fault w "movies" = None ->
  exists w1 w2,
    populate_data_if_needed "users" "movies" "ratings" w = Ok tt w1
    /\ populate_data_if_needed "users" "movies" "ratings" w1 = Ok tt w2
    /\ In (EPrint ("Warning: could not insert into ratings collection: "
                     ++ "documents must be a non-empty list")) (trace w1)
    /\ db w2 "ratings" = []
    /\ db w2 "users"
       = db w "users" ++ users_records (csv_tables w) ++ users_records (csv_tables w)
    /\ db w2 "movies"
       = db w "movies" ++ movies_records (csv_tables w) ++ movies_records (csv_tables w).
Proof.
  intros Hs Hfile Hr Fu Fm.
  assert (Rr : ratings_records (csv_tables w) = []) by (unfold ratings_records; now rewrite Hfile).
  assert (Hload : forall d, d "ratings" = [] ->
            load_store (csv_tables w) (write_fault w) "users" "movies" "ratings" d "ratings" = []
            /\ load_store (csv_tables w) (write_fault w) "users" "movies" "ratings" d "users"
               = d "users" ++ users_records (csv_tables w)
            /\ load_store (csv_tables w) (write_fault w) "users" "movies" "ratings" d "movies"
               = d "movies" ++ movies_records (csv_tables w)).
  { intros d Hd. unfold load_store. rewrite Rr. cbn [after_insert].
    rewrite (after_insert_other _ "movies" _ _ "ratings") by discriminate.
    rewrite (after_insert_other _ "users" _ _ "ratings") by discriminate.
    rewrite (after_insert_other _ "movies" _ _ "users") by discriminate.
    rewrite !after_insert_same by assumption.
    rewrite (after_insert_other _ "users" _ _ "movies") by discriminate.
    auto. }
  assert (Hguard : forall d, d "ratings" = [] -> all_populated d "users" "movies" "ratings" = false).
  { intros d Hd. unfold all_populated. rewrite Hd. cbn. apply andb_false_r. }
  rewrite populate_data_run, (Hguard _ Hr) by assumption.
  destruct (Hload _ Hr) as (L1r & L1u & L1m).
  eexists. eexists. split; [reflexivity |].
  rewrite populate_data_run by assumption. cbn [db csv_tables write_fault trace].
  rewrite (Hguard _ L1r).
  destruct (Hload _ L1r) as (L2r & L2u & L2m).
  split; [reflexivity |]. cbn [db trace]. split; [| split; [| split]].
  - apply in_or_app. right. apply in_or_app. right.
    unfold load_events. rewrite Rr. cbn [insert_error warning].
    rewrite !in_app_iff. do 5 right. left. cbn. left. reflexivity.
  - exact L2r.
  - rewrite L2u, L1u, <- app_assoc. reflexivity.
  - rewrite L2m, L1m, <- app_assoc. reflexivity.
Qed.

(** *** The columns of the flat files *)

(** Property X4.  A row of u.item with at least 24 cells becomes a movie
    document of exactly 24 fields, all among the names of line 27: movie_id
    is its first cell, title its second, and genre_i is cell 5 + i for every
    i below 19; cells past the 24th are dropped. *)
Theorem movie_record_columns (files : tables) (row : list value) :
  In row (files movies_request) ->
  (24 <= List.length row)%nat ->
  exists d,
    In d (movies_records files)
    /\ List.length d = 24%nat
    /\ doc_get "movie_id" d = nth_error row 0
    /\ doc_get "title" d = nth_error row 1
    /\ (forall i, 0 <= i < 19 ->
                  doc_get (genre_field i) d = nth_error row (Z.to_nat (5 + i)))
    /\ (forall k v, doc_get k d = Some v -> In k movies_names).
Proof.
  intros Hin Hlen. exists (combine movies_names (firstn 24 row)).
  split; [unfold movies_records; apply in_map_iff; now exists row |].
  do 24 (destruct row as [| ? row]; [cbn in Hlen; lia |]).
  split; [reflexivity |]. split; [reflexivity |]. split; [reflexivity |]. split.
  - intros i Hi.
    assert (Hc : i = 0 \/ i = 1 \/ i = 2 \/ i = 3 \/ i = 4 \/ i = 5 \/ i = 6 \/ i = 7
                 \/ i = 8 \/ i = 9 \/ i = 10 \/ i = 11 \/ i = 12 \/ i = 13 \/ i = 14
                 \/ i = 15 \/ i = 16 \/ i = 17 \/ i = 18) by lia.
    repeat (destruct Hc as [-> | Hc]; [reflexivity |]). subst i. reflexivity.
  - intros k w. cbn [firstn combine movies_names doc_get].
    repeat match goal with
           | |- (if String.eqb ?a k then _ else _) = _ -> _ =>
               destruct (String.eqb_spec a k) as [<- | _];
               [intros _; cbn; tauto |]
           end.
    discriminate.
Qed.

(** *** The size of the join *)

Lemma distinct_keys_matching field docs :
  distinct_keys field docs = true ->
  forall key, (List.length (matching field key docs) <= 1)%nat.
Proof.
  induction docs as [| a rest IH]; intros Hd key; [cbn; lia |].
  cbn [distinct_keys] in Hd. apply andb_prop in Hd as [Ha Hrest].
  unfold matching in *. cbn [filter].
  destruct (value_eqb (Mongo.lookup_key field a) key) eqn:Ea; [| now apply IH].
  fold (matching field key rest). rewrite matching_none; [cbn; lia |].
  intros f Hf. rewrite forallb_forall in Ha. specialize (Ha f Hf).
  destruct (value_eqb (Mongo.lookup_key field f) key) eqn:Ef; [| reflexivity].
  rewrite (value_eqb_trans _ key _ Ef) in Ha; [discriminate |].
  now rewrite value_eqb_sym.
Qed.

Lemma length_flat_map_const {A B} (f : A -> list B) (n : nat) (l : list A) :
  (forall a, In a l -> List.length (f a) = n) ->
  List.length (flat_map f l) = (List.length l * n)%nat.
Proof.
  induction l as [| a l IH]; intros H; [reflexivity |].
  cbn [flat_map List.length]. rewrite length_app, (H a (or_introl eq_refl)), IH; [lia |].
  intros b Hb. apply H. now right.
Qed.

Lemma length_joined_for d rt :
  List.length (joined_for d rt)
  = (List.length (matching "user_id" (Mongo.lookup_key "user_id" rt) (d "users"))
     * List.length (matching "movie_id" (Mongo.lookup_key "movie_id" rt) (d "movies")))%nat.
Proof.
  unfold joined_for. apply length_flat_map_const. intros u _. apply length_map.
Qed.

Lemma matching_some field key from f :
  In f from -> value_eqb (Mongo.lookup_key field f) key = true ->
  matching field key from <> [].
Proof.
  intros Hin He Hm. assert (Hf : In f (matching field key from))
    by (unfold matching; apply filter_In; auto).
  rewrite Hm in Hf. destruct Hf.
Qed.

(** Property X5.  When no two users share a user_id and no two movies share a
    movie_id, the join yields at most one document per rating, hence no
    more documents than ratings, and exactly as many as ratings when every
    rating has a user and a movie. *)
Theorem unique_ids_give_one_document_per_rating (d : store_state) (rs : list doc) :
  distinct_keys "user_id" (d "users") = true ->
  distinct_keys "movie_id" (d "movies") = true ->
  (forall rt, (List.length (joined_for d rt) <= 1)%nat)
  /\ (List.length (join_stages d rs) <= List.length rs)%nat
  /\ ((forall rt, In rt rs ->
         (exists u, In u (d "users")
                    /\ value_eqb (Mongo.lookup_key "user_id" u)
                                 (Mongo.lookup_key "user_id" rt) = true)
         /\ (exists m, In m (d "movies")
                       /\ value_eqb (Mongo.lookup_key "movie_id" m)
                                    (Mongo.lookup_key "movie_id" rt) = true)) ->
      List.length (join_stages d rs) = List.length rs).
Proof.
  intros Hu Hm.
  assert (H1 : forall rt, (List.length (joined_for d rt) <= 1)%nat).
  { intros rt. rewrite length_joined_for.
    pose proof (distinct_keys_matching _ _ Hu (Mongo.lookup_key "user_id" rt)).
    pose proof (distinct_keys_matching _ _ Hm (Mongo.lookup_key "movie_id" rt)). nia. }
  split; [exact H1 |]. rewrite join_stages_flat. split.
  - induction rs as [| rt rs IH]; [cbn; lia |].
    cbn [flat_map List.length]. rewrite length_app. specialize (H1 rt). lia.
  - intros Hall. induction rs as [| rt rs IH]; [reflexivity |].
    cbn [flat_map List.length]. rewrite length_app, IH by (intros; apply Hall; now right).
    destruct (Hall rt (or_introl eq_refl)) as [(u & Hiu & Eu) (m & Him & Em)].
    pose proof (matching_some _ _ _ _ Hiu Eu) as Nu.
    pose proof (matching_some _ _ _ _ Him Em) as Nm.
    pose proof (distinct_keys_matching _ _ Hu (Mongo.lookup_key "user_id" rt)) as Lu.
    pose proof (distinct_keys_matching _ _ Hm (Mongo.lookup_key "movie_id" rt)) as Lm.
    rewrite length_joined_for.
    destruct (matching "user_id" _ (d "users")) as [| ? [| ? ?]];
      [contradiction | | cbn in Lu; lia].
    destruct (matching "movie_id" _ (d "movies")) as [| ? [| ? ?]];
      [contradiction | | cbn in Lm; lia].
    reflexivity.
Qed.

(** Property X6.  When every user is stored twice (as after a repeated raw
    load), each rating is joined twice: the join over the doubled users has
    twice the documents of the join over the users stored once. *)
Theorem duplicated_users_double_the_join (d d' : store_state) (rs : list doc) :
  d' "users" = d "users" ++ d "users" ->
  d' "movies" = d "movies" ->
  (forall rt, joined_for d' rt = joined_for d rt ++ joined_for d rt)
  /\ List.length (join_stages d' rs) = (2 * List.length (join_stages d rs))%nat.
Proof.
  intros Hu Hm.
  assert (H1 : forall rt, joined_for d' rt = joined_for d rt ++ joined_for d rt).
  { intros rt. unfold joined_for, matching. rewrite Hu, Hm, filter_app, flat_map_app.
    reflexivity. }
  split; [exact H1 |]. rewrite !join_stages_flat.
  induction rs as [| rt rs IH]; [reflexivity |].
  cbn [flat_map]. rewrite !length_app, IH, H1, length_app. lia.
Qed.

(** *** The statistics *)

Lemma g_count_add_rating g r : g_count (add_rating g r) = g_count g + 1.
Proof. unfold add_rating. destruct r as [v |]; [destruct (numeric v) |]; reflexivity. Qed.

Lemma total_count_accumulate x G : total_count (accumulate x G) = total_count G + 1.
Proof.
  induction G as [| g G IH]; cbn [accumulate].
  - cbn [total_count fold_right]. rewrite g_count_add_rating. cbn. lia.
  - destruct (same_group g _ _).
    + change (g_count (add_rating g (snd (fst x))) + total_count G
              = g_count g + total_count G + 1).
      rewrite g_count_add_rating. lia.
    + change (g_count g + total_count (accumulate x G) = g_count g + total_count G + 1).
      rewrite IH. lia.
Qed.

Lemma total_count_group_stage l : total_count (group_stage l) = Z.of_nat (List.length l).
Proof.
  induction l as [| x l IH] using rev_ind; [reflexivity |].
  rewrite group_stage_snoc, total_count_accumulate, IH, length_app. cbn [List.length]. lia.
Qed.

Lemma length_filter_map {A B} (p : B -> bool) (f : A -> B) (l : list A) :
  List.length (filter p (map f l)) = List.length (filter (fun a => p (f a)) l).
Proof.
  induction l as [| a l IH]; [reflexivity |]. cbn [map filter].
  destruct (p (f a)); cbn [List.length]; now rewrite IH.
Qed.

Lemma length_flagged gf n src :
  List.length (filter (fun x : flagged => flag_is_one (snd (snd x))) (unwind_flags gf n src))
  = List.length (flat_map (flagged_indices n) src).
Proof.
  induction src as [| d src IH]; [reflexivity |].
  rewrite unwind_flags_cons, filter_app, !length_app, IH. cbn [flat_map].
  rewrite length_app. f_equal. unfold flagged_indices.
  apply (length_filter_map (fun x : flagged => flag_is_one (snd (snd x)))
           (entry_of (doc_get gf d) (doc_get "rating" d)
                     (fun j => doc_get (genre_field j) d))).
Qed.

Lemma stat_groups_total gf n src :
  total_count (stat_groups gf n src) = Z.of_nat (List.length (flat_map (flagged_indices n) src)).
Proof. unfold stat_groups. now rewrite total_count_group_stage, length_flagged. Qed.

Lemma build_stats_open s t g n w :
  db w t = [] -> write_fault w t = None ->
  build_and_insert_stats s t g n w
  = Ok tt {| csv_tables := csv_tables w; write_fault := write_fault w;
             db := after_out t (stats_stages g n (db w) (db w s)) (db w);
             trace := trace w ++ [ECount t; EAggregate s t;
                EPrint ("Statistics for " ++ g ++ " inserted into " ++ t ++ ".")] |}.
Proof. intros He Hf. rewrite build_stats_run, He, Hf. reflexivity. Qed.

(** Property X7.  When the target is empty and the aggregation does not fail,
    the [count] fields of the buckets [build_and_insert_stats] writes add up
    to the number of pairs (source document, genre index below
    [genre_count] whose flag is 1): no rating is lost or counted twice for a
    genre. *)
Theorem statistics_counts_add_up (s t g : string) (n : Z) (w : world) :
  db w t = [] -> write_fault w t = None ->
  exists w' rows,
    build_and_insert_stats s t g n w = Ok tt w'
    /\ db w' t = map (reshape g) rows
    /\ total_count rows
       = Z.of_nat (List.length (flat_map (flagged_indices n) (db w s))).
Proof.
  intros He Hf. rewrite (build_stats_open s t g n w He Hf).
  eexists. exists (stat_groups g n (db w s)). split; [reflexivity |].
  cbn [db]. rewrite after_out_same. split; [reflexivity | apply stat_groups_total].
Qed.

Lemma Qsum_between (qs : list Q) (lo hi : Q) :
  (forall q, In q qs -> lo <= q <= hi)%Q ->
  (inject_Z (Z.of_nat (List.length qs)) * lo <= Qsum qs
   /\ Qsum qs <= inject_Z (Z.of_nat (List.length qs)) * hi)%Q.
Proof.
  induction qs as [| q qs IH] using rev_ind; intros H.
  - cbn. split; rewrite Qmult_0_l; apply Qle_refl.
  - rewrite Qsum_snoc, length_app. cbn [List.length].
    rewrite Nat.add_1_r, Nat2Z.inj_succ, <- Z.add_1_r, inject_Z_plus.
    destruct IH as [L U]; [intros q' Hq'; apply H, in_or_app; now left |].
    destruct (H q) as [Lq Uq]; [apply in_or_app; right; now left |].
    split.
    + setoid_replace ((inject_Z (Z.of_nat (List.length qs)) + inject_Z 1) * lo)%Q
        with (inject_Z (Z.of_nat (List.length qs)) * lo + lo)%Q by ring.
      now apply Qplus_le_compat.
    + setoid_replace ((inject_Z (Z.of_nat (List.length qs)) + inject_Z 1) * hi)%Q
        with (inject_Z (Z.of_nat (List.length qs)) * hi + hi)%Q by ring.
      now apply Qplus_le_compat.
Qed.

Lemma mean_between (qs : list Q) (lo hi : Q) :
  qs <> [] -> (forall q, In q qs -> lo <= q <= hi)%Q -> (lo <= mean qs <= hi)%Q.
Proof.
  intros Hne H. destruct (Qsum_between qs lo hi H) as [L U]. unfold mean.
  assert (Hpos : (0 < inject_Z (Z.of_nat (List.length qs)))%Q).
  { rewrite <- (Zlt_Qlt 0). destruct qs; [contradiction | cbn [List.length]; lia]. }
  split.
  - apply Qle_shift_div_l; [assumption |]. now rewrite Qmult_comm.
  - apply Qle_shift_div_r; [assumption |]. now rewrite Qmult_comm.
Qed.

Lemma round_3_between (q : Q) (lo hi : Z) :
  (inject_Z lo <= q <= inject_Z hi)%Q ->
  (inject_Z lo <= Mongo.round q 3 <= inject_Z hi)%Q.
Proof.
  intros [L U]. unfold Mongo.round.
  change (10 ^ 3) with 1000. change (Z.to_pos 1000) with 1000%positive.
  set (z := Mongo.round_half_even (q * inject_Z 1000)).
  rewrite Qred_correct.
  pose proof (round_half_even_near (q * inject_Z 1000)) as H. cbv zeta in H. fold z in H.
  destruct q as [a b]. cbn [Qnum Qden Qmult inject_Z] in H.
  unfold Qle in *. cbn [Qnum Qden inject_Z] in *. split; nia.
Qed.

Lemma numeric_ratings_int (ds : list doc) (lo hi : Z) :
  (forall d, In d ds -> exists z, doc_get "rating" d = Some (VInt z) /\ lo <= z <= hi) ->
  List.length (numeric_ratings ds) = List.length ds
  /\ forall q, In q (numeric_ratings ds) -> (inject_Z lo <= q <= inject_Z hi)%Q.
Proof.
  induction ds as [| d ds IH]; intros H; [split; [reflexivity | intros q []] |].
  destruct (H d (or_introl eq_refl)) as (z & Ez & Hz).
  destruct IH as [Il Ib]; [intros d' Hd'; apply H; now right |].
  unfold numeric_ratings in *. cbn [flat_map]. rewrite Ez. cbn [rating_number numeric app].
  split; [cbn [List.length]; now rewrite Il |].
  intros q [<- | Hq]; [| now apply Ib].
  rewrite <- !Zle_Qle. lia.
Qed.

(** Property X8.  When every source document has an integer rating between
    [lo] and [hi], every bucket [build_and_insert_stats] writes carries a
    numeric [avg_rating] (never null) that lies between [lo] and [hi], also
    after rounding to 3 decimals.  The ratings are required to be small
    enough for a thousand times any sum of them to stay within 2^53: there
    sums and the scaling by 1000 are exact in doubles, and division and
    rounding, being monotone and exact on [lo] and [hi], keep the stored
    double within the same bounds as the exact mean the embedding
    computes. *)
Theorem averages_stay_within_the_ratings (s t g : string) (n lo hi : Z) (w : world) :
  db w t = [] -> write_fault w t = None ->
  (forall d, In d (db w s) ->
             exists z, doc_get "rating" d = Some (VInt z) /\ lo <= z <= hi) ->
  1000 * (Z.of_nat (List.length (db w s)) * Z.max (Z.abs lo) (Z.abs hi)) <= 2 ^ 53 ->
  exists w' rows,
    build_and_insert_stats s t g n w = Ok tt w'
    /\ db w' t = map (reshape g) rows
    /\ forall row, In row rows ->
         exists q, round_value (avg_value row) 3 = VDbl q
                   /\ (inject_Z lo <= q <= inject_Z hi)%Q.
Proof.
  intros He Hf Hr _. rewrite (build_stats_open s t g n w He Hf).
  eexists. exists (stat_groups g n (db w s)). split; [reflexivity |].
  cbn [db]. rewrite after_out_same. split; [reflexivity |].
  intros row Hrow.
  destruct (stat_groups_spec g n (db w s)) as [Hrows _].
  destruct (Hrows row Hrow) as (_ & Hne & _ & Havg).
  set (ms := members g (g_key row) (g_index row) (db w s)) in *.
  destruct (numeric_ratings_int ms lo hi) as [Hl Hb].
  { intros d Hd. apply Hr. unfold ms, members in Hd. now apply filter_In in Hd. }
  rewrite Havg. destruct (numeric_ratings ms) as [| q0 qs] eqn:Eq.
  - destruct ms; [contradiction | discriminate].
  - eexists. split; [reflexivity |]. apply round_3_between, mean_between; [discriminate | exact Hb].
Qed.

Lemma flat_map_nil {A B} (f : A -> list B) (l : list A) :
  (forall a, In a l -> f a = []) -> flat_map f l = [].
Proof.
  induction l as [| a l IH]; intros H; [reflexivity |].
  cbn [flat_map]. rewrite (H a (or_introl eq_refl)), IH; [reflexivity |].
  intros b Hb. apply H. now right.
Qed.

Lemma stat_groups_none gf n src :
  (forall d, In d src -> flagged_indices n d = []) -> stat_groups gf n src = [].
Proof.
  intros H.
  assert (E : filter (fun x : flagged => flag_is_one (snd (snd x))) (unwind_flags gf n src)
              = []).
  { apply length_zero_iff_nil. now rewrite length_flagged, (flat_map_nil _ _ H). }
  change (group_stage (filter (fun x : flagged => flag_is_one (snd (snd x)))
                              (unwind_flags gf n src)) = []).
  now rewrite E.
Qed.

(** Property X9.  When no source document is flagged for any genre below
    [genre_count] (an empty source included), [build_and_insert_stats]
    writes an empty target and still prints that the statistics were
    inserted; the guard then finds the target empty again, so the next call
    runs the aggregation once more instead of skipping. *)
Theorem statistics_without_flags_are_rebuilt_every_time (s t g : string) (n : Z) (w : world) :
  db w t = [] -> write_fault w t = None ->
  (forall d, In d (db w s) -> flagged_indices n d = []) ->
  exists w1 w2,
    build_and_insert_stats s t g n w = Ok tt w1
    /\ build_and_insert_stats s t g n w1 = Ok tt w2
    /\ (forall c, db w2 c = db w c)
    /\ trace w2 = trace w
                  ++ [ECount t; EAggregate s t;
                      EPrint ("Statistics for " ++ g ++ " inserted into " ++ t ++ ".");
                      ECount t; EAggregate s t;
                      EPrint ("Statistics for " ++ g ++ " inserted into " ++ t ++ ".")].
Proof.
  intros He Hf Hnone. rewrite (build_stats_open s t g n w He Hf).
  unfold stats_stages. rewrite (stat_groups_none g n _ Hnone). cbn [map].
  assert (Hsame : forall c, after_out t [] (db w) c = db w c).
  { intros c. unfold after_out. destruct (String.eqb_spec c t) as [-> | _]; now rewrite ?He. }
  eexists. eexists. split; [reflexivity |].
  rewrite build_stats_open; cbn [db write_fault csv_tables trace];
    [| apply after_out_same | assumption].
  split; [reflexivity |]. cbn [db trace]. unfold stats_stages.
  rewrite Hsame, (stat_groups_none g n _ Hnone). cbn [map]. split.
  - intros c. unfold after_out at 1. destruct (String.eqb_spec c t) as [-> | _];
      [now rewrite He | apply Hsame].
  - now rewrite <- app_assoc.
Qed.

Lemma built_after_out w t docs s' t' f tr :
  t' <> t -> s' <> t ->
  built {| csv_tables := csv_tables w; write_fault := write_fault w;
           db := after_out t docs (db w); trace := tr |} s' t' f
  = built w s' t' f.
Proof.
  intros Ht Hs. unfold built, stats_stages. cbn [db write_fault].
  now rewrite !after_out_other by assumption.
Qed.

Lemma build_stats_built s t g w :
  exists w', build_and_insert_stats s t g 19 w = Ok tt w'
             /\ write_fault w' = write_fault w
             /\ db w' t = built w s t g
             /\ (forall c, c <> t -> db w' c = db w c)
             /\ (forall s' t' f, t' <> t -> s' <> t -> built w' s' t' f = built w s' t' f).
Proof.
  rewrite build_stats_run. unfold built. eexists. split; [reflexivity |].
  destruct (nonempty (db w t)) eqn:Hn; cbn [db write_fault]; [now repeat split |].
  destruct (write_fault w t) eqn:Hf; cbn [db write_fault]; [now repeat split |].
  split; [reflexivity |]. split; [apply after_out_same |]. split.
  - intros c Hc. now apply after_out_other.
  - intros s' t' f Ht Hs. unfold stats_stages. now rewrite !after_out_other by assumption.
Qed.

Lemma populate_statistics_built (src a g o : string) (w : world) :
  a <> g -> a <> o -> g <> o -> src <> a -> src <> g -> src <> o ->
  exists w',
    populate_statistics_if_needed src a g o w = Ok tt w'
    /\ db w' a = built w src a "age"
    /\ db w' g = built w src g "gender"
    /\ db w' o = built w src o "occupation"
    /\ forall c, c <> a -> c <> g -> c <> o -> db w' c = db w c.
Proof.
  intros Hag Hao Hgo Hsa Hsg Hso. unfold populate_statistics_if_needed.
  destruct (build_stats_built src a "age" w) as (w1 & E1 & F1 & T1 & O1 & B1).
  destruct (build_stats_built src g "gender" w1) as (w2 & E2 & F2 & T2 & O2 & B2).
  destruct (build_stats_built src o "occupation" w2) as (w3 & E3 & F3 & T3 & O3 & B3).
  exists w3. rewrite bind_run, E1, bind_run, E2. split; [exact E3 |].
  split; [| split; [| split]].
  - rewrite O3, O2 by congruence. exact T1.
  - rewrite O3 by congruence. rewrite T2. apply B1; congruence.
  - rewrite T3, B2, B1 by congruence. reflexivity.
  - intros c Ca Cg Co. now rewrite O3, O2, O1.
Qed.

Lemma build_final_built (s t f : string) (w : world) :
  db (final (build_and_insert_stats s t f 19 w)) t = built w s t f.
Proof.
  destruct (build_stats_built s t f w) as (w' & E & _ & T & _). now rewrite E.
Qed.

(** Property X10.  With pairwise different targets, none of them the source,
    [populate_statistics_if_needed] leaves in each target what a single
    [build_and_insert_stats] for that target would leave when run on the
    initial store, and changes no other collection: the three builds do not
    influence one another. *)
Theorem the_three_statistics_are_independent (src a g o : string) (w : world) :
  a <> g -> a <> o -> g <> o -> src <> a -> src <> g -> src <> o ->
  exists w',
    populate_statistics_if_needed src a g o w = Ok tt w'
    /\ db w' a = db (final (build_and_insert_stats src a "age" 19 w)) a
    /\ db w' g = db (final (build_and_insert_stats src g "gender" 19 w)) g
    /\ db w' o = db (final (build_and_insert_stats src o "occupation" 19 w)) o
    /\ forall c, c <> a -> c <> g -> c <> o -> db w' c = db w c.
Proof.
  intros Hag Hao Hgo Hsa Hsg Hso.
  destruct (populate_statistics_built src a g o w Hag Hao Hgo Hsa Hsg Hso)
    as (w' & R & Ba & Bg & Bo & O).
  exists w'. rewrite !build_final_built. auto.
Qed.

(** *** The whole run *)

Lemma populate_data_frame (w : world) :
  all_populated (db w) "users" "movies" "ratings" = true
  \/ well_shaped (csv_tables w) = true ->
  exists w' t,
    populate_data_if_needed "users" "movies" "ratings" w = Ok tt w'
    /\ trace w' = trace w ++ t
    /\ write_fault w' = write_fault w /\ csv_tables w' = csv_tables w
    /\ forall c, c <> "users" -> c <> "movies" -> c <> "ratings" -> db w' c = db w c.
Proof.
  intros H. rewrite populate_data_cases.
  destruct (all_populated (db w) "users" "movies" "ratings");
    [| destruct H as [H | H]; [discriminate |];
       rewrite load_outcome_well_shaped by assumption];
    eexists; eexists; (split; [reflexivity |]); cbn [db write_fault csv_tables trace];
    (split; [reflexivity |]); (split; [reflexivity |]); (split; [reflexivity |]).
  - reflexivity.
  - apply load_store_main.
Qed.

Lemma populate_join_frame (c r : string) (w : world) :
  exists w' t,
    populate_user_movie_info_if_needed c r w = Ok tt w'
    /\ trace w' = trace w ++ t
    /\ write_fault w' = write_fault w /\ csv_tables w' = csv_tables w
    /\ forall c', c' <> "ratings_userinfo_genres" -> db w' c' = db w c'.
Proof.
  rewrite populate_join_run.
  destruct (nonempty (db w c)); [| destruct (write_fault w "ratings_userinfo_genres")];
    eexists; eexists; (split; [reflexivity |]); cbn [db write_fault csv_tables trace];
    (split; [reflexivity |]); (split; [reflexivity |]); (split; [reflexivity |]);
    intros c' Hc'; [reflexivity | reflexivity | now apply after_out_other].
Qed.

Lemma build_stats_failed (s t g : string) (n : Z) (f : fault) (w : world) :
  db w t = [] -> write_fault w t = Some f ->
  build_and_insert_stats s t g n w
  = Ok tt {| csv_tables := csv_tables w; write_fault := write_fault w; db := db w;
             trace := trace w ++ [ECount t; EAggregate s t;
                EPrint ("Error creating stats for " ++ g ++ ": " ++ message f)] |}.
Proof. intros He Hf. rewrite build_stats_run, He, Hf. reflexivity. Qed.

Lemma plot_category_empty col field tg labels html w :
  db w col = [] ->
  plot_category col field tg labels html w
  = Ok tt {| csv_tables := csv_tables w; write_fault := write_fault w; db := db w;
             trace := trace w ++ [EFind col] |}.
Proof. intros He. unfold plot_category. run. rewrite He. reflexivity. Qed.

(** Property X11.  When the raw load returns (the raw collections are
    populated, or the flat files are rectangular), the three statistics
    collections are empty and every write to them fails, the main program
    still returns normally: each
    failure is printed, the collections stay empty, the chart phase queries
    them and writes no chart file, and the last line printed is
    "All tasks completed successfully.". *)
Theorem main_reports_success_when_statistics_fail (w : world) (fa fg fo : fault) :
  all_populated (db w) "users" "movies" "ratings" = true
  \/ well_shaped (csv_tables w) = true ->
  db w "age_genre_rating_stats" = [] ->
  db w "gender_genre_rating_stats" = [] ->
  db w "occupation_genre_rating_stats" = [] ->
  write_fault w "age_genre_rating_stats" = Some fa ->
  write_fault w "gender_genre_rating_stats" = Some fg ->
  write_fault w "occupation_genre_rating_stats" = Some fo ->
  exists w' t,
    main w = Ok tt w'
    /\ db w' "age_genre_rating_stats" = []
    /\ db w' "gender_genre_rating_stats" = []
    /\ db w' "occupation_genre_rating_stats" = []
    /\ trace w'
       = trace w ++ t
           ++ [ECount "age_genre_rating_stats";
               EAggregate "ratings_userinfo_genres" "age_genre_rating_stats";
               EPrint ("Error creating stats for age: " ++ message fa);
               ECount "gender_genre_rating_stats";
               EAggregate "ratings_userinfo_genres" "gender_genre_rating_stats";
               EPrint ("Error creating stats for gender: " ++ message fg);
               ECount "occupation_genre_rating_stats";
               EAggregate "ratings_userinfo_genres" "occupation_genre_rating_stats";
               EPrint ("Error creating stats for occupation: " ++ message fo);
               EFind "age_genre_rating_stats";
               EFind "gender_genre_rating_stats";
               EFind "occupation_genre_rating_stats";
               EPrint "All tasks completed successfully."].
Proof.
  intros Hload Ea Eg Eo Fa Fg Fo.
  destruct (populate_data_frame w Hload) as (w1 & t1 & R1 & T1 & W1 & _ & D1).
  destruct (populate_join_frame "ratings_userinfo_genres" "ratings" w1)
    as (w2 & t2 & R2 & T2 & W2 & _ & D2).
  assert (K : forall c, c <> "users" -> c <> "movies" -> c <> "ratings" ->
                        c <> "ratings_userinfo_genres" ->
                        db w2 c = db w c /\ write_fault w2 c = write_fault w c).
  { intros c ? ? ? ?. now rewrite D2, D1, W2, W1. }
  destruct (K "age_genre_rating_stats") as [Ka Ja]; try discriminate.
  destruct (K "gender_genre_rating_stats") as [Kg Jg]; try discriminate.
  destruct (K "occupation_genre_rating_stats") as [Ko Jo]; try discriminate.
  rewrite Ea in Ka. rewrite Eg in Kg. rewrite Eo in Ko.
  rewrite Fa in Ja. rewrite Fg in Jg. rewrite Fo in Jo.
  exists {| csv_tables := csv_tables w2; write_fault := write_fault w2; db := db w2;
            trace := trace w ++ (t1 ++ t2)
              ++ [ECount "age_genre_rating_stats";
                  EAggregate "ratings_userinfo_genres" "age_genre_rating_stats";
                  EPrint ("Error creating stats for age: " ++ message fa);
                  ECount "gender_genre_rating_stats";
                  EAggregate "ratings_userinfo_genres" "gender_genre_rating_stats";
                  EPrint ("Error creating stats for gender: " ++ message fg);
                  ECount "occupation_genre_rating_stats";
                  EAggregate "ratings_userinfo_genres" "occupation_genre_rating_stats";
                  EPrint ("Error creating stats for occupation: " ++ message fo);
                  EFind "age_genre_rating_stats";
                  EFind "gender_genre_rating_stats";
                  EFind "occupation_genre_rating_stats";
                  EPrint "All tasks completed successfully."] |}.
  exists (t1 ++ t2). cbn [db trace].
  split; [| now repeat split].
  unfold main, populate_statistics_if_needed, plot_statistics.
  rewrite bind_run, R1, bind_run, R2.
  rewrite (bind_run (_ ;; _)), bind_run.
  rewrite (build_stats_failed _ _ _ _ fa) by assumption.
  rewrite bind_run, (build_stats_failed _ _ _ _ fg) by assumption.
  rewrite (build_stats_failed _ _ _ _ fo) by assumption.
  rewrite (bind_run (_ ;; _)), bind_run, plot_category_empty by assumption.
  rewrite bind_run, plot_category_empty by assumption.
  rewrite plot_category_empty by assumption.
  rewrite print_run. unfold log. cbn [db trace csv_tables write_fault].
  rewrite T2, T1. repeat rewrite <- app_assoc. reflexivity.
Qed.

Lemma stats_stages_written gf n d src : stats_written gf n src (stats_stages gf n d src).
Proof.
  exists (stat_groups gf n src). split; [reflexivity |].
  destruct (stat_groups_spec gf n src) as [Hrows Hone].
  split; [| exact Hone].
  intros row Hrow. destruct (Hrows row Hrow) as (Hi & Hne & Hc & Ha).
  split; [exact Hi |]. split; [exact Hne |].
  unfold reshape, rounded_mean. rewrite Ha, Hc.
  now destruct (numeric_ratings _).
Qed.

Lemma joined_for_ext (d d' : store_state) (rt : doc) :
  d' "users" = d "users" -> d' "movies" = d "movies" -> joined_for d' rt = joined_for d rt.
Proof. intros Hu Hm. unfold joined_for. now rewrite Hu, Hm. Qed.

Lemma built_open (w : world) (s t f : string) :
  db w t = [] -> write_fault w t = None -> built w s t f = stats_stages f 19 (db w) (db w s).
Proof. intros He Hf. unfold built. now rewrite He, Hf. Qed.

(** Property X12.  A run of the main program on an empty store, with flat
    files that are rectangular and no failing write, leaves: in users,
    movies and ratings the records of the three files; in
    ratings_userinfo_genres the join of those ratings with those users and
    movies; in each statistics collection the statistics of that join, for
    age, gender and occupation. *)
Theorem first_run_derives_everything_from_the_files (w : world) :
  well_shaped (csv_tables w) = true ->
  (forall c, db w c = []) ->
  (forall c, write_fault w c = None) ->
  let d := db (final (main w)) in
  d "users" = users_records (csv_tables w)
  /\ d "movies" = movies_records (csv_tables w)
  /\ d "ratings" = ratings_records (csv_tables w)
  /\ join_written d (d "ratings") (d "ratings_userinfo_genres")
  /\ stats_written "age" 19 (d "ratings_userinfo_genres") (d "age_genre_rating_stats")
  /\ stats_written "gender" 19 (d "ratings_userinfo_genres") (d "gender_genre_rating_stats")
  /\ stats_written "occupation" 19 (d "ratings_userinfo_genres")
                   (d "occupation_genre_rating_stats").
Proof.
  intros Hs Hempty Hfault. cbv zeta.
  assert (Hno : all_populated (db w) "users" "movies" "ratings" = false)
    by (unfold all_populated; now rewrite Hempty).
  set (w1 := {| csv_tables := csv_tables w; write_fault := write_fault w;
                db := load_store (csv_tables w) (write_fault w) "users" "movies" "ratings"
                                 (db w);
                trace := trace w ++ guard_probes (db w) "users" "movies" "ratings"
                           ++ load_events (csv_tables w) (write_fault w)
                                          "users" "movies" "ratings" |}).
  assert (R1 : populate_data_if_needed "users" "movies" "ratings" w = Ok tt w1)
    by (now rewrite populate_data_run, Hno by assumption).
  destruct (load_store_main (csv_tables w) (write_fault w) (db w)) as (Lu & Lm & Lr & Lo).
  specialize (Lu (Hfault _)). specialize (Lm (Hfault _)). specialize (Lr (Hfault _)).
  rewrite Hempty in Lu, Lm, Lr. cbn [app] in Lu, Lm, Lr.
  assert (J1 : db w1 "ratings_userinfo_genres" = [])
    by (cbn [w1 db]; rewrite Lo by discriminate; apply Hempty).
  set (w2 := {| csv_tables := csv_tables w1; write_fault := write_fault w1;
                db := after_out "ratings_userinfo_genres"
                                (join_stages (db w1) (db w1 "ratings")) (db w1);
                trace := trace w1 ++ [ECount "ratings_userinfo_genres";
                   EAggregate "ratings" "ratings_userinfo_genres";
                   EPrint "ratings_userinfo_genres has been created and populated."] |}).
  assert (R2 : populate_user_movie_info_if_needed "ratings_userinfo_genres" "ratings" w1
               = Ok tt w2).
  { rewrite populate_join_run, J1. cbn [nonempty].
    replace (write_fault w1 "ratings_userinfo_genres") with (@None fault)
      by (symmetry; apply Hfault).
    reflexivity. }
  assert (D2 : forall c, c <> "ratings_userinfo_genres" -> db w2 c = db w1 c)
    by (intros c Hc; cbn [w2 db]; now apply after_out_other).
  assert (S2 : forall c, c <> "users" -> c <> "movies" -> c <> "ratings" ->
                         c <> "ratings_userinfo_genres" -> db w2 c = []).
  { intros c ? ? ? ?. rewrite D2 by assumption. cbn [w1 db]. rewrite Lo by assumption.
    apply Hempty. }
  destruct (populate_statistics_built "ratings_userinfo_genres" "age_genre_rating_stats"
              "gender_genre_rating_stats" "occupation_genre_rating_stats" w2)
    as (w5 & R5 & Ba & Bg & Bo & O5); try discriminate.
  unfold main. rewrite bind_run, R1, bind_run, R2, bind_run, R5, db_final_then_print.
  destruct (plot_statistics_frame "age_genre_rating_stats" "gender_genre_rating_stats"
              "occupation_genre_rating_stats" genre_labels w5) as [(Hdb & _) _].
  rewrite Hdb.
  rewrite !O5 by discriminate.
  rewrite Ba, Bg, Bo.
  rewrite !built_open by (first [apply S2; discriminate | apply Hfault]).
  rewrite !D2 by discriminate.
  split; [exact Lu |]. split; [exact Lm |]. split; [exact Lr |].
  split; [| repeat split; apply stats_stages_written].
  unfold join_written. cbn [w2 db]. rewrite after_out_same, join_stages_flat.
  apply flat_map_ext. intros rt. symmetry. apply joined_for_ext.
  - rewrite O5 by discriminate. now apply D2.
  - rewrite O5 by discriminate. now apply D2.
Qed.

(** Property X13.  [populate_user_movie_info_if_needed] probes the collection
    it is handed but writes to ratings_userinfo_genres.  Handed another
    collection, it never writes to that one; when that one is empty it
    replaces whatever ratings_userinfo_genres holds by the join, and when it
    is non-empty it leaves ratings_userinfo_genres as it is. *)
Theorem join_guard_and_output_are_different_collections (c r : string) (w : world) :
  c <> "ratings_userinfo_genres" ->
  write_fault w "ratings_userinfo_genres" = None ->
  exists w',
    populate_user_movie_info_if_needed c r w = Ok tt w'
    /\ db w' c = db w c
    /\ (db w c = [] ->
        db w' "ratings_userinfo_genres" = join_stages (db w) (db w r))
    /\ (db w c <> [] ->
        db w' "ratings_userinfo_genres" = db w "ratings_userinfo_genres").
Proof.
  intros Hc Hf. rewrite populate_join_run, Hf. eexists. split; [reflexivity |].
  destruct (db w c) as [| x l] eqn:E; cbn [nonempty db].
  - rewrite after_out_same, after_out_other by assumption.
    split; [assumption |]. split; [reflexivity | intros H; now destruct H].
  - split; [assumption |]. split; [discriminate | reflexivity].
Qed.

(** *** The charts *)

Lemma index_none_iff {A} (l : list A) (i : Z) :
  Py.index l i = None
  <-> i < - Z.of_nat (List.length l) \/ Z.of_nat (List.length l) <= i.
Proof.
  unfold Py.index. destruct (Z.leb_spec 0 i) as [Hi | Hi].
  - rewrite nth_error_None. lia.
  - destruct (Z.leb_spec (- Z.of_nat (List.length l)) i) as [Hn | Hn].
    + rewrite nth_error_None. lia.
    + split; [lia | reflexivity].
Qed.

Lemma with_genre_some labels subset l :
  with_genre labels subset = Some l ->
  forall r, In r subset -> Py.index labels (genre_index r) <> None.
Proof.
  revert l. induction subset as [| x subset IH]; intros l H r Hr; [destruct Hr |].
  cbn [with_genre] in H.
  destruct (Py.index labels (genre_index x)) eqn:Ex; [| discriminate].
  destruct (with_genre labels subset) eqn:Es; [| discriminate].
  destruct Hr as [<- | Hr]; [now rewrite Ex | now apply (IH _ eq_refl)].
Qed.

Lemma chart_loop_raises df labels vals :
  (exists val r, In val vals /\ In r (subset_of df val)
                 /\ Py.index labels (genre_index r) = None) ->
  forall plots w,
    chart_loop df "group" labels vals plots w
    = Raise (IndexError "list index out of range") w.
Proof.
  induction vals as [| v vals IH]; intros (val & r & Hv & Hr & Hi) plots w;
    [destruct Hv |].
  cbn [chart_loop]. rewrite bind_run, chart_pair_run. cbn [String.eqb Ascii.eqb Bool.eqb negb].
  assert (Hrest : v <> val ->
            exists val r, In val vals /\ In r (subset_of df val)
                          /\ Py.index labels (genre_index r) = None).
  { intros Hne. exists val, r. destruct Hv as [-> | Hv]; [contradiction | auto]. }
  destruct (subset_of df v) as [| x s] eqn:Es.
  - apply IH, Hrest. intros ->. rewrite Es in Hr. destruct Hr.
  - destruct (with_genre labels (x :: s)) as [l |] eqn:Eg; [| reflexivity].
    apply IH, Hrest. intros ->. rewrite Es in Hr.
    now apply (with_genre_some _ _ _ Eg r Hr).
Qed.

(** Property X14.  If a row selected by one of the group values has a genre
    index that is not a valid index into the label list (at least its
    length, or below minus its length), [make_bokeh_charts] raises
    IndexError and leaves the world untouched: no chart file is written,
    not even for the group values whose rows are fine. *)
Theorem out_of_range_genre_index_raises (df : list stat_row) (vals labels : list string)
        (html : string) (w : world) (val : string) (r : stat_row) :
  In val vals -> In r df -> group r = val ->
  genre_index r < - Z.of_nat (List.length labels)
  \/ Z.of_nat (List.length labels) <= genre_index r ->
  make_bokeh_charts df "group" vals labels html w
  = Raise (IndexError "list index out of range") w.
Proof.
  intros Hv Hr Hg Hi. unfold make_bokeh_charts. rewrite bind_run, chart_loop_raises;
    [reflexivity |].
  exists val, r. split; [assumption |]. split; [now apply in_subset_of |].
  now apply index_none_iff.
Qed.

Lemma frame_rows_nonempty field tg docs rows :
  frame_rows field tg docs = Some rows -> docs <> [] -> rows <> [].
Proof.
  intros H Hd. destruct (frame_rows_spec _ _ _ _ H) as [Hl _].
  destruct rows; [destruct docs; [contradiction | discriminate] | discriminate].
Qed.

Lemma plot_category_raises col field tg labels html rows r w :
  frame_rows field tg (db w col) = Some rows ->
  In r rows -> Py.index labels (genre_index r) = None ->
  plot_category col field tg labels html w
  = Raise (IndexError "list index out of range")
          {| csv_tables := csv_tables w; write_fault := write_fault w; db := db w;
             trace := trace w ++ [EFind col] |}.
Proof.
  intros Hf Hr Hi. unfold plot_category. run.
  destruct (db w col) as [| d ds] eqn:Ed.
  - cbn in Hf. injection Hf as <-. destruct Hr.
  - unfold frame. rewrite Hf. run. unfold make_bokeh_charts.
    rewrite bind_run, chart_loop_raises; [reflexivity |].
    exists (group r), r. split; [| split; [now apply in_subset_of | assumption]].
    apply in_sorted, in_unique, in_map_iff. now exists r.
Qed.

(** Property X15.  When every collection is populated and an age statistics
    document has a genre index outside the 19 labels, the main program ends
    with IndexError right after querying the age statistics: the gender and
    occupation statistics are not queried, no chart file is written and the
    final message is not printed. *)
Theorem failing_age_charts_stop_the_run (w : world) (rows : list stat_row) (r : stat_row) :
  populated w ->
  frame_rows "age" age_group_of (db w "age_genre_rating_stats") = Some rows ->
  In r rows ->
  genre_index r < -19 \/ 19 <= genre_index r ->
  main w
  = Raise (IndexError "list index out of range")
          {| csv_tables := csv_tables w; write_fault := write_fault w; db := db w;
             trace := trace w ++ skip_trace ++ [EFind "age_genre_rating_stats"] |}.
Proof.
  intros Hp Hf Hr Hi. rewrite main_when_populated by assumption.
  unfold plot_statistics. rewrite bind_run, bind_run.
  rewrite (plot_category_raises _ _ _ _ _ rows r); cbn [db trace csv_tables write_fault].
  - now rewrite <- app_assoc.
  - assumption.
  - assumption.
  - apply index_none_iff. exact Hi.
Qed.

Lemma uint_dash_free u : dash_free (NilEmpty.string_of_uint u) = true.
Proof. induction u; cbn; auto. Qed.

Lemma str_dash_free z : 0 <= z -> dash_free (Py.str z) = true.
Proof.
  intros Hz. destruct z as [| p | p]; [reflexivity | | lia].
  unfold Py.str. cbn [Z.to_int NilZero.string_of_int]. unfold NilZero.string_of_uint.
  destruct (Pos.to_uint p) eqn:E; first [reflexivity | rewrite <- E; apply uint_dash_free].
Qed.

Lemma to_int_proper z : Z.to_int z <> Decimal.Pos Decimal.Nil /\ Z.to_int z <> Decimal.Neg Decimal.Nil.
Proof.
  destruct z as [| p | p]; cbn; split; try discriminate;
    intros [= H]; now apply DecimalPos.Unsigned.to_uint_nonnil in H.
Qed.

Lemma str_inj a b : Py.str a = Py.str b -> a = b.
Proof.
  unfold Py.str. intros H. apply DecimalZ.to_int_inj.
  destruct (to_int_proper a) as [A1 A2]. destruct (to_int_proper b) as [B1 B2].
  pose proof (NilZero.isi _ A1 A2) as Ia. pose proof (NilZero.isi _ B1 B2) as Ib.
  rewrite H in Ia. rewrite Ia in Ib. now injection Ib.
Qed.

Lemma append_dash_inj s1 s2 t1 t2 :
  dash_free s1 = true -> dash_free s2 = true ->
  (s1 ++ String "-" t1 = s2 ++ String "-" t2)%string -> s1 = s2.
Proof.
  revert s2. induction s1 as [| c s1 IH]; intros [| c2 s2] D1 D2 H; cbn in *.
  - reflexivity.
  - injection H as <- _. cbn in D2. discriminate.
  - injection H as -> _. cbn in D1. discriminate.
  - injection H as <- H. apply andb_prop in D1 as [_ D1]. apply andb_prop in D2 as [_ D2].
    f_equal. now apply IH.
Qed.

Lemma age_to_group_from_10 a :
  10 <= a ->
  age_to_group a = (Py.str (a / 10 * 10) ++ String "-" (Py.str (a / 10 * 10 + 9)))%string.
Proof.
  intros Ha. unfold age_to_group. destruct (Z.ltb_spec a 10); [lia | reflexivity].
Qed.

(** Property X16.  Two ages get the same group exactly when they fall in the
    same decade, all ages below 10 (negative ones included) counting as
    decade 0: different decades never share a label. *)
Theorem age_groups_are_the_decades (a b : Z) :
  age_to_group a = age_to_group b <-> decade a = decade b.
Proof.
  unfold decade.
  destruct (Z.ltb_spec a 10) as [Ha | Ha], (Z.ltb_spec b 10) as [Hb | Hb].
  - unfold age_to_group. destruct (Z.ltb_spec a 10), (Z.ltb_spec b 10); try lia. tauto.
  - pose proof (Z.div_le_lower_bound b 10 1 ltac:(lia) ltac:(lia)) as Hd.
    split; [| lia]. intros H. exfalso.
    rewrite (age_to_group_from_10 b Hb) in H.
    unfold age_to_group in H. destruct (Z.ltb_spec a 10); [| lia].
    change "0-9" with (Py.str 0 ++ String "-" "9")%string in H.
    apply append_dash_inj in H; [| reflexivity | apply str_dash_free; lia].
    apply str_inj in H. lia.
  - pose proof (Z.div_le_lower_bound a 10 1 ltac:(lia) ltac:(lia)) as Hd.
    split; [| lia]. intros H. exfalso.
    rewrite (age_to_group_from_10 a Ha) in H.
    unfold age_to_group in H. destruct (Z.ltb_spec b 10); [| lia].
    change "0-9" with (Py.str 0 ++ String "-" "9")%string in H.
    apply append_dash_inj in H; [| apply str_dash_free; lia | reflexivity].
    apply str_inj in H. lia.
  - pose proof (Z.div_le_lower_bound a 10 1 ltac:(lia) ltac:(lia)) as Hda.
    pose proof (Z.div_le_lower_bound b 10 1 ltac:(lia) ltac:(lia)) as Hdb.
    rewrite (age_to_group_from_10 a Ha), (age_to_group_from_10 b Hb). split.
    + intros H. apply append_dash_inj in H; [| apply str_dash_free; lia ..].
      apply str_inj in H. lia.
    + intros ->. reflexivity.
Qed.

Lemma unique_NoDup l : NoDup (Py.unique l).
Proof.
  induction l as [| x l IH]; cbn [Py.unique]; constructor.
  - intros H. apply filter_In in H as [_ H]. now rewrite String.eqb_refl in H.
  - now apply NoDup_filter.
Qed.

Lemma insert_sorted_NoDup x l : ~ In x l -> NoDup l -> NoDup (Py.insert_sorted x l).
Proof.
  induction l as [| y l IH]; intros Hx Hl; cbn [Py.insert_sorted].
  - constructor; [intros [] | constructor].
  - destruct (String.leb x y); [now constructor |].
    inversion Hl as [| ? ? Hy Hl']; subst. constructor.
    + rewrite in_insert_sorted. intros [-> | H]; [apply Hx; now left | contradiction].
    + apply IH; [| assumption]. intros H. apply Hx. now right.
Qed.

Lemma sorted_NoDup l : NoDup l -> NoDup (Py.sorted l).
Proof.
  induction l as [| x l IH]; intros H; [constructor |].
  inversion H; subst. cbn [Py.sorted fold_right].
  apply insert_sorted_NoDup; [| now apply IH]. fold (Py.sorted l). now rewrite in_sorted.
Qed.

Lemma insert_sorted_ascending x l : ascending l -> ascending (Py.insert_sorted x l).
Proof.
  unfold ascending. induction l as [| y l IH]; intros H; cbn [Py.insert_sorted].
  - repeat constructor.
  - destruct (String.leb x y) eqn:E.
    + constructor; [assumption | now constructor].
    + inversion H as [| ? ? Hs Hh]; subst. constructor; [now apply IH |].
      destruct l as [| z l]; cbn [Py.insert_sorted].
      * constructor. destruct (String.leb_total x y) as [T | T]; [congruence | exact T].
      * destruct (String.leb x z).
        -- constructor. destruct (String.leb_total x y) as [T | T]; [congruence | exact T].
        -- inversion Hh; subst. now constructor.
Qed.

Lemma sorted_ascending l : ascending (Py.sorted l).
Proof.
  induction l as [| x l IH]; [constructor |]. now apply insert_sorted_ascending.
Qed.

(** Property X17.  The group values [plot_statistics] hands to
    [make_bokeh_charts], [sorted(column.unique())], are the values of the
    column, each exactly once, in ascending code-point order. *)
Theorem group_values_are_distinct_and_ascending (l : list string) :
  NoDup (Py.sorted (Py.unique l))
  /\ ascending (Py.sorted (Py.unique l))
  /\ forall x, In x (Py.sorted (Py.unique l)) <-> In x l.
Proof.
  split; [apply sorted_NoDup, unique_NoDup |]. split; [apply sorted_ascending |].
  intros x. now rewrite in_sorted, in_unique.
Qed.

Lemma decade_range (a lo hi : Z) :
  0 <= lo -> 10 * lo <= a < 10 * (hi + 1) -> lo <= decade a <= hi.
Proof.
  intros Hlo Ha. unfold decade. destruct (Z.ltb_spec a 10) as [H | H]; [lia |].
  split; [apply Z.div_le_lower_bound; lia | ].
  assert (a / 10 < hi + 1) by (apply Z.div_lt_upper_bound; lia). lia.
Qed.

Lemma decade_mono (a b : Z) : a <= b -> decade a <= decade b.
Proof.
  intros H. unfold decade.
  destruct (Z.ltb_spec a 10), (Z.ltb_spec b 10); try lia.
  - apply Z.div_le_lower_bound; lia.
  - apply Z.div_le_mono; lia.
Qed.

Lemma age_to_group_of_decade a : age_to_group a = age_to_group (10 * decade a).
Proof.
  unfold decade. destruct (Z.ltb_spec a 10) as [H | H].
  - unfold age_to_group. destruct (Z.ltb_spec a 10); [reflexivity | lia].
  - assert (1 <= a / 10) by (apply Z.div_le_lower_bound; lia).
    rewrite (age_to_group_from_10 a H), (age_to_group_from_10 (10 * (a / 10))) by lia.
    rewrite (Z.mul_comm 10 (a / 10)), Z.div_mul by lia. reflexivity.
Qed.

(** Property X18.  Below age 100 the order of the charts follows age: the
    group of a younger age never sorts after the group of an older one. *)
Theorem age_groups_follow_age_below_100 (a b : Z) :
  a <= b -> b < 100 ->
  String.leb (age_to_group a) (age_to_group b) = true.
Proof.
  intros Hab Hb.
  rewrite (age_to_group_of_decade a), (age_to_group_of_decade b).
  pose proof (decade_mono a b Hab) as Hm.
  assert (Ha : 0 <= decade a) by (unfold decade; destruct (Z.ltb_spec a 10);
                                 [lia | apply Z.div_le_lower_bound; lia]).
  assert (Hu : decade b <= 9).
  { unfold decade. destruct (Z.ltb_spec b 10); [lia |].
    assert (b / 10 < 10) by (apply Z.div_lt_upper_bound; lia). lia. }
  set (da := decade a) in *. set (db := decade b) in *.
  assert (Ca : da = 0 \/ da = 1 \/ da = 2 \/ da = 3 \/ da = 4 \/ da = 5 \/ da = 6
               \/ da = 7 \/ da = 8 \/ da = 9) by lia.
  assert (Cb : db = 0 \/ db = 1 \/ db = 2 \/ db = 3 \/ db = 4 \/ db = 5 \/ db = 6
               \/ db = 7 \/ db = 8 \/ db = 9) by lia.
  clearbody da db.
  repeat (destruct Ca as [-> | Ca]); try subst da;
    repeat (destruct Cb as [-> | Cb]); try subst db;
    first [ lia | reflexivity ].
Qed.

(** Property X19.  The groups are sorted as strings: the group of an age from
    100 to 199 sorts before the group of any age from 20 to 99. *)
Theorem ages_from_100_are_charted_before_20 (a b : Z) :
  20 <= a < 100 -> 100 <= b < 200 ->
  String.ltb (age_to_group b) (age_to_group a) = true.
Proof.
  intros Ha Hb.
  rewrite (age_to_group_of_decade a), (age_to_group_of_decade b).
  pose proof (decade_range a 2 9 ltac:(lia) ltac:(lia)) as Ra.
  pose proof (decade_range b 10 19 ltac:(lia) ltac:(lia)) as Rb.
  set (da := decade a) in *. set (db := decade b) in *.
  assert (Ca : da = 2 \/ da = 3 \/ da = 4 \/ da = 5 \/ da = 6
               \/ da = 7 \/ da = 8 \/ da = 9) by lia.
  assert (Cb : db = 10 \/ db = 11 \/ db = 12 \/ db = 13 \/ db = 14 \/ db = 15
               \/ db = 16 \/ db = 17 \/ db = 18 \/ db = 19) by lia.
  clearbody da db.
  repeat (destruct Ca as [-> | Ca]); try subst da;
    repeat (destruct Cb as [-> | Cb]); try subst db;
    reflexivity.
Qed.

Lemma length_subset_of_frame (docs : list doc) (val : string) :
  forall rows,
    frame_rows "age" age_group_of docs = Some rows ->
    List.length (subset_of rows val) = List.length (filter (in_age_group val) docs).
Proof.
  induction docs as [| d docs IH]; intros rows H.
  - cbn in H. injection H as <-. reflexivity.
  - cbn [frame_rows] in H.
    destruct (stat_row_of "age" age_group_of d) as [r |] eqn:Er; [| discriminate].
    destruct (frame_rows "age" age_group_of docs) as [rs |]; [| discriminate].
    injection H as <-. specialize (IH rs eq_refl).
    destruct (stat_row_of_spec _ _ _ _ Er) as (v & Ev & Eg & _).
    unfold subset_of in *. cbn [filter]. unfold in_age_group at 1. rewrite Ev.
    destruct v as [| a | |]; try discriminate. cbn in Eg. injection Eg as Eg.
    rewrite Eg. destruct (String.eqb (group r) val); cbn [List.length]; now rewrite IH.
Qed.

(** Property X20.  The age charts do not aggregate over a decade: each of the
    two figures of a group has one bar per age statistics document whose
    age falls in that group, so a genre has as many bars as the decade has
    distinct ages rated for it. *)
Theorem decade_chart_has_a_bar_per_statistics_document
        (docs : list doc) (rows : list stat_row) (labels : list string) (val : string)
        (fig : figure) :
  frame_rows "age" age_group_of docs = Some rows ->
  In fig (chart_pair_of labels rows val) ->
  List.length (bars fig) = List.length (filter (in_age_group val) docs).
Proof.
  intros Hf Hfig. rewrite <- (length_subset_of_frame docs val rows Hf).
  unfold chart_pair_of in Hfig. cbn [In] in Hfig.
  destruct Hfig as [<- | [<- | []]]; cbn [bars vbar_figure]; unfold labelled;
    now rewrite !length_map.
Qed.

(** ** The further properties on the sample data *)

Lemma load_of_nonempty_files_is_not_repeated_witness :
  exists w1 w2,
    populate_data_if_needed "users" "movies" "ratings" Sample.fresh = Ok tt w1
    /\ populate_data_if_needed "users" "movies" "ratings" w1 = Ok tt w2
    /\ db w2 = db w1
    /\ List.length (db w1 "users") = 3%nat.
Proof.
  destruct (load_of_nonempty_files_is_not_repeated "users" "movies" "ratings" Sample.fresh)
    as (w1 & R1 & _ & _ & _ & R2).
  - vm_compute. reflexivity.
  - vm_compute. discriminate.
  - vm_compute. discriminate.
  - vm_compute. discriminate.
  - reflexivity.
  - reflexivity.
  - reflexivity.
  - exists w1. eexists. split; [exact R1 |]. split; [exact R2 |]. split; [reflexivity |].
    assert (E : Ok tt w1 = Ok tt Sample.loaded) by (rewrite <- R1; vm_compute; reflexivity).
    injection E as ->. vm_compute. reflexivity.
Defined.

Lemma empty_ratings_file_repeats_the_load_witness :
  exists w1 w2,
    populate_data_if_needed "users" "movies" "ratings" Cases.no_ratings_file = Ok tt w1
    /\ populate_data_if_needed "users" "movies" "ratings" w1 = Ok tt w2
    /\ db w2 "ratings" = []
    /\ List.length (db w2 "users") = 6%nat
    /\ List.length (db w2 "movies") = 4%nat.
Proof.
  destruct (empty_ratings_file_repeats_the_load Cases.no_ratings_file)
    as (w1 & w2 & R1 & R2 & _ & Hr & Hu & Hm); try reflexivity.
  exists w1, w2. split; [exact R1 |]. split; [exact R2 |]. split; [exact Hr |].
  rewrite Hu, Hm. vm_compute. auto.
Defined.

Lemma movie_record_columns_witness :
  exists d,
    In d (movies_records Sample.files)
    /\ doc_get "title" d = Some (VStr "Toy Story (1995)")
    /\ doc_get "genre_3" d = Some (VInt 1)
    /\ doc_get "genre_18" d = Some (VInt 0)
    /\ List.length d = 24%nat.
Proof.
  destruct (movie_record_columns Sample.files
              (Sample.movie_row 10 "Toy Story (1995)"
                                [0;0;0;1;1;1;0;0;0;0;0;0;0;0;0;0;0;0;0]))
    as (d & Hin & Hlen & _ & Ht & Hg & _).
  - vm_compute. left. reflexivity.
  - vm_compute. lia.
  - exists d. split; [exact Hin |]. split; [exact Ht |].
    split; [exact (Hg 3 ltac:(lia)) |]. split; [exact (Hg 18 ltac:(lia)) | exact Hlen].
Defined.

Lemma unique_ids_give_one_document_per_rating_witness :
  (List.length (join_stages (db Sample.loaded) (db Sample.loaded "ratings")) <= 6)%nat
  /\ forall rt, (List.length (joined_for (db Sample.loaded) rt) <= 1)%nat.
Proof.
  destruct (unique_ids_give_one_document_per_rating (db Sample.loaded)
              (db Sample.loaded "ratings")) as (H1 & H2 & _).
  - vm_compute. reflexivity.
  - vm_compute. reflexivity.
  - split; [exact H2 | exact H1].
Defined.

Lemma duplicated_users_double_the_join_witness :
  List.length (join_stages Cases.users_twice (db Sample.loaded "ratings")) = 8%nat.
Proof.
  destruct (duplicated_users_double_the_join (db Sample.loaded) Cases.users_twice
              (db Sample.loaded "ratings")) as (_ & H).
  - reflexivity.
  - reflexivity.
  - rewrite H. vm_compute. reflexivity.
Defined.

Lemma statistics_counts_add_up_witness :
  exists w' rows,
    build_and_insert_stats "ratings_userinfo_genres" "age_genre_rating_stats" "age" 19
                           Sample.joined = Ok tt w'
    /\ db w' "age_genre_rating_stats" = map (reshape "age") rows
    /\ total_count rows = 12.
Proof.
  destruct (statistics_counts_add_up "ratings_userinfo_genres" "age_genre_rating_stats"
              "age" 19 Sample.joined) as (w' & rows & R & D & T).
  - reflexivity.
  - reflexivity.
  - exists w', rows. split; [exact R |]. split; [exact D |]. rewrite T. vm_compute.
    reflexivity.
Defined.

Lemma averages_stay_within_the_ratings_witness :
  exists w' rows,
    build_and_insert_stats "ratings_userinfo_genres" "gender_genre_rating_stats" "gender" 19
                           Sample.joined = Ok tt w'
    /\ db w' "gender_genre_rating_stats" = map (reshape "gender") rows
    /\ forall row, In row rows ->
         exists q, round_value (avg_value row) 3 = VDbl q /\ (1 <= q <= 5)%Q.
Proof.
  destruct (averages_stay_within_the_ratings "ratings_userinfo_genres"
              "gender_genre_rating_stats" "gender" 19 1 5 Sample.joined)
    as (w' & rows & R & D & B).
  - reflexivity.
  - reflexivity.
  - intros d Hd. vm_compute in Hd.
    repeat (destruct Hd as [<- | Hd]; [eexists; split; [reflexivity | lia] |]).
    destruct Hd.
  - vm_compute. discriminate.
  - exists w', rows. split; [exact R |]. split; [exact D | exact B].
Defined.

Lemma statistics_without_flags_are_rebuilt_every_time_witness :
  exists w1 w2,
    build_and_insert_stats "ratings_userinfo_genres" "age_genre_rating_stats" "age" 19
                           Cases.unflagged = Ok tt w1
    /\ build_and_insert_stats "ratings_userinfo_genres" "age_genre_rating_stats" "age" 19
                              w1 = Ok tt w2
    /\ db w2 "age_genre_rating_stats" = []
    /\ List.length (filter is_write (trace w2)) = 2%nat.
Proof.
  destruct (statistics_without_flags_are_rebuilt_every_time "ratings_userinfo_genres"
              "age_genre_rating_stats" "age" 19 Cases.unflagged)
    as (w1 & w2 & R1 & R2 & D & T).
  - reflexivity.
  - reflexivity.
  - intros d Hd. vm_compute in Hd. destruct Hd as [<- | []]. vm_compute. reflexivity.
  - exists w1, w2. split; [exact R1 |]. split; [exact R2 |]. split; [apply D |].
    rewrite T. reflexivity.
Defined.

Lemma the_three_statistics_are_independent_witness :
  exists w',
    populate_statistics_if_needed "ratings_userinfo_genres" "age_genre_rating_stats"
      "gender_genre_rating_stats" "occupation_genre_rating_stats" Sample.stale_stats
    = Ok tt w'
    /\ db w' "age_genre_rating_stats" = [Sample.stale_stat]
    /\ List.length (db w' "gender_genre_rating_stats") = 9%nat.
Proof.
  destruct (the_three_statistics_are_independent "ratings_userinfo_genres"
              "age_genre_rating_stats" "gender_genre_rating_stats"
              "occupation_genre_rating_stats" Sample.stale_stats)
    as (w' & R & Ha & Hg & _); try discriminate.
  exists w'. split; [exact R |]. rewrite Ha, Hg. split; vm_compute; reflexivity.
Defined.

Lemma main_reports_success_when_statistics_fail_witness :
  exists w',
    main Sample.stats_fail = Ok tt w'
    /\ db w' "age_genre_rating_stats" = []
    /\ In (EPrint "Error creating stats for age: not authorized") (trace w')
    /\ In (EPrint "All tasks completed successfully.") (trace w').
Proof.
  destruct (main_reports_success_when_statistics_fail Sample.stats_fail
              {| partial := 0; message := "not authorized" |}
              {| partial := 0; message := "not authorized" |}
              {| partial := 0; message := "not authorized" |})
    as (w' & t & R & Da & _ & _ & T); try reflexivity.
  - left. vm_compute. reflexivity.
  - exists w'. split; [exact R |]. split; [exact Da |]. rewrite T.
    split; apply in_or_app; right; apply in_or_app; right; cbn; auto 20.
Defined.

Lemma out_of_range_genre_index_raises_witness :
  make_bokeh_charts [Cases.bad_row] "group" ["30-39"] genre_labels "age_group_charts.html"
                    Sample.fresh
  = Raise (IndexError "list index out of range") Sample.fresh.
Proof.
  apply (out_of_range_genre_index_raises [Cases.bad_row] ["30-39"] genre_labels
           "age_group_charts.html" Sample.fresh "30-39" Cases.bad_row).
  - left. reflexivity.
  - left. reflexivity.
  - reflexivity.
  - right. vm_compute. discriminate.
Defined.

Lemma failing_age_charts_stop_the_run_witness :
  exists w',
    main Cases.bad_index = Raise (IndexError "list index out of range") w'
    /\ ~ In (EPrint "All tasks completed successfully.") (trace w')
    /\ ~ In (EFind "gender_genre_rating_stats") (trace w').
Proof.
  eexists. split.
  - apply (failing_age_charts_stop_the_run Cases.bad_index [Cases.bad_row] Cases.bad_row).
    + intros c Hc. cbn [In] in Hc.
      repeat (destruct Hc as [<- | Hc]; [vm_compute; discriminate |]). destruct Hc.
    + vm_compute. reflexivity.
    + left. reflexivity.
    + right. vm_compute. discriminate.
  - cbn [trace]. split; intros H; vm_compute in H;
      repeat (destruct H as [H | H]; [discriminate |]); destruct H.
Defined.

Lemma age_groups_follow_age_below_100_witness :
  String.leb (age_to_group 23) (age_to_group 57) = true.
Proof. apply age_groups_follow_age_below_100; lia. Defined.

Lemma ages_from_100_are_charted_before_20_witness :
  String.ltb (age_to_group 104) (age_to_group 25) = true.
Proof. apply ages_from_100_are_charted_before_20; lia. Defined.

Lemma first_run_derives_everything_from_the_files_witness :
  List.length (db (final (main Sample.fresh)) "users") = 3%nat
  /\ join_written (db (final (main Sample.fresh)))
                  (db (final (main Sample.fresh)) "ratings")
                  (db (final (main Sample.fresh)) "ratings_userinfo_genres")
  /\ stats_written "age" 19 (db (final (main Sample.fresh)) "ratings_userinfo_genres")
                   (db (final (main Sample.fresh)) "age_genre_rating_stats").
Proof.
  destruct (first_run_derives_everything_from_the_files Sample.fresh)
    as (Hu & _ & _ & Hj & Ha & _).
  - vm_compute. reflexivity.
  - intros c. reflexivity.
  - intros c. reflexivity.
  - split; [rewrite Hu; vm_compute; reflexivity |]. split; [exact Hj | exact Ha].
Defined.

Lemma join_guard_and_output_are_different_collections_witness :
  exists w',
    populate_user_movie_info_if_needed "joined" "ratings" Sample.stale_join = Ok tt w'
    /\ db Sample.stale_join "ratings_userinfo_genres" = [Sample.stale_joined]
    /\ List.length (db w' "ratings_userinfo_genres") = 4%nat
    /\ db w' "joined" = [].
Proof.
  destruct (join_guard_and_output_are_different_collections "joined" "ratings"
              Sample.stale_join) as (w' & R & Hc & Hopen & _).
  - discriminate.
  - reflexivity.
  - exists w'. split; [exact R |]. split; [reflexivity |].
    rewrite Hc, (Hopen eq_refl). split; vm_compute; reflexivity.
Defined.

Lemma decade_chart_has_a_bar_per_statistics_document_witness :
  List.length
    (bars (vbar_figure "group" "20-29" "Count" genre_labels count
                       (labelled genre_labels (subset_of Sample.age_rows "20-29"))))
  = 9%nat
  /\ List.length (Py.unique (map fst
        (bars (vbar_figure "group" "20-29" "Count" genre_labels count
                           (labelled genre_labels (subset_of Sample.age_rows "20-29"))))))
     = 6%nat.
Proof.
  split; [| vm_compute; reflexivity].
  rewrite (decade_chart_has_a_bar_per_statistics_document
             (db Sample.with_stats "age_genre_rating_stats") Sample.age_rows
             genre_labels "20-29").
  - vm_compute. reflexivity.
  - vm_compute. reflexivity.
  - right. left. reflexivity.
Defined.
